(** * Tuition admin API: the Student model and the student routes

    A shallow embedding of [models/Student.js] (the mongoose schema, its
    virtuals, pre-save hook, instance methods, query helpers and
    dashboard statistics), of [routes/students.js] (the
    express-validator chains and the route handlers) and of the sample
    data of [server.js], followed by the properties of the
    specification and by further properties of the code: the two
    validation chains, the dashboard, the invariants and round trips of
    the writes, and the listings.

    Conventions of the embedding:
    - text is ASCII, a [string] of bytes, so that a character is one
      UTF-16 unit;
    - the body of a request is the record [Body] of the keys of the
      schema, each absent or a value of the type of its path; a body
      with other keys (an update operator, a timestamp) or with a value
      that does not cast to its path is outside the embedding;
    - a [Date] is its time value: milliseconds since the epoch, in [Z];
    - a JSON number is an integer, in [Z];
    - the collection is the list of its documents, in insertion order;
    - [new Date()] and the local time zone, whose offset from UTC may
      change with the date, are read from an explicit environment [Env].

    Behaviour of the libraries that the embedding writes out:
    - mongoose: [save] validates, then runs the [pre("save")] middleware
      of the schema, then writes, for a stored document the paths
      marked as modified only; an assignment marks its path when the
      value differs from the one held, and a change made to a [Date] in
      place marks nothing; a query such as [findByIdAndUpdate]
      runs no save middleware, and with [runValidators] it validates the
      paths it sets; the setters of a path ([trim], [lowercase]) apply
      to documents, updates and query values; [insertMany] validates
      every document before it sends any, and runs no save middleware;
      the timestamps plugin sets [updatedAt] in every update;
    - express-validator: every validator of a chain runs, a chain that
      starts with [optional()] is skipped on an absent field, and the
      sanitizers write their result into the body;
    - the store: [$regex] is an unanchored regular-expression match,
      [$lt] holds between values of one type only, a negative [skip] is
      refused, a [limit] of 0 is no limit, and documents that tie in a
      sort are kept in insertion order; [$group] sums a missing field
      as nothing, and the order of its groups, which the store leaves
      open, is fixed here to that of first occurrence (the properties
      of the distribution do not depend on it). *)

From Stdlib Require Import ZArith List String Ascii Bool Lia Permutation Sorted.
Import ListNotations.

Local Open Scope string_scope.
Local Open Scope Z_scope.

Set Warnings "-register-all".

(* ================================================================== *)
(** ** Characters and strings, as JavaScript sees them *)

Module Text.

Definition code (c : ascii) : nat := nat_of_ascii c.

Definition between (lo hi : nat) (c : ascii) : bool :=
  (Nat.leb lo (code c) && Nat.leb (code c) hi)%bool.

Definition is_digit : ascii -> bool := between 48 57.
Definition is_upper : ascii -> bool := between 65 90.
Definition is_lower : ascii -> bool := between 97 122.
Definition is_alpha (c : ascii) : bool := is_upper c || is_lower c.

(** [\w] of a JavaScript regular expression. *)
Definition is_word (c : ascii) : bool :=
  is_alpha c || is_digit c || Ascii.eqb c "_"%char.

(** [\s], restricted to ASCII: tab, LF, VT, FF, CR and space. *)
Definition is_space (c : ascii) : bool :=
  between 9 13 c || Ascii.eqb c " "%char.

Definition is_hex (c : ascii) : bool :=
  is_digit c || between 65 70 c || between 97 102 c.

(** The double quote. *)
Definition dquote : ascii := ascii_of_nat 34.

Definition quoted (s : string) : string :=
  String dquote (s ++ String dquote EmptyString).

Definition lower_char (c : ascii) : ascii :=
  if is_upper c then ascii_of_nat (code c + 32) else c.

(** [String.prototype.toLowerCase]. *)
Fixpoint toLowerCase (s : string) : string :=
  match s with
  | EmptyString => EmptyString
  | String c t => String (lower_char c) (toLowerCase t)
  end.

Fixpoint ltrim (s : string) : string :=
  match s with
  | String c t => if is_space c then ltrim t else s
  | EmptyString => EmptyString
  end.

Fixpoint rev_string (s : string) (acc : string) : string :=
  match s with
  | EmptyString => acc
  | String c t => rev_string t (String c acc)
  end.

Definition rtrim (s : string) : string :=
  rev_string (ltrim (rev_string s "")) "".

(** [trim]: leading and trailing white space removed. *)
Definition trim (s : string) : string := rtrim (ltrim s).

Definition len (s : string) : Z := Z.of_nat (String.length s).

(** [s.split(sep)] for a one-character separator. *)
Fixpoint split_on (sep : ascii) (s : string) (cur : string) : list string :=
  match s with
  | EmptyString => [rev_string cur ""]
  | String c t =>
      if Ascii.eqb c sep then rev_string cur "" :: split_on sep t ""
      else split_on sep t (String c cur)
  end.

Definition split (sep : ascii) (s : string) : list string := split_on sep s "".

(** [parts.join(sep)]. *)
Fixpoint join (sep : string) (l : list string) : string :=
  match l with
  | [] => ""
  | [x] => x
  | x :: t => x ++ sep ++ join sep t
  end.

Fixpoint forallb_string (p : ascii -> bool) (s : string) : bool :=
  match s with
  | EmptyString => true
  | String c t => p c && forallb_string p t
  end.

Fixpoint string_mem (x : string) (l : list string) : bool :=
  match l with
  | [] => false
  | y :: t => String.eqb x y || string_mem x t
  end.

(** Case-insensitive "[needle] occurs in [hay]", the wording of the
    specification for the search; compared below with what the store's
    [$regex] does. *)
Fixpoint ci_prefix (p s : string) : bool :=
  match p, s with
  | EmptyString, _ => true
  | String a p', String b s' => Ascii.eqb (lower_char a) (lower_char b) && ci_prefix p' s'
  | String _ _, EmptyString => false
  end.

Fixpoint ci_substring (needle hay : string) : bool :=
  ci_prefix needle hay ||
  match hay with
  | EmptyString => false
  | String _ t => ci_substring needle t
  end.

End Text.

(* ================================================================== *)
(** ** Regular expressions

    The patterns of the schema and of the validators are written as
    terms of [re]; [run] follows every way the expression can consume a
    prefix of the subject and returns the remaining suffixes. *)

Module Regex.

Inductive re : Type :=
| Eps
| Chr (p : ascii -> bool)
| Cat (a b : re)
| Alt (a b : re)
| Star (a : re).

Definition plus (a : re) : re := Cat a (Star a).
Definition opt (a : re) : re := Alt Eps a.

(** [a{0,n}] *)
Fixpoint upto (n : nat) (a : re) : re :=
  match n with
  | O => Eps
  | S k => opt (Cat a (upto k a))
  end.

Definition lit (c : ascii) : re := Chr (Ascii.eqb c).

Definition suffix_dec : forall x y : string, {x = y} + {x <> y} := string_dec.

Definition member (x : string) (xs : list string) : bool :=
  if in_dec suffix_dec x xs then true else false.

(** The elements of [ys] that are not in [xs], once each. *)
Definition fresh (xs ys : list string) : list string :=
  nodup suffix_dec (filter (fun y => negb (member y xs)) ys).

Definition union (xs ys : list string) : list string := (xs ++ fresh xs ys)%list.

Definition eat (p : ascii -> bool) (s : string) : list string :=
  match s with
  | String c t => if p c then [t] else []
  | EmptyString => []
  end.

Definition longest (ss : list string) : nat :=
  fold_right (fun s m => Nat.max (String.length s) m) O ss.

(** The rounds of a star. [step] follows the starred expression once;
    [frontier] holds the suffixes reached in the last round and [seen]
    all those reached so far. *)
Fixpoint rounds (step : list string -> list string) (fuel : nat)
    (frontier seen : list string) : list string :=
  match fuel with
  | O => seen
  | S k =>
      match fresh seen (step frontier) with
      | [] => seen
      | next => rounds step k next (seen ++ next)%list
      end
  end.

(** [run r ss]: the suffixes left after [r] has consumed a prefix of one
    of the subjects [ss]. A round of a star adds only suffixes shorter
    than one of its frontier, which bounds the number of rounds. *)
Fixpoint run (r : re) (ss : list string) : list string :=
  match r with
  | Eps => ss
  | Chr p => nodup suffix_dec (flat_map (eat p) ss)
  | Cat a b => run b (run a ss)
  | Alt a b => union (run a ss) (run b ss)
  | Star a => rounds (run a) (S (longest ss)) ss ss
  end.

(** The strings an expression matches, by the textbook rules. *)
Inductive Matches : re -> string -> Prop :=
| MEps : Matches Eps ""
| MChr (p : ascii -> bool) (c : ascii) : p c = true -> Matches (Chr p) (String c "")
| MCat (a b : re) (u v : string) :
    Matches a u -> Matches b v -> Matches (Cat a b) (u ++ v)
| MAltL (a b : re) (u : string) : Matches a u -> Matches (Alt a b) u
| MAltR (a b : re) (u : string) : Matches b u -> Matches (Alt a b) u
| MStarNil (a : re) : Matches (Star a) ""
| MStarCons (a : re) (u v : string) :
    Matches a u -> Matches (Star a) v -> Matches (Star a) (u ++ v).

(** [y] is what is left of [x] after one more match of [a]; a set of
    suffixes is closed when it holds all that is left of its members. *)
Definition next_of (a : re) (x y : string) : Prop :=
  exists w, Matches a w /\ x = (w ++ y)%string.

Definition closed (a : re) (R : list string) : Prop :=
  forall x y, In x R -> next_of a x y -> In y R.

Definition is_empty (s : string) : bool :=
  match s with EmptyString => true | _ => false end.

(** [/^r$/.test(s)] *)
Definition test_anchored (r : re) (s : string) : bool :=
  existsb is_empty (run r [s]).

Definition matches_prefix (r : re) (s : string) : bool :=
  match run r [s] with
  | [] => false
  | _ :: _ => true
  end.

(** [/r/.test(s)]: a match that starts at some position of the subject. *)
Fixpoint test_anywhere (r : re) (s : string) : bool :=
  matches_prefix r s ||
  match s with
  | EmptyString => false
  | String _ t => test_anywhere r t
  end.

End Regex.

(* ================================================================== *)
(** ** Dates: [Date.prototype.setMonth(getMonth() + 1)] *)

Module JSDate.

Definition msPerDay : Z := 86400000.

(** Days since the epoch of the first day of a civil date
    (proleptic Gregorian calendar, month in 1..12). *)
Definition days_from_civil (y m d : Z) : Z :=
  let y' := if m <=? 2 then y - 1 else y in
  let era := y' / 400 in
  let yoe := y' - era * 400 in
  let mp := if 2 <? m then m - 3 else m + 9 in
  let doy := (153 * mp + 2) / 5 + d - 1 in
  let doe := yoe * 365 + yoe / 4 - yoe / 100 + doy in
  era * 146097 + doe - 719468.

(** Year, month (1..12) and day of the month of a day number. *)
Definition civil_from_days (z : Z) : Z * Z * Z :=
  let z' := z + 719468 in
  let era := z' / 146097 in
  let doe := z' - era * 146097 in
  let yoe := (doe - doe / 1460 + doe / 36524 - doe / 146096) / 365 in
  let doy := doe - (365 * yoe + yoe / 4 - yoe / 100) in
  let mp := (5 * doy + 2) / 153 in
  let d := doy - (153 * mp + 2) / 5 + 1 in
  let m := if mp <? 10 then mp + 3 else mp - 9 in
  let y := yoe + era * 400 in
  (if m <=? 2 then y + 1 else y, m, d).

(** [MakeDay(year, month, date)] with a month counted from 0 that may
    overflow, as [setMonth] passes it. *)
Definition MakeDay (year month date : Z) : Z :=
  let ym := year + month / 12 in
  let mn := month mod 12 in
  days_from_civil ym (mn + 1) 1 + date - 1.

(** [LocalTZA(t, isUTC)] of the language: the offset of local time from
    UTC, in milliseconds, at the time value [t] when [isUTC] holds and
    at the local time [t] otherwise. With daylight saving the offset
    depends on the date. *)
Definition Zone : Type := Z -> bool -> Z.

(** A zone that keeps one offset all year. *)
Definition fixedZone (offset : Z) : Zone := fun _ _ => offset.

(** [LocalTime(t)] and [UTC(t)] *)
Definition LocalTime (tza : Zone) (t : Z) : Z := t + tza t true.
Definition UTC (tza : Zone) (t : Z) : Z := t - tza t false.

(** [d = new Date(t); d.setMonth(d.getMonth() + 1); d.getTime()]: the
    month is added to the local date and time of day, and the result is
    read back as a local time, at the offset of its own date. *)
Definition addOneMonth (tza : Zone) (t : Z) : Z :=
  let lt := LocalTime tza t in
  let day := lt / msPerDay in
  let tod := lt mod msPerDay in
  let '(y, m, d) := civil_from_days day in
  let month := m - 1 in
  UTC tza (MakeDay y (month + 1) d * msPerDay + tod).

End JSDate.

(* ================================================================== *)
(** ** Numbers of the pagination arithmetic

    [parseInt] yields an integer, [-0] or [NaN]; dividing the total by
    the page size and rounding up can also yield an infinity. *)

Module JSNum.

Inductive t : Type :=
| NaN
| NegZero
| Num (z : Z)
| PosInf
| NegInf.

Definition digit_val (c : ascii) : option Z :=
  if Text.is_digit c then Some (Z.of_nat (Text.code c) - 48)
  else if Text.between 97 102 c then Some (Z.of_nat (Text.code c) - 87)
  else if Text.between 65 70 c then Some (Z.of_nat (Text.code c) - 55)
  else None.

(** The longest prefix of digits in the radix, read as a number. *)
Fixpoint digits (radix : Z) (s : string) (acc : option Z) : option Z :=
  match s with
  | EmptyString => acc
  | String c t =>
      match digit_val c with
      | Some d =>
          if d <? radix
          then digits radix t (Some (match acc with Some a => a * radix + d | None => d end))
          else acc
      | None => acc
      end
  end.

Definition strip_hex_prefix (s : string) : option string :=
  match s with
  | String "0" (String "x" t) => Some t
  | String "0" (String "X" t) => Some t
  | _ => None
  end.

Definition unsigned (s : string) : option Z :=
  match strip_hex_prefix s with
  | Some t => digits 16 t None
  | None => digits 10 s None
  end.

(** [parseInt(s)] with no radix argument. *)
Definition parseInt (s : string) : t :=
  match Text.ltrim s with
  | String "-" t =>
      match unsigned t with
      | Some 0 => NegZero
      | Some z => Num (- z)
      | None => NaN
      end
  | String "+" t =>
      match unsigned t with Some z => Num z | None => NaN end
  | t =>
      match unsigned t with Some z => Num z | None => NaN end
  end.

(** [x - 1] *)
Definition pred (x : t) : t :=
  match x with
  | Num z => Num (z - 1)
  | NegZero => Num (-1)
  | other => other
  end.

Definition is_zero (x : t) : bool :=
  match x with
  | NegZero => true
  | Num 0 => true
  | _ => false
  end.

(** Is the sign bit set? ([NaN] has none that matters.) *)
Definition negative (x : t) : bool :=
  match x with
  | NegZero | NegInf => true
  | Num z => z <? 0
  | _ => false
  end.

(** [x * y] *)
Definition mul (x y : t) : t :=
  match x, y with
  | NaN, _ | _, NaN => NaN
  | (PosInf | NegInf), _ =>
      if is_zero y then NaN
      else if xorb (negative x) (negative y) then NegInf else PosInf
  | _, (PosInf | NegInf) =>
      if is_zero x then NaN
      else if xorb (negative x) (negative y) then NegInf else PosInf
  | _, _ =>
      let a := match x with Num z => z | _ => 0 end in
      let b := match y with Num z => z | _ => 0 end in
      if (a * b =? 0) && xorb (negative x) (negative y) then NegZero
      else Num (a * b)
  end.

(** [Math.ceil(total / y)] for a count [total >= 0]. *)
Definition ceil_div (total : Z) (y : t) : t :=
  match y with
  | NaN => NaN
  | PosInf => Num 0
  | NegInf => NegZero
  | NegZero => if total =? 0 then NaN else NegInf
  | Num 0 => if total =? 0 then NaN else PosInf
  | Num z =>
      let q := - ((- total) / z) in
      if (q =? 0) && (z <? 0) then NegZero else Num q
  end.

(** [x < y] *)
Definition lt (x y : t) : bool :=
  match x, y with
  | NaN, _ | _, NaN => false
  | NegInf, NegInf => false
  | NegInf, _ => true
  | _, NegInf => false
  | PosInf, _ => false
  | _, PosInf => true
  | _, _ =>
      let a := match x with Num z => z | _ => 0 end in
      let b := match y with Num z => z | _ => 0 end in
      a <? b
  end.

End JSNum.

(* ================================================================== *)
(** ** The validators and sanitizers of validator.js that the routes
    call (default options, ASCII subjects) *)

Module Validator.

Import Text Regex.

Definition char_in (set : string) (c : ascii) : bool :=
  existsb (Ascii.eqb c) (list_ascii_of_string set).

(** [isByteLength(s, {max})] *)
Definition isByteLength_max (max : Z) (s : string) : bool := len s <=? max.

(** The part pattern of [isFQDN]: letters, digits, hyphen and (rejected
    just after) underscore. *)
Definition fqdn_char (c : ascii) : bool :=
  is_alpha c || is_digit c || char_in "_-" c.

Definition first_char (s : string) : option ascii :=
  match s with String c _ => Some c | EmptyString => None end.

Definition last_char (s : string) : option ascii :=
  first_char (rev_string s "").

Definition is_char (c : ascii) (o : option ascii) : bool :=
  match o with Some d => Ascii.eqb c d | None => false end.

Definition fqdn_part (part : string) : bool :=
  (len part <=? 63)
  && negb (is_empty part) && forallb_string fqdn_char part
  && negb (is_char "-" (first_char part) || is_char "-" (last_char part))
  && forallb_string (fun c => negb (Ascii.eqb c "_")) part.

(** [/^([a-z]{2,}|xn[a-z0-9-]{2,})$/i] *)
Definition tld_pattern : re :=
  Alt (Cat (Chr is_alpha) (plus (Chr is_alpha)))
      (Cat (Chr (fun c => Ascii.eqb (lower_char c) "x"))
        (Cat (Chr (fun c => Ascii.eqb (lower_char c) "n"))
          (let k := Chr (fun c => is_alpha c || is_digit c || Ascii.eqb c "-") in
           Cat k (plus k)))).

(** [isFQDN(domain, {require_tld: true})] *)
Definition isFQDN (str : string) : bool :=
  let parts := split "." str in
  let tld := last parts "" in
  (2 <=? Z.of_nat (List.length parts))
  && test_anchored tld_pattern tld
  && negb (existsb is_space (list_ascii_of_string tld))
  && negb (negb (is_empty tld) && forallb_string is_digit tld)
  && forallb fqdn_part parts.

(** [emailUserUtf8Part] *)
Definition email_user_char (c : ascii) : bool :=
  is_alpha c || is_digit c || char_in "!#$%&'*+-/=?^_`{|}~" c.

Definition email_user_part (part : string) : bool :=
  negb (is_empty part) && forallb_string email_user_char part.

(** [quotedEmailUserUtf8] *)
Definition quoted_plain (c : ascii) : bool :=
  is_space c || between 1 8 c || between 11 12 c || between 14 31 c
  || between 127 127 c || between 33 33 c || between 35 91 c || between 93 126 c.

Definition quoted_escaped (c : ascii) : bool :=
  between 1 9 c || between 11 12 c || between 13 127 c.

Definition quoted_user_pattern : re :=
  Star (Alt (Chr quoted_plain) (Cat (lit "\") (Chr quoted_escaped))).

(** [s.slice(1, s.length - 1)] *)
Definition slice_inner (s : string) : string :=
  match s with
  | EmptyString => ""
  | String _ t =>
      match rev_string t "" with
      | EmptyString => ""
      | String _ r => rev_string r ""
      end
  end.

(** [isEmail(str)] *)
Definition isEmail (str : string) : bool :=
  if 254 <? len str then false else
  let parts := split "@" str in
  let domain := last parts "" in
  let user := join "@" (removelast parts) in
  if negb (isByteLength_max 64 user && isByteLength_max 254 domain) then false else
  if negb (isFQDN domain) then false else
  if is_char dquote (first_char user)
  then test_anchored quoted_user_pattern (slice_inner user)
  else forallb email_user_part (split "." user).

(** Provider tables of [normalizeEmail]. *)
Definition icloud_domains : list string := ["icloud.com"; "me.com"].

Definition outlookdotcom_domains : list string :=
  [ "hotmail.at"; "hotmail.be"; "hotmail.ca"; "hotmail.cl"; "hotmail.co.il";
    "hotmail.co.nz"; "hotmail.co.th"; "hotmail.co.uk"; "hotmail.com";
    "hotmail.com.ar"; "hotmail.com.au"; "hotmail.com.br"; "hotmail.com.gr";
    "hotmail.com.mx"; "hotmail.com.pe"; "hotmail.com.tr"; "hotmail.com.vn";
    "hotmail.cz"; "hotmail.de"; "hotmail.dk"; "hotmail.es"; "hotmail.fr";
    "hotmail.hu"; "hotmail.id"; "hotmail.ie"; "hotmail.in"; "hotmail.it";
    "hotmail.jp"; "hotmail.kr"; "hotmail.lv"; "hotmail.my"; "hotmail.ph";
    "hotmail.pt"; "hotmail.sa"; "hotmail.sg"; "hotmail.sk"; "live.be";
    "live.co.uk"; "live.com"; "live.com.ar"; "live.com.mx"; "live.de";
    "live.es"; "live.eu"; "live.fr"; "live.it"; "live.nl"; "msn.com";
    "outlook.at"; "outlook.be"; "outlook.cl"; "outlook.co.il"; "outlook.co.nz";
    "outlook.co.th"; "outlook.com"; "outlook.com.ar"; "outlook.com.au";
    "outlook.com.br"; "outlook.com.gr"; "outlook.com.pe"; "outlook.com.tr";
    "outlook.com.vn"; "outlook.cz"; "outlook.de"; "outlook.dk"; "outlook.es";
    "outlook.fr"; "outlook.hu"; "outlook.id"; "outlook.ie"; "outlook.in";
    "outlook.it"; "outlook.jp"; "outlook.kr"; "outlook.lv"; "outlook.my";
    "outlook.ph"; "outlook.pt"; "outlook.sa"; "outlook.sg"; "outlook.sk";
    "passport.com" ].

Definition yahoo_domains : list string :=
  [ "rocketmail.com"; "yahoo.ca"; "yahoo.co.uk"; "yahoo.com"; "yahoo.de";
    "yahoo.fr"; "yahoo.in"; "yahoo.it"; "ymail.com" ].

Definition yandex_domains : list string :=
  [ "yandex.ru"; "yandex.ua"; "yandex.kz"; "yandex.com"; "yandex.by"; "ya.ru" ].

(** [user.replace(/\.+/g, dotsReplacer)]: a single dot is dropped, a run
    of several dots is kept. *)
Fixpoint remove_single_dots (s : string) (run_before : bool) : string :=
  match s with
  | EmptyString => ""
  | String c t =>
      if Ascii.eqb c "."
      then
        let run_after := match t with String "." _ => true | _ => false end in
        if run_before || run_after
        then String c (remove_single_dots t true)
        else remove_single_dots t false
      else String c (remove_single_dots t false)
  end.

(** [normalizeEmail(email)]; [None] is the [false] it returns when the
    local part becomes empty. *)
Definition normalizeEmail (email : string) : option string :=
  let raw_parts := split "@" email in
  let domain := toLowerCase (last raw_parts "") in
  let user := join "@" (removelast raw_parts) in
  let before_plus := hd "" (split "+" user) in
  let finish (u d : string) : option string :=
    if is_empty u then None else Some (toLowerCase u ++ "@" ++ d) in
  if String.eqb domain "gmail.com" || String.eqb domain "googlemail.com" then
    finish (remove_single_dots before_plus false) "gmail.com"
  else if string_mem domain icloud_domains then
    finish before_plus domain
  else if string_mem domain outlookdotcom_domains then
    finish before_plus domain
  else if string_mem domain yahoo_domains then
    let components := split "-" user in
    finish (match components with
            | _ :: _ :: _ => join "-" (removelast components)
            | _ => hd "" components
            end) domain
  else if string_mem domain yandex_domains then
    Some (toLowerCase user ++ "@" ++ "yandex.ru")
  else
    Some (toLowerCase user ++ "@" ++ domain).

(** [isHexadecimal(s) && s.length === 24] *)
Definition hexadecimal_pattern : re :=
  Cat (opt (Cat (lit "0") (Chr (fun c => char_in "xXhH" c))))
      (plus (Chr is_hex)).

Definition isMongoId (s : string) : bool :=
  test_anchored hexadecimal_pattern s && (len s =? 24).

(** [isIn(values)] *)
Definition isIn (values : list string) (s : string) : bool := string_mem s values.

End Validator.

(* ================================================================== *)
(** ** The Student model ([models/Student.js]) *)

Module StudentModel.

Import Text Regex.

(** What a request can read from its surroundings: the clock, the
    server's time zone, and the ObjectId the driver would give to a
    document constructed now. *)
Record Env : Type := mkEnv {
  now : Z;
  LocalTZA : JSDate.Zone;
  newObjectId : string
}.

(** A document of the collection, or one held in memory before it is
    saved; a path the document does not have is [None]. *)
Record Student : Type := mkStudent {
  _id : string;
  name : option string;
  email : option string;
  phone : option string;
  address : option string;
  course : option string;
  batchTime : option string;
  feeAmount : option Z;
  feeStatus : string;
  joinDate : Z;
  guardianName : option string;
  guardianPhone : option string;
  notes : option string;
  isActive : bool;
  lastFeePayment : option Z;
  nextFeePayment : option Z;
  createdAt : option Z;
  updatedAt : option Z
}.

Definition Collection : Type := list Student.

(** The email of a JSON body: a string, or the [false] that
    [normalizeEmail] can leave there. *)
Inductive EmailValue : Type :=
| EStr (s : string)
| EFalse.

(** A JSON request body, read at the paths of the schema (strict mode
    drops every other key); an absent key is [None]. *)
Record Body : Type := mkBody {
  b_name : option string;
  b_email : option EmailValue;
  b_phone : option string;
  b_address : option string;
  b_course : option string;
  b_batchTime : option string;
  b_feeAmount : option Z;
  b_feeStatus : option string;
  b_joinDate : option Z;
  b_guardianName : option string;
  b_guardianPhone : option string;
  b_notes : option string;
  b_isActive : option bool;
  b_lastFeePayment : option Z;
  b_nextFeePayment : option Z
}.

(** The errors the store and the ODM throw. *)
Inductive StoreError : Type :=
| ValidationError (prefix : string) (errors : list (string * string))
| DuplicateKey
| CastError (path value : string)
| ServerError (msg : string).

(** [error.code] *)
Definition code (e : StoreError) : option Z :=
  match e with
  | DuplicateKey => Some 11000
  | _ => None
  end.

(** [error.message] *)
Definition errorMessage (e : StoreError) : string :=
  match e with
  | ValidationError prefix errors =>
      prefix ++ ": " ++ join ", " (map (fun pe => fst pe ++ ": " ++ snd pe) errors)
  | DuplicateKey => "E11000 duplicate key error collection: tuitionadmin.students"
  | CastError path value =>
      "Cast to ObjectId failed for value " ++ quoted value ++ " at path " ++ quoted path
  | ServerError msg => msg
  end.

Definition Result (A : Type) : Type := (StoreError + A)%type.

(** *** Schema: patterns, catalog, setters *)

(** [/^\w+([.-]?\w+)*@\w+([.-]?\w+)*(\.\w{2,3})+$/] *)
Definition emailPattern : re :=
  let w := Chr is_word in
  let words := Cat (plus w) (Star (Cat (opt (Chr (Validator.char_in ".-"))) (plus w))) in
  Cat words (Cat (lit "@") (Cat words
    (plus (Cat (lit ".") (Cat w (Cat w (opt w))))))).

(** [/^[\+]?[1-9][\d]{0,15}$/] *)
Definition phonePattern : re :=
  Cat (opt (lit "+")) (Cat (Chr (between 49 57)) (upto 15 (Chr is_digit))).

Definition courseValues : list string :=
  [ "Mathematics - Class 9"; "Mathematics - Class 10";
    "Mathematics - Class 11"; "Mathematics - Class 12";
    "Physics - Class 9"; "Physics - Class 10";
    "Physics - Class 11"; "Physics - Class 12";
    "Chemistry - Class 9"; "Chemistry - Class 10";
    "Chemistry - Class 11"; "Chemistry - Class 12";
    "Biology - Class 11"; "Biology - Class 12";
    "English - Class 9"; "English - Class 10";
    "English - Class 11"; "English - Class 12";
    "Computer Science - Class 11"; "Computer Science - Class 12" ].

Definition feeStatusValues : list string := ["paid"; "pending"; "overdue"].

(** The validators of one path, in the order the schema lists them; the
    first that fails gives the path's error. *)
Definition Check : Type := (string * bool)%type.

Fixpoint first_failure (checks : list Check) : option string :=
  match checks with
  | [] => None
  | (msg, ok) :: rest => if ok then first_failure rest else Some msg
  end.

(** [required] on a string: present and not empty. *)
Definition present (v : option string) : bool :=
  match v with Some s => negb (is_empty s) | None => false end.

Definition on_string (v : option string) (p : string -> bool) : bool :=
  match v with Some s => p s | None => true end.

(** [match]: an absent or empty value passes. *)
Definition matches (r : re) (v : option string) : bool :=
  on_string v (fun s => is_empty s || test_anchored r s).

Definition on_number (v : option Z) (p : Z -> bool) : bool :=
  match v with Some z => p z | None => true end.

Definition isSome {A} (v : option A) : bool :=
  match v with Some _ => true | None => false end.

Definition nameChecks (v : option string) : list Check :=
  [ ("Student name is required", present v);
    ("Name cannot exceed 100 characters", on_string v (fun s => len s <=? 100));
    ("Name must be at least 2 characters", on_string v (fun s => 2 <=? len s)) ].

Definition emailChecks (v : option string) : list Check :=
  [ ("Email is required", present v);
    ("Please enter a valid email address", matches emailPattern v) ].

Definition phoneChecks (v : option string) : list Check :=
  [ ("Phone number is required", present v);
    ("Please enter a valid phone number", matches phonePattern v) ].

Definition addressChecks (v : option string) : list Check :=
  [ ("Address is required", present v);
    ("Address cannot exceed 500 characters", on_string v (fun s => len s <=? 500)) ].

Definition courseChecks (v : option string) : list Check :=
  [ ("Course is required", present v);
    ("Please select a valid course", on_string v (fun s => string_mem s courseValues)) ].

Definition batchTimeChecks (v : option string) : list Check :=
  [ ("Batch time is required", present v) ].

Definition feeAmountChecks (v : option Z) : list Check :=
  [ ("Fee amount is required", isSome v);
    ("Fee amount cannot be negative", on_number v (fun z => 0 <=? z));
    ("Fee amount cannot exceed â‚¹50,000", on_number v (fun z => z <=? 50000)) ].

Definition feeStatusChecks (v : string) : list Check :=
  [ ("Path `feeStatus` is required.", negb (is_empty v));
    ("Fee status must be paid, pending, or overdue", string_mem v feeStatusValues) ].

Definition guardianNameChecks (v : option string) : list Check :=
  [ ("Guardian name is required", present v);
    ("Guardian name cannot exceed 100 characters", on_string v (fun s => len s <=? 100)) ].

Definition guardianPhoneChecks (v : option string) : list Check :=
  [ ("Guardian phone number is required", present v);
    ("Please enter a valid guardian phone number", matches phonePattern v) ].

Definition notesChecks (v : option string) : list Check :=
  [ ("Notes cannot exceed 1000 characters", on_string v (fun s => len s <=? 1000)) ].

Definition path_error (path : string) (checks : list Check) : list (string * string) :=
  match first_failure checks with
  | Some msg => [(path, msg)]
  | None => []
  end.

(** Document validation before a save: every required path is always
    validated, [notes] only when the document is new or the path was
    modified. *)
Definition validate (withNotes : bool) (s : Student) : list (string * string) :=
  path_error "name" (nameChecks (name s))
  ++ path_error "email" (emailChecks (email s))
  ++ path_error "phone" (phoneChecks (phone s))
  ++ path_error "address" (addressChecks (address s))
  ++ path_error "course" (courseChecks (course s))
  ++ path_error "batchTime" (batchTimeChecks (batchTime s))
  ++ path_error "feeAmount" (feeAmountChecks (feeAmount s))
  ++ path_error "feeStatus" (feeStatusChecks (feeStatus s))
  ++ path_error "guardianName" (guardianNameChecks (guardianName s))
  ++ path_error "guardianPhone" (guardianPhoneChecks (guardianPhone s))
  ++ (if withNotes then path_error "notes" (notesChecks (notes s)) else []).

(** Setters of the string paths: [trim: true] everywhere, and
    [lowercase: true] on the email. *)
Definition castText (v : option string) : option string := option_map trim v.

Definition emailText (v : EmailValue) : string :=
  match v with EStr s => s | EFalse => "false" end.

Definition castEmail (v : option EmailValue) : option string :=
  option_map (fun e => toLowerCase (trim (emailText e))) v.

Definition orElse {A} (v : option A) (d : A) : A :=
  match v with Some x => x | None => d end.

Definition orKeep {A} (v : option A) (old : option A) : option A :=
  match v with Some x => Some x | None => old end.

(** *** Documents in memory *)

Record Document : Type := mkDocument {
  isNew : bool;
  modifiedPaths : list string;
  fields : Student
}.

Definition isModified (path : string) (d : Document) : bool :=
  string_mem path (modifiedPaths d).

Definition markModified (path : string) (d : Document) : Document :=
  mkDocument (isNew d)
    (if isModified path d then modifiedPaths d else path :: modifiedPaths d)
    (fields d).

(** [new Student(studentData)]: casts, setters and defaults. *)
Definition construct (env : Env) (b : Body) : Document :=
  mkDocument true []
    {| _id := newObjectId env;
       name := castText (b_name b);
       email := castEmail (b_email b);
       phone := castText (b_phone b);
       address := castText (b_address b);
       course := castText (b_course b);
       batchTime := castText (b_batchTime b);
       feeAmount := b_feeAmount b;
       feeStatus := orElse (b_feeStatus b) "pending";
       joinDate := orElse (b_joinDate b) (now env);
       guardianName := castText (b_guardianName b);
       guardianPhone := castText (b_guardianPhone b);
       notes := castText (b_notes b);
       isActive := orElse (b_isActive b) true;
       lastFeePayment := b_lastFeePayment b;
       nextFeePayment := b_nextFeePayment b;
       createdAt := None;
       updatedAt := None |}.

(** A document as a query returns it. *)
Definition hydrate (s : Student) : Document := mkDocument false [] s.

Definition with_feeStatus (v : string) (s : Student) : Student :=
  mkStudent (_id s) (name s) (email s) (phone s) (address s) (course s)
    (batchTime s) (feeAmount s) v (joinDate s) (guardianName s)
    (guardianPhone s) (notes s) (isActive s) (lastFeePayment s)
    (nextFeePayment s) (createdAt s) (updatedAt s).

Definition with_isActive (v : bool) (s : Student) : Student :=
  mkStudent (_id s) (name s) (email s) (phone s) (address s) (course s)
    (batchTime s) (feeAmount s) (feeStatus s) (joinDate s) (guardianName s)
    (guardianPhone s) (notes s) v (lastFeePayment s)
    (nextFeePayment s) (createdAt s) (updatedAt s).

Definition with_lastFeePayment (v : option Z) (s : Student) : Student :=
  mkStudent (_id s) (name s) (email s) (phone s) (address s) (course s)
    (batchTime s) (feeAmount s) (feeStatus s) (joinDate s) (guardianName s)
    (guardianPhone s) (notes s) (isActive s) v
    (nextFeePayment s) (createdAt s) (updatedAt s).

Definition with_nextFeePayment (v : option Z) (s : Student) : Student :=
  mkStudent (_id s) (name s) (email s) (phone s) (address s) (course s)
    (batchTime s) (feeAmount s) (feeStatus s) (joinDate s) (guardianName s)
    (guardianPhone s) (notes s) (isActive s) (lastFeePayment s)
    v (createdAt s) (updatedAt s).

Definition with_timestamps (c u : option Z) (s : Student) : Student :=
  mkStudent (_id s) (name s) (email s) (phone s) (address s) (course s)
    (batchTime s) (feeAmount s) (feeStatus s) (joinDate s) (guardianName s)
    (guardianPhone s) (notes s) (isActive s) (lastFeePayment s)
    (nextFeePayment s) c u.

Definition optZ_eqb (a b : option Z) : bool :=
  match a, b with
  | Some x, Some y => x =? y
  | None, None => true
  | _, _ => false
  end.

(** Assignments to a path of a document: the path is marked modified
    when the value changes. *)
Definition assign (path : string) (changed : bool) (f : Student -> Student)
    (d : Document) : Document :=
  let d' := mkDocument (isNew d) (modifiedPaths d) (f (fields d)) in
  if changed then markModified path d' else d'.

Definition set_feeStatus (v : string) (d : Document) : Document :=
  assign "feeStatus" (negb (String.eqb v (feeStatus (fields d)))) (with_feeStatus v) d.

Definition set_isActive (v : bool) (d : Document) : Document :=
  assign "isActive" (negb (Bool.eqb v (isActive (fields d)))) (with_isActive v) d.

Definition set_lastFeePayment (v : Z) (d : Document) : Document :=
  assign "lastFeePayment" (negb (optZ_eqb (Some v) (lastFeePayment (fields d))))
    (with_lastFeePayment (Some v)) d.

Definition set_nextFeePayment (v : Z) (d : Document) : Document :=
  assign "nextFeePayment" (negb (optZ_eqb (Some v) (nextFeePayment (fields d))))
    (with_nextFeePayment (Some v)) d.

(** *** The pre-save middleware *)

(** [this.nextFeePayment = new Date(baseDate)], then
    [this.nextFeePayment.setMonth(this.nextFeePayment.getMonth() + 1)]:
    the assignment marks the path when the copy of [baseDate] differs
    from the value the document holds; the month is then added to that
    Date in place, which changes the value and marks nothing. *)
Definition derive_nextFeePayment (tza : JSDate.Zone) (baseDate : Z) (d : Document)
  : Document :=
  let d1 := set_nextFeePayment baseDate d in
  mkDocument (isNew d1) (modifiedPaths d1)
    (with_nextFeePayment (Some (JSDate.addOneMonth tza baseDate)) (fields d1)).

Definition pre_save (env : Env) (this : Document) : Document :=
  (* Set next fee payment date (1 month from join date or last payment) *)
  let this1 :=
    if isNew this || isModified "lastFeePayment" this then
      let baseDate := orElse (lastFeePayment (fields this)) (joinDate (fields this)) in
      derive_nextFeePayment (LocalTZA env) baseDate this
    else this in
  (* Update fee status based on payment dates *)
  if String.eqb (feeStatus (fields this1)) "paid"
     && negb (isSome (lastFeePayment (fields this1)))
  then set_lastFeePayment (now env) this1
  else this1.

(** *** Persisting a document *)

Definition optS_eqb (a b : option string) : bool :=
  match a, b with
  | Some x, Some y => String.eqb x y
  | None, None => true
  | _, _ => false
  end.

(** The timestamps plugin ([timestamps: true]). *)
Definition stamp (env : Env) (this : Document) : Document :=
  if isNew this then
    mkDocument true (modifiedPaths this)
      (with_timestamps (Some (orElse (createdAt (fields this)) (now env)))
                       (Some (now env)) (fields this))
  else
    match modifiedPaths this with
    | [] => this
    | _ :: _ =>
        mkDocument false (modifiedPaths this)
          (with_timestamps (createdAt (fields this)) (Some (now env)) (fields this))
    end.

(** The unique index on [email]: does a stored document hold the email
    of [s]? *)
Definition collides (s : Student) (stored : Student) : bool :=
  optS_eqb (email stored) (email s).

Definition sameId (s : Student) (stored : Student) : bool :=
  String.eqb (_id stored) (_id s).

Definition replaceById (s : Student) (db : Collection) : Collection :=
  map (fun stored => if String.eqb (_id stored) (_id s) then s else stored) db.

(** What the update of a stored document leaves in the store: the
    marked paths are set on a document this request has just read, so
    every path is as it is in memory but for [nextFeePayment], the one
    path whose value changes without a mark (the hook adds the month in
    place): unmarked, it is not sent, and the store keeps the value the
    document had when [save] was called. *)
Definition persisted (this doc : Document) : Student :=
  if isModified "nextFeePayment" doc then fields doc
  else with_nextFeePayment (nextFeePayment (fields this)) (fields doc).

(** [doc.save()]: validation, the timestamps, the pre-save middleware,
    then the write: an insert of the document as it is in memory for a
    new document, refused when the email or the [_id] is taken;
    otherwise, when a path was modified, an update of the stored
    document with the same [_id]. The document in memory is what the
    caller gets back. *)
Definition save (env : Env) (this : Document) (db : Collection)
  : Collection * Result Document :=
  match validate (isNew this || isModified "notes" this) (fields this) with
  | (_ :: _) as errs => (db, inl (ValidationError "Student validation failed" errs))
  | [] =>
      let doc := pre_save env (stamp env this) in
      let s := fields doc in
      if isNew this then
        if existsb (fun stored => collides s stored || sameId s stored) db
        then (db, inl DuplicateKey)
        else ((db ++ [s])%list, inr (hydrate s))
      else
        match modifiedPaths doc with
        | [] => (db, inr doc)
        | _ :: _ =>
            if existsb (fun stored => collides s stored && negb (sameId s stored)) db
            then (db, inl DuplicateKey)
            else (replaceById (persisted this doc) db, inr (hydrate s))
        end
  end.

(** Instance method to mark fee as paid *)
Definition markFeePaid (env : Env) (this : Document) (db : Collection)
  : Collection * Result Document :=
  save env (set_lastFeePayment (now env) (set_feeStatus "paid" this)) db.

(** Instance method to mark fee as overdue *)
Definition markFeeOverdue (env : Env) (this : Document) (db : Collection)
  : Collection * Result Document :=
  save env (set_feeStatus "overdue" this) db.

(** Instance method to deactivate student *)
Definition deactivate (env : Env) (this : Document) (db : Collection)
  : Collection * Result Document :=
  save env (set_isActive false this) db.

(** *** Lookups by key *)

(** Cast of a string to an ObjectId: 24 hexadecimal digits. *)
Definition castObjectId (id : string) : Result string :=
  if (len id =? 24) && forallb_string is_hex id
  then inr (toLowerCase id)
  else inl (CastError "_id" id).

Definition findById (id : string) (db : Collection) : Result (option Student) :=
  match castObjectId id with
  | inl e => inl e
  | inr oid => inr (find (fun s => String.eqb (_id s) oid) db)
  end.

(** [Student.findOne({ email })]; the query value goes through the
    setters of the path, and a key whose value is [undefined] is no
    condition at all. *)
Definition findOneByEmail (e : option EmailValue) (db : Collection) : option Student :=
  match e with
  | Some _ => find (fun s => optS_eqb (email s) (castEmail e)) db
  | None => hd_error db
  end.

Definition findByIdAndDelete (id : string) (db : Collection)
  : Collection * Result (option Student) :=
  match castObjectId id with
  | inl e => (db, inl e)
  | inr oid =>
      match find (fun s => String.eqb (_id s) oid) db with
      | None => (db, inr None)
      | Some s =>
          ((fix drop (l : Collection) : Collection :=
              match l with
              | [] => []
              | x :: t => if String.eqb (_id x) oid then t else x :: drop t
              end) db, inr (Some s))
      end
  end.

(** *** [findByIdAndUpdate(id, update, { new: true, runValidators: true })]

    The update sets every path the body carries, after the casts and
    setters of the schema; the update validators check the paths that
    are set; the timestamps plugin sets [updatedAt]. It is a query: the
    document middleware registered with [pre("save")] is not part of
    it. *)

Definition applyUpdate (env : Env) (u : Body) (s : Student) : Student :=
  {| _id := _id s;
     name := orKeep (castText (b_name u)) (name s);
     email := orKeep (castEmail (b_email u)) (email s);
     phone := orKeep (castText (b_phone u)) (phone s);
     address := orKeep (castText (b_address u)) (address s);
     course := orKeep (castText (b_course u)) (course s);
     batchTime := orKeep (castText (b_batchTime u)) (batchTime s);
     feeAmount := orKeep (b_feeAmount u) (feeAmount s);
     feeStatus := orElse (b_feeStatus u) (feeStatus s);
     joinDate := orElse (b_joinDate u) (joinDate s);
     guardianName := orKeep (castText (b_guardianName u)) (guardianName s);
     guardianPhone := orKeep (castText (b_guardianPhone u)) (guardianPhone s);
     notes := orKeep (castText (b_notes u)) (notes s);
     isActive := orElse (b_isActive u) (isActive s);
     lastFeePayment := orKeep (b_lastFeePayment u) (lastFeePayment s);
     nextFeePayment := orKeep (b_nextFeePayment u) (nextFeePayment s);
     createdAt := createdAt s;
     updatedAt := Some (now env) |}.

Definition when_set {A} (v : option A) (errs : option A -> list (string * string))
  : list (string * string) :=
  match v with Some _ => errs v | None => [] end.

Definition validateUpdate (u : Body) : list (string * string) :=
  when_set (castText (b_name u)) (fun v => path_error "name" (nameChecks v))
  ++ when_set (castEmail (b_email u)) (fun v => path_error "email" (emailChecks v))
  ++ when_set (castText (b_phone u)) (fun v => path_error "phone" (phoneChecks v))
  ++ when_set (castText (b_address u)) (fun v => path_error "address" (addressChecks v))
  ++ when_set (castText (b_course u)) (fun v => path_error "course" (courseChecks v))
  ++ when_set (castText (b_batchTime u)) (fun v => path_error "batchTime" (batchTimeChecks v))
  ++ when_set (b_feeAmount u) (fun v => path_error "feeAmount" (feeAmountChecks v))
  ++ when_set (b_feeStatus u) (fun v => path_error "feeStatus" (feeStatusChecks (orElse v "")))
  ++ when_set (castText (b_guardianName u))
       (fun v => path_error "guardianName" (guardianNameChecks v))
  ++ when_set (castText (b_guardianPhone u))
       (fun v => path_error "guardianPhone" (guardianPhoneChecks v))
  ++ when_set (castText (b_notes u)) (fun v => path_error "notes" (notesChecks v)).

Definition findByIdAndUpdate (env : Env) (id : string) (u : Body) (db : Collection)
  : Collection * Result (option Student) :=
  match castObjectId id with
  | inl e => (db, inl e)
  | inr oid =>
      match validateUpdate u with
      | (_ :: _) as errs => (db, inl (ValidationError "Validation failed" errs))
      | [] =>
          match find (fun s => String.eqb (_id s) oid) db with
          | None => (db, inr None)
          | Some old =>
              let s := applyUpdate env u old in
              if existsb (fun stored => collides s stored && negb (sameId s stored)) db
              then (db, inl DuplicateKey)
              else (replaceById s db, inr (Some s))
          end
      end
  end.

(** *** Queries

    A filter document is a term of [Cond]; a query is built from a
    filter with [sort], [skip] and [limit] and run with [exec]. *)

Inductive Value : Type :=
| VNull
| VNum (z : Z)
| VStr (s : string)
| VOid (s : string)
| VBool (b : bool)
| VDate (t : Z).

Definition ofText (v : option string) : Value :=
  match v with Some s => VStr s | None => VNull end.

Definition ofDate (v : option Z) : Value :=
  match v with Some t => VDate t | None => VNull end.

(** The stored value at a path; virtuals and unknown paths are not
    stored. *)
Definition getPath (path : string) (s : Student) : Value :=
  match path with
  | "_id" => VOid (_id s)
  | "name" => ofText (name s)
  | "email" => ofText (email s)
  | "phone" => ofText (phone s)
  | "address" => ofText (address s)
  | "course" => ofText (course s)
  | "batchTime" => ofText (batchTime s)
  | "feeAmount" => match feeAmount s with Some z => VNum z | None => VNull end
  | "feeStatus" => VStr (feeStatus s)
  | "joinDate" => VDate (joinDate s)
  | "guardianName" => ofText (guardianName s)
  | "guardianPhone" => ofText (guardianPhone s)
  | "notes" => ofText (notes s)
  | "isActive" => VBool (isActive s)
  | "lastFeePayment" => ofDate (lastFeePayment s)
  | "nextFeePayment" => ofDate (nextFeePayment s)
  | "createdAt" => ofDate (createdAt s)
  | "updatedAt" => ofDate (updatedAt s)
  | _ => VNull
  end.

(** The order of the store across types, then within a type. *)
Definition rank (v : Value) : Z :=
  match v with
  | VNull => 0 | VNum _ => 1 | VStr _ => 2 | VOid _ => 3 | VBool _ => 4 | VDate _ => 5
  end.

Definition compareValue (a b : Value) : comparison :=
  match a, b with
  | VNum x, VNum y => Z.compare x y
  | VStr x, VStr y => String.compare x y
  | VOid x, VOid y => String.compare x y
  | VBool x, VBool y =>
      match x, y with
      | false, true => Lt
      | true, false => Gt
      | _, _ => Eq
      end
  | VDate x, VDate y => Z.compare x y
  | _, _ => Z.compare (rank a) (rank b)
  end.

Definition value_eqb (a b : Value) : bool :=
  match a, b with
  | VNull, VNull => true
  | VNum x, VNum y => x =? y
  | VStr x, VStr y => String.eqb x y
  | VOid x, VOid y => String.eqb x y
  | VBool x, VBool y => Bool.eqb x y
  | VDate x, VDate y => x =? y
  | _, _ => false
  end.

(** [$lt] compares values of one type only. *)
Definition value_ltb (a b : Value) : bool :=
  (rank a =? rank b)
  && match compareValue a b with Lt => true | _ => false end.

(** The cast of a query value at a path: the setters of the path. *)
Definition castQuery (path : string) (v : Value) : Value :=
  match v with
  | VStr x =>
      match path with
      | "email" => VStr (toLowerCase (trim x))
      | "name" | "phone" | "address" | "course" | "batchTime"
      | "guardianName" | "guardianPhone" | "notes" => VStr (trim x)
      | _ => v
      end
  | _ => v
  end.

Inductive Cond : Type :=
| Is (path : string) (v : Value)            (* { path: v } *)
| LessThan (path : string) (v : Value)      (* { path: { $lt: v } } *)
| RegexI (path : string) (pattern : string) (* { path: { $regex: pattern, $options: "i" } } *)
| And (cs : list Cond)                      (* { $and: [...] }, or several keys *)
| Or (cs : list Cond).                      (* { $or: [...] } *)

(** The regular-expression syntax of a search term that is modelled:
    ordinary characters, which stand for themselves, and the dot, which
    stands for any character but a line feed. A term with any other
    metacharacter is outside the fragment. *)
Definition metachars : string := "\^$|?*+()[]{}".

Fixpoint parsePattern (pattern : string) : option re :=
  match pattern with
  | EmptyString => Some Eps
  | String c rest =>
      if Validator.char_in metachars c then None
      else
        match parsePattern rest with
        | None => None
        | Some r =>
            Some (Cat (if Ascii.eqb c "."
                       then Chr (fun x => negb (Ascii.eqb x "010"))
                       else Chr (fun x => Ascii.eqb (lower_char x) (lower_char c))) r)
        end
  end.

Definition regexTest (pattern : string) (v : Value) : bool :=
  match parsePattern pattern, v with
  | Some r, VStr subject => test_anywhere r subject
  | _, _ => false
  end.

Fixpoint supported (c : Cond) : bool :=
  match c with
  | RegexI _ pattern => isSome (parsePattern pattern)
  | And cs | Or cs =>
      (fix all (l : list Cond) : bool :=
         match l with [] => true | x :: t => supported x && all t end) cs
  | _ => true
  end.

Fixpoint eval (c : Cond) (s : Student) : bool :=
  match c with
  | Is path v => value_eqb (getPath path s) (castQuery path v)
  | LessThan path v => value_ltb (getPath path s) v
  | RegexI path pattern => regexTest pattern (getPath path s)
  | And cs =>
      (fix all (l : list Cond) : bool :=
         match l with [] => true | x :: t => eval x s && all t end) cs
  | Or cs =>
      (fix any (l : list Cond) : bool :=
         match l with [] => false | x :: t => eval x s || any t end) cs
  end.

Record Query : Type := mkQuery {
  conditions : Cond;
  sortSpec : option (string * Z);
  skipValue : option JSNum.t;
  limitValue : option JSNum.t
}.

(** [Student.find(filter)] *)
Definition find_ (filter : Cond) : Query := mkQuery filter None None None.

(** [query.sort({ [path]: direction })] *)
Definition sort (path : string) (direction : Z) (q : Query) : Query :=
  mkQuery (conditions q) (Some (path, direction)) (skipValue q) (limitValue q).

Definition skip (n : JSNum.t) (q : Query) : Query :=
  mkQuery (conditions q) (sortSpec q) (Some n) (limitValue q).

Definition limit (n : JSNum.t) (q : Query) : Query :=
  mkQuery (conditions q) (sortSpec q) (skipValue q) (Some n).

(** Does [a] go before [b], or tie with it, under the sort? *)
Definition precedes (spec : string * Z) (a b : Student) : bool :=
  let c := compareValue (getPath (fst spec) a) (getPath (fst spec) b) in
  match (if 0 <=? snd spec then c else CompOpp c) with
  | Gt => false
  | _ => true
  end.

Fixpoint insertSorted (spec : string * Z) (x : Student) (l : list Student) : list Student :=
  match l with
  | [] => [x]
  | y :: t => if precedes spec x y then x :: l else y :: insertSorted spec x t
  end.

(** The sort of the store; documents that tie keep their order. *)
Definition sorted (spec : option (string * Z)) (l : list Student) : list Student :=
  match spec with
  | None => l
  | Some sp => fold_right (insertSorted sp) [] l
  end.

(** The number of documents to skip: the store refuses a negative skip
    and a skip that is not a number. *)
Definition skipCount (n : option JSNum.t) : Result nat :=
  match n with
  | None => inr O
  | Some JSNum.NegZero => inr O
  | Some (JSNum.Num z) =>
      if z <? 0 then inl (ServerError "Skip value must be non-negative")
      else inr (Z.to_nat z)
  | Some _ => inl (ServerError "Skip value must be a number")
  end.

(** The number of documents to return: [0] stands for no limit, and a
    negative limit for its absolute value. *)
Definition limitCount (n : option JSNum.t) : Result (option nat) :=
  match n with
  | None => inr None
  | Some JSNum.NegZero => inr None
  | Some (JSNum.Num z) => if z =? 0 then inr None else inr (Some (Z.to_nat (Z.abs z)))
  | Some _ => inl (ServerError "Limit value must be a number")
  end.

Definition select (c : Cond) (db : Collection) : list Student := filter (eval c) db.

(** [query.exec()], or awaiting the query *)
Definition exec (q : Query) (db : Collection) : Result (list Student) :=
  match skipCount (skipValue q), limitCount (limitValue q) with
  | inl e, _ => inl e
  | _, inl e => inl e
  | inr sk, inr lim =>
      let rows := skipn sk (sorted (sortSpec q) (select (conditions q) db)) in
      inr (match lim with Some n => firstn n rows | None => rows end)
  end.

(** [Student.countDocuments(filter)] and [query.countDocuments()] *)
Definition countDocuments (c : Cond) (db : Collection) : Z :=
  Z.of_nat (List.length (select c db)).

(** Static method to find students by course *)
Definition findByCourse (course : string) : Query :=
  find_ (And [Is "course" (VStr course); Is "isActive" (VBool true)]).

(** Static method to find students by fee status *)
Definition findByFeeStatus (status : string) : Query :=
  find_ (And [Is "feeStatus" (VStr status); Is "isActive" (VBool true)]).

(** Static method to search students *)
Definition searchStudents (searchTerm : string) : Query :=
  find_ (And [ Is "isActive" (VBool true);
               Or [ RegexI "name" searchTerm;
                    RegexI "email" searchTerm;
                    RegexI "course" searchTerm;
                    RegexI "phone" searchTerm ] ]).

(** Static method to get students with overdue fees *)
Definition getOverdueStudents (env : Env) : Query :=
  let today := now env in
  find_ (And [ Is "isActive" (VBool true);
               Or [ Is "feeStatus" (VStr "overdue");
                    And [ Is "feeStatus" (VStr "pending");
                          LessThan "nextFeePayment" (VDate today) ] ] ]).

End StudentModel.

(* ================================================================== *)
(** ** The student routes ([routes/students.js]) *)

Module Routes.

Import Text Regex StudentModel.

Local Open Scope list_scope.

(** The JSON envelope of every response. *)
Record Pagination : Type := mkPagination {
  currentPage : JSNum.t;
  totalPages : JSNum.t;
  totalStudents : Z;
  studentsPerPage : JSNum.t;
  hasNextPage : option bool;
  hasPrevPage : option bool
}.

Inductive Data : Type :=
| NoData
| OneStudent (student : option Student)
| Page (students : list Student) (pagination : Pagination).

Record Response : Type := mkResponse {
  status : Z;
  success : bool;
  message : string;
  data : Data;
  error : option string;
  errors : list (string * string)
}.

Definition ok (st : Z) (msg : string) (d : Data) : Response :=
  mkResponse st true msg d None [].

Definition failure (st : Z) (msg : string) : Response :=
  mkResponse st false msg NoData None [].

Definition internalError (msg : string) (e : StoreError) : Response :=
  mkResponse 500 false msg NoData (Some (errorMessage e)) [].

(** *** Validation middleware *)

Definition FieldErrors : Type := list (string * string).

Definition check (path msg : string) (passes : bool) : FieldErrors :=
  if passes then [] else [(path, msg)].

(** [toString] of a field before a standard validator runs. *)
Definition text (v : option string) : string := orElse v "".

(** A JSON number prints as plain digits below 10^21. *)
Definition isNumeric (v : option Z) : bool :=
  match v with
  | Some z => Z.abs z <? 10 ^ 21
  | None => false
  end.

Definition feeAmountCustom (v : option Z) : FieldErrors :=
  match v with
  | Some value =>
      if value <? 0 then [("feeAmount", "Fee amount cannot be negative")]
      else if 50000 <? value then [("feeAmount", "Fee amount cannot exceed ₹50,000")]
      else []
  | None => []
  end.

Definition normalized (str : string) : EmailValue :=
  match Validator.normalizeEmail str with
  | Some s => EStr s
  | None => EFalse
  end.

(** A chain that starts with [optional()] does nothing on an absent
    field. *)
Definition optional {A} (v : option A) (errs : FieldErrors) : FieldErrors :=
  match v with Some _ => errs | None => [] end.

(** [validateStudent]: the errors of the chains, in order, and the body
    as the sanitizers leave it. *)
Definition validateStudent (b : Body) : FieldErrors * Body :=
  let name' := trim (text (b_name b)) in
  let email' := text (option_map emailText (b_email b)) in
  let address' := trim (text (b_address b)) in
  let batchTime' := trim (text (b_batchTime b)) in
  let guardianName' := trim (text (b_guardianName b)) in
  ( check "name" "Name is required" (negb (is_empty name'))
    ++ check "name" "Name must be between 2 and 100 characters"
         ((2 <=? len name') && (len name' <=? 100))
    ++ check "email" "Please enter a valid email address" (Validator.isEmail email')
    ++ check "phone" "Please enter a valid phone number"
         (test_anchored phonePattern (text (b_phone b)))
    ++ check "address" "Address is required" (negb (is_empty address'))
    ++ check "address" "Address cannot exceed 500 characters" (len address' <=? 500)
    ++ check "course" "Course is required" (negb (is_empty (text (b_course b))))
    ++ check "batchTime" "Batch time is required" (negb (is_empty batchTime'))
    ++ check "feeAmount" "Fee amount must be a number" (isNumeric (b_feeAmount b))
    ++ feeAmountCustom (b_feeAmount b)
    ++ optional (b_feeStatus b)
         (check "feeStatus" "Fee status must be paid, pending, or overdue"
            (Validator.isIn ["paid"; "pending"; "overdue"] (text (b_feeStatus b))))
    ++ check "guardianName" "Guardian name is required" (negb (is_empty guardianName'))
    ++ check "guardianName" "Guardian name cannot exceed 100 characters"
         (len guardianName' <=? 100)
    ++ check "guardianPhone" "Please enter a valid guardian phone number"
         (test_anchored phonePattern (text (b_guardianPhone b)))
    ++ optional (b_notes b)
         (check "notes" "Notes cannot exceed 1000 characters" (len (text (b_notes b)) <=? 1000)),
    {| b_name := Some name';
       b_email := Some (normalized email');
       b_phone := b_phone b;
       b_address := Some address';
       b_course := b_course b;
       b_batchTime := Some batchTime';
       b_feeAmount := b_feeAmount b;
       b_feeStatus := b_feeStatus b;
       b_joinDate := b_joinDate b;
       b_guardianName := Some guardianName';
       b_guardianPhone := b_guardianPhone b;
       b_notes := b_notes b;
       b_isActive := b_isActive b;
       b_lastFeePayment := b_lastFeePayment b;
       b_nextFeePayment := b_nextFeePayment b |} ).

(** [validateStudentUpdate]: every chain is optional. *)
Definition validateStudentUpdate (b : Body) : FieldErrors * Body :=
  let name' := option_map trim (b_name b) in
  let email' := option_map emailText (b_email b) in
  let address' := option_map trim (b_address b) in
  let batchTime' := option_map trim (b_batchTime b) in
  let guardianName' := option_map trim (b_guardianName b) in
  ( optional name'
      (check "name" "Name cannot be empty" (negb (is_empty (text name')))
       ++ check "name" "Name must be between 2 and 100 characters"
            ((2 <=? len (text name')) && (len (text name') <=? 100)))
    ++ optional email'
         (check "email" "Please enter a valid email address" (Validator.isEmail (text email')))
    ++ optional (b_phone b)
         (check "phone" "Please enter a valid phone number"
            (test_anchored phonePattern (text (b_phone b))))
    ++ optional address'
         (check "address" "Address cannot be empty" (negb (is_empty (text address')))
          ++ check "address" "Address cannot exceed 500 characters"
               (len (text address') <=? 500))
    ++ optional (b_course b)
         (check "course" "Course cannot be empty" (negb (is_empty (text (b_course b)))))
    ++ optional batchTime'
         (check "batchTime" "Batch time cannot be empty" (negb (is_empty (text batchTime'))))
    ++ optional (b_feeAmount b)
         (check "feeAmount" "Fee amount must be a number" (isNumeric (b_feeAmount b))
          ++ feeAmountCustom (b_feeAmount b))
    ++ optional (b_feeStatus b)
         (check "feeStatus" "Fee status must be paid, pending, or overdue"
            (Validator.isIn ["paid"; "pending"; "overdue"] (text (b_feeStatus b))))
    ++ optional guardianName'
         (check "guardianName" "Guardian name cannot be empty"
            (negb (is_empty (text guardianName')))
          ++ check "guardianName" "Guardian name cannot exceed 100 characters"
               (len (text guardianName') <=? 100))
    ++ optional (b_guardianPhone b)
         (check "guardianPhone" "Please enter a valid guardian phone number"
            (test_anchored phonePattern (text (b_guardianPhone b))))
    ++ optional (b_notes b)
         (check "notes" "Notes cannot exceed 1000 characters" (len (text (b_notes b)) <=? 1000)),
    {| b_name := name';
       b_email := option_map normalized email';
       b_phone := b_phone b;
       b_address := address';
       b_course := b_course b;
       b_batchTime := batchTime';
       b_feeAmount := b_feeAmount b;
       b_feeStatus := b_feeStatus b;
       b_joinDate := b_joinDate b;
       b_guardianName := guardianName';
       b_guardianPhone := b_guardianPhone b;
       b_notes := b_notes b;
       b_isActive := b_isActive b;
       b_lastFeePayment := b_lastFeePayment b;
       b_nextFeePayment := b_nextFeePayment b |} ).

Definition validateObjectId (id : string) : FieldErrors :=
  check "id" "Invalid student ID format" (Validator.isMongoId id).

(** Error handling middleware: [Some] response stops the request. *)
Definition handleValidationErrors (errs : FieldErrors) : option Response :=
  match errs with
  | [] => None
  | _ :: _ => Some (mkResponse 400 false "Validation failed" NoData None errs)
  end.

Definition emailExists : Response :=
  failure 409 "Student with this email already exists".

Definition notFound : Response := failure 404 "Student not found".

(** *** Route handlers *)

(** The query string of [GET /]. *)
Record ListQuery : Type := mkListQuery {
  q_page : option string;
  q_limit : option string;
  q_course : option string;
  q_feeStatus : option string;
  q_search : option string;
  q_sortBy : option string;
  q_sortOrder : option string;
  q_isActive : option string
}.

(** A string in a condition: [undefined] and the empty string are falsy. *)
Definition truthy (v : option string) : bool :=
  match v with Some s => negb (is_empty s) | None => false end.

(** The filter object of [GET /]. *)
Definition listFilter (q : ListQuery) : Cond :=
  let isActive := orElse (q_isActive q) "true" in
  And ((if negb (String.eqb isActive "all")
        then [Is "isActive" (VBool (String.eqb isActive "true"))] else [])
       ++ (if truthy (q_course q) then [Is "course" (VStr (text (q_course q)))] else [])
       ++ (if truthy (q_feeStatus q) then [Is "feeStatus" (VStr (text (q_feeStatus q)))] else [])).

(** The query [GET /] runs, before pagination. *)
Definition listQuery (q : ListQuery) : Query :=
  let sortBy := orElse (q_sortBy q) "createdAt" in
  let sortOrder := orElse (q_sortOrder q) "desc" in
  (* Handle search *)
  let query := find_ (listFilter q) in
  let query := if truthy (q_search q) then searchStudents (text (q_search q)) else query in
  (* Apply sorting *)
  sort sortBy (if String.eqb sortOrder "asc" then 1 else -1) query.

(** GET /api/students - Get all students with pagination and filtering.
    [None]: the search term is outside the modelled fragment of
    regular-expression syntax. *)
Definition getStudents (q : ListQuery) (db : Collection) : option Response :=
  let filter := listFilter q in
  let query := listQuery q in
  (* Apply pagination *)
  let pageNum := JSNum.parseInt (orElse (q_page q) "1") in
  let limitNum := JSNum.parseInt (orElse (q_limit q) "10") in
  let skip_ := JSNum.mul (JSNum.pred pageNum) limitNum in
  let query := limit limitNum (skip skip_ query) in
  if negb (supported (conditions query)) then None else
  Some
    (* Execute query *)
    match exec query db with
    | inl e => internalError "Failed to retrieve students" e
    | inr students =>
        let total := countDocuments filter db in
        ok 200 "Students retrieved successfully"
          (Page students
             {| currentPage := pageNum;
                totalPages := JSNum.ceil_div total limitNum;
                totalStudents := total;
                studentsPerPage := limitNum;
                hasNextPage := Some (JSNum.lt pageNum (JSNum.ceil_div total limitNum));
                hasPrevPage := Some (JSNum.lt (JSNum.Num 1) pageNum) |})
    end.

(** GET /api/students/:id - Get a specific student by ID *)
Definition getStudent (id : string) (db : Collection) : Response :=
  match handleValidationErrors (validateObjectId id) with
  | Some rejected => rejected
  | None =>
      match findById id db with
      | inl e => internalError "Failed to retrieve student" e
      | inr None => notFound
      | inr (Some student) => ok 200 "Student retrieved successfully" (OneStudent (Some student))
      end
  end.

(** The [catch] of the create and update handlers. *)
Definition onWriteError (msg : string) (e : StoreError) : Response :=
  match code e with
  | Some 11000 => emailExists
  | _ => internalError msg e
  end.

(** POST /api/students - Create a new student.
    The handler awaits the store twice: [insertStudent] is what it does
    once the lookup by email has come back empty. *)
Definition insertStudent (env : Env) (studentData : Body) (db : Collection)
  : Collection * Response :=
  let student := construct env studentData in
  match save env student db with
  | (db', inr saved) =>
      (db', ok 201 "Student created successfully" (OneStudent (Some (fields saved))))
  | (db', inl e) => (db', onWriteError "Failed to create student" e)
  end.

Definition createStudent (env : Env) (body : Body) (db : Collection)
  : Collection * Response :=
  let (errs, studentData) := validateStudent body in
  match handleValidationErrors errs with
  | Some rejected => (db, rejected)
  | None =>
      (* Check if student with email already exists *)
      match findOneByEmail (b_email studentData) db with
      | Some existingStudent => (db, emailExists)
      | None => insertStudent env studentData db
      end
  end.

(** The document [insertStudent] hands to the store. *)
Definition pending (env : Env) (studentData : Body) : Student :=
  fields (pre_save env (stamp env (construct env studentData))).

(** Two create requests in flight at once. Each is at one of three
    stages, and a step of a request is the part of the handler up to its
    next await: the validation and the lookup, then the save. *)
Inductive Stage : Type :=
| Arrived (body : Body)
| Checked (studentData : Body)
| Answered (r : Response).

Definition step (env : Env) (st : Stage) (db : Collection) : Collection * Stage :=
  match st with
  | Arrived body =>
      let (errs, studentData) := validateStudent body in
      match handleValidationErrors errs with
      | Some rejected => (db, Answered rejected)
      | None =>
          match findOneByEmail (b_email studentData) db with
          | Some existingStudent => (db, Answered emailExists)
          | None => (db, Checked studentData)
          end
      end
  | Checked studentData =>
      let (db', r) := insertStudent env studentData db in (db', Answered r)
  | Answered r => (db, Answered r)
  end.

(** A schedule says which request moves next: [true] the first,
    [false] the second. *)
Fixpoint interleave (envA envB : Env) (schedule : list bool)
    (a b : Stage) (db : Collection) : Collection * Stage * Stage :=
  match schedule with
  | [] => (db, a, b)
  | true :: rest =>
      let (db', a') := step envA a db in interleave envA envB rest a' b db'
  | false :: rest =>
      let (db', b') := step envB b db in interleave envA envB rest a b' db'
  end.

(** The six ways two requests of two steps each can interleave. *)
Definition schedules : list (list bool) :=
  [ [true; true; false; false]; [true; false; true; false];
    [true; false; false; true]; [false; true; true; false];
    [false; true; false; true]; [false; false; true; true] ].

Definition answer (st : Stage) : option Z :=
  match st with
  | Answered r => Some (status r)
  | _ => None
  end.

(** [updateData.email && updateData.email !== student.email] *)
Definition emailChanges (updateData : Body) (student : Student) : bool :=
  match b_email updateData with
  | Some (EStr e) => negb (is_empty e) && negb (optS_eqb (Some e) (email student))
  | _ => false
  end.

(** PUT /api/students/:id - Update a student by ID *)
Definition updateStudent (env : Env) (id : string) (body : Body) (db : Collection)
  : Collection * Response :=
  let (errs, updateData) := validateStudentUpdate body in
  match handleValidationErrors (validateObjectId id ++ errs) with
  | Some rejected => (db, rejected)
  | None =>
      match findById id db with
      | inl e => (db, onWriteError "Failed to update student" e)
      | inr None => (db, notFound)
      | inr (Some student) =>
          (* Check if email is being updated and if it already exists *)
          if emailChanges updateData student
             && isSome (findOneByEmail (b_email updateData) db)
          then (db, emailExists)
          else
            match findByIdAndUpdate env id updateData db with
            | (db', inr updatedStudent) =>
                (db', ok 200 "Student updated successfully" (OneStudent updatedStudent))
            | (db', inl e) => (db', onWriteError "Failed to update student" e)
            end
      end
  end.

(** DELETE /api/students/:id - Delete a student by ID *)
Definition deleteStudent (id : string) (db : Collection) : Collection * Response :=
  match handleValidationErrors (validateObjectId id) with
  | Some rejected => (db, rejected)
  | None =>
      match findById id db with
      | inl e => (db, internalError "Failed to delete student" e)
      | inr None => (db, notFound)
      | inr (Some student) =>
          match findByIdAndDelete id db with
          | (db', inr _) =>
              (db', ok 200 "Student deleted successfully" (OneStudent (Some student)))
          | (db', inl e) => (db', internalError "Failed to delete student" e)
          end
      end
  end.

(** The two routes that load a document, call one of its methods and
    answer with the document. *)
Definition withStudent (id : string) (db : Collection)
    (method : Document -> Collection -> Collection * Result Document)
    (done failed : string) : Collection * Response :=
  match handleValidationErrors (validateObjectId id) with
  | Some rejected => (db, rejected)
  | None =>
      match findById id db with
      | inl e => (db, internalError failed e)
      | inr None => (db, notFound)
      | inr (Some student) =>
          match method (hydrate student) db with
          | (db', inr saved) => (db', ok 200 done (OneStudent (Some (fields saved))))
          | (db', inl e) => (db', internalError failed e)
          end
      end
  end.

(** PUT /api/students/:id/deactivate - Deactivate a student *)
Definition deactivateStudent (env : Env) (id : string) (db : Collection)
  : Collection * Response :=
  withStudent id db (deactivate env)
    "Student deactivated successfully" "Failed to deactivate student".

(** PUT /api/students/:id/fee-paid - Mark student fee as paid *)
Definition markStudentFeePaid (env : Env) (id : string) (db : Collection)
  : Collection * Response :=
  withStudent id db (markFeePaid env)
    "Student fee marked as paid successfully" "Failed to update fee status".

(** The four routes that page through a query helper: the helper with
    [limit], [skip] and [sort], and the count of the helper's filter. *)
Definition pagedHelper (helper : Query) (sortPath : string) (direction : Z)
    (page limit_ : option string) (done failed : string) (db : Collection)
  : option Response :=
  let limitNum := JSNum.parseInt (orElse limit_ "10") in
  let pageNum := JSNum.parseInt (orElse page "1") in
  let query :=
    sort sortPath direction
      (skip (JSNum.mul (JSNum.pred pageNum) limitNum) (limit limitNum helper)) in
  if negb (supported (conditions query)) then None else
  Some
    match exec query db with
    | inl e => internalError failed e
    | inr students =>
        let total := countDocuments (conditions helper) db in
        ok 200 done
          (Page students
             {| currentPage := pageNum;
                totalPages := JSNum.ceil_div total limitNum;
                totalStudents := total;
                studentsPerPage := limitNum;
                hasNextPage := None;
                hasPrevPage := None |})
    end.

(** GET /api/students/search/:term - Search students *)
Definition searchRoute (term : string) (page limit_ : option string) (db : Collection)
  : option Response :=
  pagedHelper (searchStudents term) "createdAt" (-1) page limit_
    ("Search results for " ++ quoted term)%string "Failed to search students" db.

(** GET /api/students/course/:course - Get students by course *)
Definition courseRoute (course : string) (page limit_ : option string) (db : Collection)
  : option Response :=
  pagedHelper (findByCourse course) "createdAt" (-1) page limit_
    ("Students enrolled in " ++ course)%string "Failed to retrieve students by course" db.

(** GET /api/students/fees/status/:status - Get students by fee status *)
Definition feeStatusRoute (status : string) (page limit_ : option string) (db : Collection)
  : option Response :=
  if negb (string_mem status ["paid"; "pending"; "overdue"])
  then Some (failure 400 "Invalid fee status. Must be paid, pending, or overdue")
  else
    pagedHelper (findByFeeStatus status) "createdAt" (-1) page limit_
      ("Students with " ++ status ++ " fee status")%string
      "Failed to retrieve students by fee status" db.

(** GET /api/students/fees/overdue - Get students with overdue fees *)
Definition overdueRoute (env : Env) (page limit_ : option string) (db : Collection)
  : option Response :=
  pagedHelper (getOverdueStudents env) "nextFeePayment" 1 page limit_
    "Students with overdue fees" "Failed to retrieve overdue students" db.

End Routes.

(* ================================================================== *)
(** ** Requests and collections used as examples *)

Module Examples.

Import StudentModel Routes.

(** 2024-10-27T03:33:20Z, in a server that runs on UTC. *)
Definition envA : Env := mkEnv 1730000000000 (JSDate.fixedZone 0) "65a000000000000000000001".
Definition envB : Env := mkEnv 1730000100000 (JSDate.fixedZone 0) "65a000000000000000000002".

(** New York in 2024: five hours behind UTC until the clocks go forward
    at 2024-03-10T07:00:00Z (02:00 local, the hour up to 03:00 being
    skipped), four hours behind from then until they go back at
    2024-11-03T06:00:00Z (02:00 local). *)
Definition newYork : JSDate.Zone :=
  fun t isUTC =>
    if isUTC
    then if (1710054000000 <=? t) && (t <? 1730613600000) then -14400000 else -18000000
    else if (1710039600000 <=? t) && (t <? 1730599200000) then -14400000 else -18000000.

Definition rahulId : string := "65a000000000000000000001".

(** 2024-01-15T00:00:00Z and one calendar month later. *)
Definition jan15 : Z := 1705276800000.
Definition feb15 : Z := 1707955200000.

Definition rahulBody : Body :=
  {| b_name := Some "Rahul Sharma";
     b_email := Some (EStr "Rahul.Sharma@email.com");
     b_phone := Some "+919876543210";
     b_address := Some "123 Main Street, Delhi";
     b_course := Some "Mathematics - Class 12";
     b_batchTime := Some "10:00 AM - 12:00 PM";
     b_feeAmount := Some 5000;
     b_feeStatus := None;
     b_joinDate := Some jan15;
     b_guardianName := Some "Mr. Suresh Sharma";
     b_guardianPhone := Some "+919876543211";
     b_notes := None;
     b_isActive := None;
     b_lastFeePayment := None;
     b_nextFeePayment := None |}.

Definition priyaBody : Body :=
  {| b_name := Some "Priya Patel";
     b_email := Some (EStr "priya.patel@email.com");
     b_phone := Some "+919876543212";
     b_address := Some "456 Park Avenue, Mumbai";
     b_course := Some "Physics - Class 11";
     b_batchTime := Some "2:00 PM - 4:00 PM";
     b_feeAmount := Some 4500;
     b_feeStatus := Some "pending";
     b_joinDate := Some 1706745600000;
     b_guardianName := Some "Mrs. Sita Patel";
     b_guardianPhone := Some "+919876543213";
     b_notes := None;
     b_isActive := None;
     b_lastFeePayment := None;
     b_nextFeePayment := None |}.

Definition with_b_feeStatus (v : string) (b : Body) : Body :=
  mkBody (b_name b) (b_email b) (b_phone b) (b_address b) (b_course b)
    (b_batchTime b) (b_feeAmount b) (Some v) (b_joinDate b) (b_guardianName b)
    (b_guardianPhone b) (b_notes b) (b_isActive b) (b_lastFeePayment b)
    (b_nextFeePayment b).

Definition with_b_course (v : string) (b : Body) : Body :=
  mkBody (b_name b) (b_email b) (b_phone b) (b_address b) (Some v)
    (b_batchTime b) (b_feeAmount b) (b_feeStatus b) (b_joinDate b) (b_guardianName b)
    (b_guardianPhone b) (b_notes b) (b_isActive b) (b_lastFeePayment b)
    (b_nextFeePayment b).

Definition with_b_feeAmount (v : Z) (b : Body) : Body :=
  mkBody (b_name b) (b_email b) (b_phone b) (b_address b) (b_course b)
    (b_batchTime b) (Some v) (b_feeStatus b) (b_joinDate b) (b_guardianName b)
    (b_guardianPhone b) (b_notes b) (b_isActive b) (b_lastFeePayment b)
    (b_nextFeePayment b).

Definition with_b_phone (v : string) (b : Body) : Body :=
  mkBody (b_name b) (b_email b) (Some v) (b_address b) (b_course b)
    (b_batchTime b) (b_feeAmount b) (b_feeStatus b) (b_joinDate b) (b_guardianName b)
    (b_guardianPhone b) (b_notes b) (b_isActive b) (b_lastFeePayment b)
    (b_nextFeePayment b).

Definition with_b_email (v : string) (b : Body) : Body :=
  mkBody (b_name b) (Some (EStr v)) (b_phone b) (b_address b) (b_course b)
    (b_batchTime b) (b_feeAmount b) (b_feeStatus b) (b_joinDate b) (b_guardianName b)
    (b_guardianPhone b) (b_notes b) (b_isActive b) (b_lastFeePayment b)
    (b_nextFeePayment b).

(** The bodies of two partial updates. *)
Definition setPaid : Body :=
  mkBody None None None None None None None (Some "paid") None None None None None None None.

Definition setLastFeePayment (t : Z) : Body :=
  mkBody None None None None None None None None None None None None None (Some t) None.

(** The document a create of [rahulBody] stores at [envA]. *)
Definition rahul : Student :=
  {| _id := rahulId;
     name := Some "Rahul Sharma";
     email := Some "rahul.sharma@email.com";
     phone := Some "+919876543210";
     address := Some "123 Main Street, Delhi";
     course := Some "Mathematics - Class 12";
     batchTime := Some "10:00 AM - 12:00 PM";
     feeAmount := Some 5000;
     feeStatus := "pending";
     joinDate := jan15;
     guardianName := Some "Mr. Suresh Sharma";
     guardianPhone := Some "+919876543211";
     notes := None;
     isActive := true;
     lastFeePayment := None;
     nextFeePayment := Some feb15;
     createdAt := Some 1730000000000;
     updatedAt := Some 1730000000000 |}.

(** The collection after [POST /] with [rahulBody], and after a second
    [POST /] with [priyaBody]. *)
Definition oneStudent : Collection := fst (createStudent envA rahulBody []).
Definition twoStudents : Collection := fst (createStudent envB priyaBody oneStudent).

(** Five active students of one course, told apart by their last digit. *)
Definition physicsStudent (n : string) : Student :=
  {| _id := "65b00000000000000000000" ++ n;
     name := Some ("Student " ++ n);
     email := Some ("student" ++ n ++ "@email.com");
     phone := Some ("+91987654320" ++ n);
     address := Some "12 School Road, Delhi";
     course := Some "Physics - Class 12";
     batchTime := Some "6:00 PM - 8:00 PM";
     feeAmount := Some 5200;
     feeStatus := "pending";
     joinDate := jan15;
     guardianName := Some "Guardian";
     guardianPhone := Some "+919876543219";
     notes := None;
     isActive := true;
     lastFeePayment := None;
     nextFeePayment := Some feb15;
     createdAt := Some 1730000000000;
     updatedAt := Some 1730000000000 |}.

Definition physicsClass : Collection := map physicsStudent ["1"; "2"; "3"; "4"; "5"].



Definition searching (term : string) : ListQuery :=
  mkListQuery None None None None (Some term) None None None.

(** The records of a list response. *)
Definition records (r : option Response) : list Student :=
  match r with
  | Some {| data := Page students _ |} => students
  | _ => []
  end.

Definition pagination (r : option Response) : option Pagination :=
  match r with
  | Some {| data := Page _ p |} => Some p
  | _ => None
  end.

Definition total (r : option Response) : option Z :=
  match r with
  | Some {| data := Page _ p |} => Some (totalStudents p)
  | _ => None
  end.

End Examples.

(* ================================================================== *)
(** ** The properties, in the words of the specification *)

Module Spec.

Import Text StudentModel Routes.

(** "feeStatus = paid implies lastFeePayment is set" *)
Definition paidHasPayment (s : Student) : Prop :=
  feeStatus s = "paid" -> lastFeePayment s <> None.

(** "nextFeePayment = one calendar month after lastFeePayment if set,
    else one month after joinDate" *)
Definition nextPaymentDerived (env : Env) (s : Student) : Prop :=
  nextFeePayment s =
  Some (JSDate.addOneMonth (LocalTZA env) (orElse (lastFeePayment s) (joinDate s))).

(** "substring search over name, email, course, phone
    (case-insensitive), restricted to isActive=true, matching if the
    term appears in ANY of the four fields" *)
Definition contains (term : string) (v : option string) : bool :=
  match v with Some x => ci_substring term x | None => false end.

Definition substringHit (term : string) (s : Student) : bool :=
  isActive s
  && (contains term (name s) || contains term (email s)
      || contains term (course s) || contains term (phone s)).

(** The same with the term read as the store reads it, as a
    case-insensitive regular expression. *)
Definition regexHit (term : string) (s : Student) : bool :=
  isActive s
  && (regexTest term (ofText (name s)) || regexTest term (ofText (email s))
      || regexTest term (ofText (course s)) || regexTest term (ofText (phone s))).

(** A term made of ordinary characters only. *)
Definition ordinary (term : string) : bool :=
  forallb_string (fun c => negb (Validator.char_in metachars c) && negb (Ascii.eqb c "."))
    term.

(** "isActive=true AND (feeStatus=overdue OR (feeStatus=pending AND
    nextFeePayment < now))" *)
Definition overdue (env : Env) (s : Student) : Prop :=
  isActive s = true
  /\ (feeStatus s = "overdue"
      \/ (feeStatus s = "pending"
          /\ exists due, nextFeePayment s = Some due /\ due < now env)).

(** The request of [GET /] with other course, feeStatus and isActive
    parameters. *)
Definition withFilters (c f a : option string) (q : ListQuery) : ListQuery :=
  mkListQuery (q_page q) (q_limit q) c f (q_search q) (q_sortBy q) (q_sortOrder q) a.

(** The rows a query returns once sorted, before [skip] and [limit]. *)
Definition page (sk : nat) (lim : option nat) (rows : list Student) : list Student :=
  match lim with
  | Some n => firstn n (skipn sk rows)
  | None => skipn sk rows
  end.

End Spec.

(* ================================================================== *)
(** ** The virtuals of the schema ([models/Student.js]) *)

Module Virtuals.

Import Text StudentModel.

(** A getter returns a value or throws (a method called on
    [undefined]). *)
Inductive Outcome (A : Type) : Type :=
| Throws
| Returns (a : A).

Arguments Throws {A}.
Arguments Returns {A} a.

(** Is [p] the start of [s]? *)
Fixpoint starts (p s : string) : bool :=
  match p, s with
  | EmptyString, _ => true
  | String a p', String b s' => Ascii.eqb a b && starts p' s'
  | String _ _, EmptyString => false
  end.

(** [s.split(sep)] for a separator of at least one character; [skip]
    counts the characters of a separator still to pass over, and [cur]
    holds the piece being read, backwards. *)
Fixpoint splitBy (sep : string) (s : string) (skip : nat) (cur : string) : list string :=
  match s with
  | EmptyString => [rev_string cur ""]
  | String c t =>
      match skip with
      | S k => splitBy sep t k cur
      | O =>
          if starts sep s
          then rev_string cur "" :: splitBy sep t (String.length sep - 1) ""
          else splitBy sep t O (String c cur)
      end
  end.

(** A value in a template literal. *)
Definition shown (v : option string) : string := orElse v "undefined".

(** Virtual for student age (if we had birthDate) *)
Definition displayName (this : Student) : string :=
  shown (name this) ++ " (" ++ shown (course this) ++ ")".

(** Virtual for fee status badge color *)
Definition feeStatusColor (this : Student) : string :=
  if String.eqb (feeStatus this) "paid" then "green"
  else if String.eqb (feeStatus this) "pending" then "orange"
  else if String.eqb (feeStatus this) "overdue" then "red"
  else "gray".

(** Virtual for course subject *)
Definition subject (this : Student) : Outcome (option string) :=
  match course this with
  | None => Throws
  | Some c => Returns (nth_error (splitBy " - " c 0 "") 0)
  end.

(** Virtual for class level *)
Definition classLevel (this : Student) : Outcome (option string) :=
  match course this with
  | None => Throws
  | Some c => Returns (nth_error (splitBy " - " c 0 "") 1)
  end.

End Virtuals.

(* ================================================================== *)
(** ** The dashboard statistics ([getDashboardStats]) *)

Module Stats.

Import Text StudentModel.

Record DashboardStats : Type := mkStats {
  totalStudents : Z;
  paidFees : Z;
  pendingFees : Z;
  overdueFees : Z;
  totalRevenue : Z;
  courseDistribution : list (option string * Z)
}.

(** [{ feeStatus: status, isActive: true }] *)
Definition activeWith (status : string) : Cond :=
  And [Is "feeStatus" (VStr status); Is "isActive" (VBool true)].

(** [{ isActive: true }] *)
Definition active : Cond := And [Is "isActive" (VBool true)].

(** [{ $sum: "$feeAmount" }]: a document without the field adds nothing. *)
Definition sumFees (docs : list Student) : Z :=
  fold_right (fun s acc => orElse (feeAmount s) 0 + acc) 0 docs.

(** [{ $group: { _id: null, total: ... } }]: one group, and none when
    no document reaches the stage. *)
Definition groupAll (docs : list Student) : list Z :=
  match docs with
  | [] => []
  | _ :: _ => [sumFees docs]
  end.

(** [{ $group: { _id: "$course", count: { $sum: 1 } } }]: the groups in
    the order their courses first occur. *)
Fixpoint bump (key : option string) (groups : list (option string * Z))
  : list (option string * Z) :=
  match groups with
  | [] => [(key, 1)]
  | (k, n) :: rest =>
      if optS_eqb k key then (k, n + 1) :: rest else (k, n) :: bump key rest
  end.

Definition groupByCourse (docs : list Student) : list (option string * Z) :=
  fold_left (fun groups s => bump (course s) groups) docs [].

(** [{ $sort: { count: -1 } }]; groups that tie keep their order. *)
Fixpoint insertByCount (g : option string * Z) (l : list (option string * Z))
  : list (option string * Z) :=
  match l with
  | [] => [g]
  | h :: t => if snd h <=? snd g then g :: l else h :: insertByCount g t
  end.

Definition sortByCount (l : list (option string * Z)) : list (option string * Z) :=
  fold_right insertByCount [] l.

(** Static method to get dashboard statistics *)
Definition getDashboardStats (db : Collection) : DashboardStats :=
  let totalStudents := countDocuments active db in
  let paidFees := countDocuments (activeWith "paid") db in
  let pendingFees := countDocuments (activeWith "pending") db in
  let overdueFees := countDocuments (activeWith "overdue") db in
  let totalRevenue := groupAll (select (activeWith "paid") db) in
  let courseDistribution := sortByCount (groupByCourse (select active db)) in
  {| totalStudents := totalStudents;
     paidFees := paidFees;
     pendingFees := pendingFees;
     overdueFees := overdueFees;
     (* totalRevenue[0]?.total || 0 *)
     totalRevenue :=
       match totalRevenue with
       | total :: _ => if total =? 0 then 0 else total
       | [] => 0
       end;
     courseDistribution := courseDistribution |}.

End Stats.

(* ================================================================== *)
(** ** The sample data of the server ([server.js]) *)

Module Server.

Import Text StudentModel.

Definition sample (name email phone address course batchTime : string) (feeAmount : Z)
    (feeStatus : string) (joinDate : Z) (guardianName guardianPhone : string) : Body :=
  {| b_name := Some name;
     b_email := Some (EStr email);
     b_phone := Some phone;
     b_address := Some address;
     b_course := Some course;
     b_batchTime := Some batchTime;
     b_feeAmount := Some feeAmount;
     b_feeStatus := Some feeStatus;
     b_joinDate := Some joinDate;
     b_guardianName := Some guardianName;
     b_guardianPhone := Some guardianPhone;
     b_notes := None;
     b_isActive := None;
     b_lastFeePayment := None;
     b_nextFeePayment := None |}.

(** The join dates are [new Date("2024-01-15")] and the like: midnight
    UTC of the day. *)
Definition sampleStudents : list Body :=
  [ sample "Rahul Sharma" "rahul.sharma@email.com" "+91-9876543210"
      "123 Main Street, Delhi" "Mathematics - Class 12" "10:00 AM - 12:00 PM"
      5000 "paid" 1705276800000 "Mr. Suresh Sharma" "+91-9876543211";
    sample "Priya Patel" "priya.patel@email.com" "+91-9876543212"
      "456 Park Avenue, Mumbai" "Physics - Class 11" "2:00 PM - 4:00 PM"
      4500 "pending" 1706745600000 "Mrs. Sita Patel" "+91-9876543213";
    sample "Amit Kumar" "amit.kumar@email.com" "+91-9876543214"
      "789 Hill Road, Bangalore" "Chemistry - Class 12" "4:00 PM - 6:00 PM"
      5500 "paid" 1705708800000 "Mr. Raj Kumar" "+91-9876543215";
    sample "Sneha Gupta" "sneha.gupta@email.com" "+91-9876543216"
      "321 Lake View, Pune" "Mathematics - Class 11" "8:00 AM - 10:00 AM"
      4000 "overdue" 1710028800000 "Dr. Mohan Gupta" "+91-9876543217";
    sample "Karan Singh" "karan.singh@email.com" "+91-9876543218"
      "654 Garden Street, Chennai" "Physics - Class 12" "6:00 PM - 8:00 PM"
      5200 "paid" 1707955200000 "Mrs. Kavita Singh" "+91-9876543219" ].

(** The document [insertMany] builds for the [n]-th body: constructed
    with the [n]-th identifier of the driver and stamped. No save
    middleware runs. *)
Definition prepared (env : Env) (ids : nat -> string) (n : nat) (body : Body) : Document :=
  let env' := mkEnv (now env) (LocalTZA env) (ids n) in
  stamp env' (construct env' body).

(** The first validation error among the documents, if any. *)
Fixpoint firstInvalid (docs : list Document) : option (list (string * string)) :=
  match docs with
  | [] => None
  | d :: rest =>
      match validate true (fields d) with
      | [] => firstInvalid rest
      | (_ :: _) as errs => Some errs
      end
  end.

(** The ordered insert of the store: it stops at the first document
    that a unique index refuses. *)
Fixpoint insertOrdered (docs : list Student) (db : Collection)
  : Collection * Result (list Student) :=
  match docs with
  | [] => (db, inr [])
  | s :: rest =>
      if existsb (fun stored => collides s stored || sameId s stored) db
      then (db, inl DuplicateKey)
      else
        match insertOrdered rest (db ++ [s])%list with
        | (db', inr inserted) => (db', inr (s :: inserted))
        | (db', inl e) => (db', inl e)
        end
  end.

Fixpoint numbered {A} (n : nat) (l : list A) : list (nat * A) :=
  match l with
  | [] => []
  | x :: t => (n, x) :: numbered (S n) t
  end.

(** [Student.insertMany(docs)]: every document is validated first, and
    nothing is sent to the store when one of them fails. *)
Definition insertMany (env : Env) (ids : nat -> string) (docs : list Body) (db : Collection)
  : Collection * Result (list Student) :=
  let prepared_ := map (fun nb => prepared env ids (fst nb) (snd nb)) (numbered O docs) in
  match firstInvalid prepared_ with
  | Some errs => (db, inl (ValidationError "Student validation failed" errs))
  | None => insertOrdered (map fields prepared_) db
  end.

(** Initialize sample data: the collection after the call, which
    catches and logs every error. *)
Definition initializeSampleData (env : Env) (ids : nat -> string) (db : Collection)
  : Collection :=
  let studentCount := countDocuments (And []) db in
  if studentCount =? 0
  then fst (insertMany env ids sampleStudents db)
  else db.

End Server.

(* ================================================================== *)
(** ** Properties of the collection and of the routes, as predicates *)

Module Laws.

Import Text StudentModel Routes.

(** A document the schema accepts. *)
Definition valid (s : Student) : Prop := validate true s = [].

(** No two documents share an identifier, and none share an email. *)
Definition uniqueKeys (db : Collection) : Prop :=
  NoDup (map _id db)
  /\ forall a b, In a db -> In b db -> email a = email b -> _id a = _id b.

(** An identifier as the store prints it: 24 hexadecimal digits, the
    letters in lower case. *)
Definition canonical (id : string) : Prop :=
  Validator.isMongoId id = true /\ castObjectId id = inr id.


Definition noFields : Body :=
  mkBody None None None None None None None None None None None None None None None.

(** The request of [GET /] that filters by course, or by fee status,
    and leaves the rest to the defaults. *)
Definition byCourse (course : string) (page limit_ : option string) : ListQuery :=
  mkListQuery page limit_ (Some course) None None None None None.

Definition byFeeStatus (status : string) (page limit_ : option string) : ListQuery :=
  mkListQuery page limit_ None (Some status) None None None None.

(** The number of active documents enrolled in a course. *)
Definition enrolled (c : option string) (db : Collection) : Z :=
  Z.of_nat (List.length (filter (fun s => isActive s && optS_eqb (course s) c) db)).

(** The sum of the counts of a distribution. *)
Definition counted (groups : list (option string * Z)) : Z :=
  fold_right (fun g acc => snd g + acc) 0 groups.

(** The active documents whose fee is paid. *)
Definition paidActive (db : Collection) : list Student :=
  filter (fun s => String.eqb (feeStatus s) "paid" && isActive s) db.

(** The count a distribution holds for a course, over all its entries. *)
Definition weight (c : option string) (groups : list (option string * Z)) : Z :=
  fold_right (fun g acc => (if optS_eqb (fst g) c then snd g else 0) + acc) 0 groups.

End Laws.

(* ================================================================== *)
(** ** Lemmas on lists, documents and the store *)

(** Goals that are conjunctions of closed equations are settled by
    evaluation, one equation at a time. *)
Ltac conjuncts := cbv zeta; repeat match goal with |- _ /\ _ => split end.

Ltac evaluate :=
  conjuncts; try match goal with |- _ = _ => vm_compute; reflexivity end.

Section ListFacts.

Context {A : Type}.

Lemma In_firstn_elim (n : nat) (l : list A) (x : A) : In x (firstn n l) -> In x l.
Proof.
  revert l; induction n as [|n IH]; intros [|y l]; simpl; try tauto.
  intros [->|H]; [now left | right; now apply IH].
Qed.

Lemma In_skipn_elim (n : nat) (l : list A) (x : A) : In x (skipn n l) -> In x l.
Proof.
  revert l; induction n as [|n IH]; intros [|y l]; simpl; try tauto.
  intros H; right; now apply IH.
Qed.

Lemma skipn_beyond (n : nat) (l : list A) : (List.length l <= n)%nat -> skipn n l = [].
Proof.
  revert l; induction n as [|n IH]; intros [|y l]; simpl; intros H; try reflexivity.
  - inversion H.
  - apply IH; lia.
Qed.

Lemma firstn_whole (n : nat) (l : list A) : (List.length l <= n)%nat -> firstn n l = l.
Proof.
  revert l; induction n as [|n IH]; intros [|y l]; simpl; intros H; try reflexivity.
  - inversion H.
  - f_equal; apply IH; lia.
Qed.

End ListFacts.

(* ================================================================== *)
(** ** The matcher computes the textbook semantics *)

Module RegexFacts.

Import Text Regex.

Lemma append_nil_r (s : string) : (s ++ "")%string = s.
Proof. induction s as [|c s IH]; cbn [append]; [reflexivity | now rewrite IH]. Qed.

Lemma append_assoc (a b c : string) : ((a ++ b) ++ c)%string = (a ++ (b ++ c))%string.
Proof. induction a as [|x a IH]; cbn [append]; [reflexivity | now rewrite IH]. Qed.

Lemma length_append (a b : string) :
  String.length (a ++ b) = (String.length a + String.length b)%nat.
Proof. induction a as [|x a IH]; cbn [append String.length]; [reflexivity | now rewrite IH]. Qed.

Lemma member_In x xs : member x xs = true <-> In x xs.
Proof. unfold member. destruct (in_dec suffix_dec x xs); split; auto; discriminate. Qed.

Lemma fresh_In xs ys x : In x (fresh xs ys) <-> In x ys /\ ~ In x xs.
Proof.
  unfold fresh. rewrite nodup_In, filter_In, negb_true_iff.
  split; intros [H1 H2]; split; auto.
  - intros H. apply member_In in H. congruence.
  - destruct (member x xs) eqn:E; [|reflexivity]. apply member_In in E. contradiction.
Qed.

Lemma union_In xs ys x : In x (union xs ys) <-> In x xs \/ In x ys.
Proof.
  unfold union. rewrite in_app_iff, fresh_In. split.
  - intros [H|[H _]]; auto.
  - intros [H|H]; auto. destruct (in_dec suffix_dec x xs); auto.
Qed.

Lemma longest_bound ss s : In s ss -> (String.length s <= longest ss)%nat.
Proof.
  induction ss as [|y ss IH]; cbn [In longest fold_right]; [intros []|].
  intros [->|H]; [lia | specialize (IH H); unfold longest in IH; lia].
Qed.

Lemma longest_below ss k :
  ss <> [] -> (forall s, In s ss -> (String.length s < k)%nat) -> (longest ss < k)%nat.
Proof.
  induction ss as [|y ss IH]; [congruence|]. intros _ H.
  cbn [longest fold_right]. destruct ss as [|z ss].
  - cbn [fold_right]. specialize (H y (or_introl eq_refl)). lia.
  - assert (longest (z :: ss) < k)%nat
      by (apply IH; [discriminate | intros s Hs; apply H; now right]).
    specialize (H y (or_introl eq_refl)). unfold longest in *. lia.
Qed.

(** Matching a star, then the starred expression once more. *)
Lemma Matches_star_snoc a u v :
  Matches (Star a) u -> Matches a v -> Matches (Star a) (u ++ v).
Proof.
  intros Hu Hv. remember (Star a) as r eqn:Hr.
  induction Hu as [| | | | | a'|a' x y Hx _ Hy IH]; try discriminate;
    injection Hr as ->.
  - cbn [append]. rewrite <- (append_nil_r v). apply MStarCons; [exact Hv | apply MStarNil].
  - rewrite append_assoc. apply MStarCons; [exact Hx | now apply IH].
Qed.

Section Star.

(** One round follows the starred expression [a] exactly. *)
Variable a : re.
Variable step : list string -> list string.
Hypothesis step_spec :
  forall fr t, In t (step fr) <-> exists f w, In f fr /\ Matches a w /\ f = (w ++ t)%string.

Lemma rounds_grows fuel frontier seen x :
  In x seen -> In x (rounds step fuel frontier seen).
Proof.
  revert frontier seen; induction fuel as [|k IH]; intros frontier seen Hx; cbn [rounds];
    [exact Hx|].
  destruct (fresh seen (step frontier)) as [|n next]; [exact Hx|].
  apply IH. apply in_or_app; now left.
Qed.

Lemma rounds_sound (P : string -> Prop) fuel frontier seen :
  (forall x y, P x -> next_of a x y -> P y) ->
  (forall x, In x frontier -> P x) -> (forall x, In x seen -> P x) ->
  forall t, In t (rounds step fuel frontier seen) -> P t.
Proof.
  intros Hnext. revert frontier seen; induction fuel as [|k IH];
    intros frontier seen Hf Hs t; cbn [rounds]; [apply Hs|].
  destruct (fresh seen (step frontier)) as [|n next] eqn:Hfr; [apply Hs|].
  assert (Hn : forall x, In x (n :: next) -> P x).
  { intros x Hx. rewrite <- Hfr in Hx. apply fresh_In in Hx. destruct Hx as [Hx _].
    apply step_spec in Hx. destruct Hx as (f & w & Hin & Hw & ->).
    apply (Hnext (w ++ x)%string); [now apply Hf | exists w; auto]. }
  apply IH; [exact Hn|]. intros x Hx. apply in_app_or in Hx. destruct Hx; auto.
Qed.

(** The state of the loop: the frontier is part of what was seen, the
    rest of it has all its successors seen, and the fuel exceeds the
    length of every suffix of the frontier. *)
Lemma rounds_closed fuel frontier seen :
  incl frontier seen ->
  (forall x y, In x seen -> ~ In x frontier -> next_of a x y -> In y seen) ->
  (forall x, In x frontier -> (String.length x < fuel)%nat) ->
  closed a (rounds step fuel frontier seen).
Proof.
  revert frontier seen; induction fuel as [|k IH]; intros frontier seen Hsub Hdone Hlen;
    cbn [rounds].
  - intros x y Hx Hxy. apply (Hdone x y Hx); [|exact Hxy].
    intros Hf. specialize (Hlen x Hf). lia.
  - destruct (fresh seen (step frontier)) as [|n next] eqn:Hfr.
    + intros x y Hx Hxy. destruct (in_dec suffix_dec x frontier) as [Hf|Hf];
        [|now apply (Hdone x y)].
      destruct (in_dec suffix_dec y seen) as [Hy|Hy]; [exact Hy|]. exfalso.
      assert (In y (fresh seen (step frontier))).
      { apply fresh_In; split; [|exact Hy]. apply step_spec.
        destruct Hxy as (w & Hw & ->). exists (w ++ y)%string, w; auto. }
      rewrite Hfr in H. destruct H.
    + set (nx := n :: next) in *.
      assert (Hnx : forall y, In y nx <-> In y (step frontier) /\ ~ In y seen)
        by (intros y; rewrite <- Hfr; apply fresh_In).
      apply IH.
      * intros y Hy. apply in_or_app; now right.
      * intros x y Hx Hnot Hxy. apply in_app_or in Hx.
        destruct Hx as [Hx|Hx]; [|contradiction].
        destruct (in_dec suffix_dec x frontier) as [Hf|Hf].
        -- destruct (in_dec suffix_dec y seen) as [Hy|Hy];
             [apply in_or_app; now left|].
           apply in_or_app; right. apply Hnx; split; [|exact Hy].
           apply step_spec. destruct Hxy as (w & Hw & ->). exists (w ++ y)%string, w; auto.
        -- apply in_or_app; left. now apply (Hdone x y).
      * intros y Hy. apply Hnx in Hy. destruct Hy as [Hy Hnew].
        apply step_spec in Hy. destruct Hy as (f & w & Hf & Hw & ->).
        specialize (Hlen _ Hf). rewrite length_append in Hlen.
        destruct w as [|c w]; [|cbn [String.length] in Hlen; lia].
        exfalso. apply Hnew. cbn [append] in Hf. now apply Hsub.
Qed.

Lemma closed_star R x w t :
  closed a R -> In x R -> Matches (Star a) w -> x = (w ++ t)%string -> In t R.
Proof.
  intros HR Hx Hw. remember (Star a) as r eqn:Hr. revert x Hx t.
  induction Hw as [| | | | | a'|a' u v Hu _ Hv IH]; try discriminate;
    injection Hr as ->; intros x Hx t ->.
  - exact Hx.
  - apply (IH eq_refl (v ++ t)%string); [|reflexivity].
    apply (HR ((u ++ v) ++ t)%string); [exact Hx|]. exists u. split; [exact Hu|].
    apply append_assoc.
Qed.

Lemma star_spec ss t :
  In t (rounds step (S (longest ss)) ss ss)
  <-> exists s w, In s ss /\ Matches (Star a) w /\ s = (w ++ t)%string.
Proof.
  split.
  - apply (rounds_sound
             (fun t => exists s w, In s ss /\ Matches (Star a) w /\ s = (w ++ t)%string)).
    + intros x y (s & w & Hs & Hw & Hx) (v & Hv & Hy).
      exists s, (w ++ v)%string. split; [exact Hs|]. split;
        [now apply Matches_star_snoc | rewrite append_assoc, <- Hy; exact Hx].
    + intros x Hx. exists x, ""%string. split; [exact Hx|]. split; [apply MStarNil|reflexivity].
    + intros x Hx. exists x, ""%string. split; [exact Hx|]. split; [apply MStarNil|reflexivity].
  - intros (s & w & Hs & Hw & ->).
    apply (closed_star _ (w ++ t)%string w t); [|now apply rounds_grows|exact Hw|reflexivity].
    apply rounds_closed.
    + apply incl_refl.
    + intros x y Hx Hnot. contradiction.
    + intros x Hx. pose proof (longest_bound ss x Hx). lia.
Qed.

End Star.

(** The suffixes [run] returns are exactly what is left of a subject
    after a prefix that the expression matches. *)
Theorem run_spec r ss t :
  In t (run r ss) <-> exists s w, In s ss /\ Matches r w /\ s = (w ++ t)%string.
Proof.
  revert ss t; induction r as [|p|a IHa b IHb|a IHa b IHb|a IHa]; intros ss t; cbn [run].
  - split.
    + intros H. exists t, ""%string. split; [exact H|]. split; [apply MEps|reflexivity].
    + intros (s & w & Hs & Hw & ->). inversion Hw; subst. exact Hs.
  - rewrite nodup_In, in_flat_map. split.
    + intros (s & Hs & Ht). destruct s as [|c s]; [destruct Ht|]. cbn [eat] in Ht.
      destruct (p c) eqn:Hp; [|destruct Ht]. destruct Ht as [->|[]].
      exists (String c t), (String c ""). split; [exact Hs|].
      split; [now apply MChr | reflexivity].
    + intros (s & w & Hs & Hw & ->). inversion Hw as [|p' c Hp| | | | |]; subst.
      exists (String c t). split; [exact Hs|]. cbn [eat]. rewrite Hp. now left.
  - rewrite IHb. split.
    + intros (s' & w2 & Hs' & Hw2 & ->). apply IHa in Hs'.
      destruct Hs' as (s & w1 & Hs & Hw1 & Heq).
      exists s, (w1 ++ w2)%string. split; [exact Hs|]. split;
        [now apply MCat | rewrite append_assoc; exact Heq].
    + intros (s & w & Hs & Hw & ->). inversion Hw as [| |a' b' u v Hu Hv| | | |]; subst.
      exists (v ++ t)%string, v. split; [|split; [exact Hv|reflexivity]].
      apply IHa. exists ((u ++ v) ++ t)%string, u. split; [exact Hs|].
      split; [exact Hu | apply append_assoc].
  - rewrite union_In, IHa, IHb. split.
    + intros [(s & w & Hs & Hw & Heq)|(s & w & Hs & Hw & Heq)]; exists s, w;
        (split; [exact Hs|]); (split; [|exact Heq]);
        [now apply MAltL | now apply MAltR].
    + intros (s & w & Hs & Hw & ->). inversion Hw; subst;
        [left|right]; exists (w ++ t)%string, w; auto.
  - apply (star_spec a (run a) IHa).
Qed.

(** [/^r$/.test(s)] holds exactly when [r] matches [s]. *)
Corollary test_anchored_spec r s : test_anchored r s = true <-> Matches r s.
Proof.
  unfold test_anchored. rewrite existsb_exists. split.
  - intros (t & Ht & He). destruct t; [|discriminate]. apply run_spec in Ht.
    destruct Ht as (s' & w & [<-|[]] & Hw & ->). now rewrite append_nil_r.
  - intros H. exists ""%string. split; [|reflexivity]. apply run_spec.
    exists s, s. split; [now left|]. split; [exact H | now rewrite append_nil_r].
Qed.

(** [/r/.test(s)] holds exactly when [r] matches a part of [s]. *)
Corollary test_anywhere_spec r s :
  test_anywhere r s = true
  <-> exists before w rest, Matches r w /\ s = (before ++ (w ++ rest))%string.
Proof.
  assert (Hp : forall x, matches_prefix r x = true
                         <-> exists w rest, Matches r w /\ x = (w ++ rest)%string).
  { intros x. unfold matches_prefix. destruct (run r [x]) as [|t ts] eqn:Hr.
    - split; [discriminate|]. intros (w & rest & Hw & ->). exfalso.
      assert (H : In rest (run r [(w ++ rest)%string])).
      { apply run_spec. exists (w ++ rest)%string, w. split; [now left|]. auto. }
      rewrite Hr in H. destruct H.
    - split; [|reflexivity]. intros _.
      assert (H : In t (run r [x])) by (rewrite Hr; now left).
      apply run_spec in H. destruct H as (x' & w & [<-|[]] & Hw & Hx).
      exists w, t. auto. }
  induction s as [|c s IH]; cbn [test_anywhere]; rewrite orb_true_iff, Hp.
  - split.
    + intros [(w & rest & Hw & Hx)|H]; [|discriminate]. exists ""%string, w, rest. auto.
    + intros (before & w & rest & Hw & Hx). left.
      destruct before; [|discriminate]. exists w, rest. auto.
  - rewrite IH. split.
    + intros [(w & rest & Hw & Hx)|(before & w & rest & Hw & Hx)].
      * exists ""%string, w, rest. auto.
      * exists (String c before), w, rest. split; [exact Hw|]. cbn [append]. now rewrite Hx.
    + intros (before & w & rest & Hw & Hx). destruct before as [|b before].
      * left. exists w, rest. auto.
      * right. cbn [append] in Hx. injection Hx as _ Hx. exists before, w, rest. auto.
Qed.

End RegexFacts.

(* ================================================================== *)
(** ** Calendar months and the time zone *)

Module DateFacts.

Import Examples.

(** In a zone that keeps one offset, the offset cancels when the time of
    day is the same before and after; across a change of the clocks it
    does not: one month after 2024-02-15T12:00:00Z (07:00 in New York)
    is 2024-03-15T11:00:00Z (07:00 again, one hour closer to UTC). *)
Example month_across_the_change_of_clocks :
  JSDate.addOneMonth newYork 1707998400000 = 1710500400000
  /\ JSDate.addOneMonth (JSDate.fixedZone (-18000000)) 1707998400000 = 1710504000000
  /\ JSDate.addOneMonth (JSDate.fixedZone 0) jan15 = feb15.
Proof. repeat split; vm_compute; reflexivity. Qed.

End DateFacts.

Module StoreFacts.

Import Text StudentModel Routes Spec.

Lemma insertSorted_perm spec x l : Permutation (insertSorted spec x l) (x :: l).
Proof.
  induction l as [|y l IH]; simpl.
  - apply Permutation_refl.
  - destruct (precedes spec x y).
    + apply Permutation_refl.
    + eapply Permutation_trans; [apply perm_skip, IH | apply perm_swap].
Qed.

Lemma sorted_perm spec l : Permutation (sorted spec l) l.
Proof.
  destruct spec as [sp|]; simpl; [|apply Permutation_refl].
  induction l as [|x l IH]; simpl.
  - apply Permutation_refl.
  - eapply Permutation_trans; [apply insertSorted_perm | now apply perm_skip].
Qed.

Lemma sorted_In spec l x : In x (sorted spec l) <-> In x l.
Proof.
  split; apply Permutation_in; [|apply Permutation_sym]; apply sorted_perm.
Qed.

Lemma sorted_length spec l : List.length (sorted spec l) = List.length l.
Proof. apply Permutation_length, sorted_perm. Qed.

Lemma select_In c db s : In s (select c db) <-> In s db /\ eval c s = true.
Proof. apply filter_In. Qed.

(** What [exec] returns: the page of the sorted selection. *)
Lemma exec_ok q db rows :
  exec q db = inr rows ->
  exists sk lim,
    skipCount (skipValue q) = inr sk /\ limitCount (limitValue q) = inr lim
    /\ rows = page sk lim (sorted (sortSpec q) (select (conditions q) db)).
Proof.
  unfold exec.
  destruct (skipCount (skipValue q)) as [e|sk]; [discriminate|].
  destruct (limitCount (limitValue q)) as [e|lim]; [discriminate|].
  intros H; injection H as <-.
  exists sk, lim; repeat split; destruct lim; reflexivity.
Qed.

Lemma page_In sk lim rows x : In x (page sk lim rows) -> In x rows.
Proof.
  destruct lim as [n|]; simpl; intros H.
  - eapply In_skipn_elim, In_firstn_elim, H.
  - eapply In_skipn_elim, H.
Qed.

Lemma exec_In q db rows s :
  exec q db = inr rows -> In s rows -> In s db /\ eval (conditions q) s = true.
Proof.
  intros H Hin. destruct (exec_ok _ _ _ H) as (sk & lim & _ & _ & ->).
  apply page_In, sorted_In, select_In in Hin. exact Hin.
Qed.

End StoreFacts.

(* ================================================================== *)
(** ** The pre-save middleware and the write paths *)

Module HookFacts.

Import Text StudentModel Routes Spec Examples.

Lemma fields_assign path changed f d : fields (assign path changed f d) = f (fields d).
Proof. unfold assign; destruct changed; reflexivity. Qed.

Lemma isNew_assign path changed f d : isNew (assign path changed f d) = isNew d.
Proof. unfold assign; destruct changed; reflexivity. Qed.

Lemma fields_derive tza baseDate d :
  fields (derive_nextFeePayment tza baseDate d)
  = with_nextFeePayment (Some (JSDate.addOneMonth tza baseDate)) (fields d).
Proof.
  unfold derive_nextFeePayment, set_nextFeePayment. cbn [fields].
  rewrite fields_assign. reflexivity.
Qed.

Lemma isNew_derive tza baseDate d : isNew (derive_nextFeePayment tza baseDate d) = isNew d.
Proof.
  unfold derive_nextFeePayment, set_nextFeePayment. cbn [isNew]. apply isNew_assign.
Qed.

Lemma modifiedPaths_derive tza baseDate d :
  modifiedPaths (derive_nextFeePayment tza baseDate d)
  = modifiedPaths (set_nextFeePayment baseDate d).
Proof. reflexivity. Qed.

(** The middleware leaves no paid document without a payment date. *)
Lemma pre_save_paid env d : paidHasPayment (fields (pre_save env d)).
Proof.
  unfold pre_save, paidHasPayment.
  set (d1 := if isNew d || isModified "lastFeePayment" d then _ else d).
  destruct (String.eqb (feeStatus (fields d1)) "paid") eqn:Hpaid; simpl.
  - destruct (lastFeePayment (fields d1)) as [t|] eqn:Hlast; simpl.
    + intros _; rewrite Hlast; discriminate.
    + intros _; unfold set_lastFeePayment; rewrite fields_assign; discriminate.
  - intros H; apply String.eqb_eq in H; congruence.
Qed.

(** What the middleware derives for a new document, or when the payment
    date was modified: the due date, from the payment date it sees on
    entry. *)
Lemma pre_save_next env d :
  isNew d || isModified "lastFeePayment" d = true ->
  nextFeePayment (fields (pre_save env d)) =
  Some (JSDate.addOneMonth (LocalTZA env)
          (orElse (lastFeePayment (fields d)) (joinDate (fields d)))).
Proof.
  intros H; unfold pre_save; rewrite H.
  match goal with |- context [if ?c then _ else _] => destruct c end;
    unfold set_lastFeePayment; rewrite ?fields_assign, ?fields_derive, ?fields_assign; reflexivity.
Qed.

(** [save] writes what the middleware returns. *)
Lemma save_fields env d db db' d' :
  save env d db = (db', inr d') -> fields d' = fields (pre_save env (stamp env d)).
Proof.
  unfold save.
  destruct (validate _ _); [|discriminate].
  destruct (isNew d).
  - destruct (existsb _ db); [discriminate|]. intros H; injection H as _ <-; reflexivity.
  - destruct (modifiedPaths _) eqn:Hm.
    + intros H; injection H as _ <-; reflexivity.
    + destruct (existsb _ db); [discriminate|]. intros H; injection H as _ <-; reflexivity.
Qed.

Lemma save_paid env d db db' d' :
  save env d db = (db', inr d') -> paidHasPayment (fields d').
Proof. intros H; rewrite (save_fields _ _ _ _ _ H); apply pre_save_paid. Qed.


Lemma markModified_is path d : isModified path (markModified path d) = true.
Proof.
  unfold markModified, isModified; simpl.
  destruct (string_mem path (modifiedPaths d)) eqn:M; simpl;
    [exact M | rewrite String.eqb_refl; reflexivity].
Qed.

Lemma stamp_existing env d :
  isNew d = false -> modifiedPaths d <> [] ->
  stamp env d =
  mkDocument false (modifiedPaths d)
    (with_timestamps (createdAt (fields d)) (Some (now env)) (fields d)).
Proof.
  intros Hn Hm; unfold stamp; rewrite Hn.
  destruct (modifiedPaths d); [contradiction|reflexivity].
Qed.

Lemma pre_save_feeStatus env d : feeStatus (fields (pre_save env d)) = feeStatus (fields d).
Proof.
  unfold pre_save.
  repeat match goal with |- context [if ?c then _ else _] => destruct c end;
    unfold set_lastFeePayment; rewrite ?fields_assign, ?fields_derive, ?fields_assign; reflexivity.
Qed.

Lemma pre_save_last env d :
  lastFeePayment (fields (pre_save env d)) =
  if String.eqb (feeStatus (fields d)) "paid" && negb (isSome (lastFeePayment (fields d)))
  then Some (now env) else lastFeePayment (fields d).
Proof.
  unfold pre_save. cbv zeta.
  destruct (isNew d || isModified "lastFeePayment" d);
    rewrite ?fields_derive;
    cbn [feeStatus lastFeePayment with_nextFeePayment];
    match goal with |- context [if ?c then _ else _] => destruct c end;
    unfold set_lastFeePayment; rewrite ?fields_assign, ?fields_derive; reflexivity.
Qed.

(** Mark-fee-paid goes through [save]: the due date follows the new
    payment date. *)
Lemma markFeePaid_derives env s db db' d' :
  lastFeePayment s <> Some (now env) ->
  markFeePaid env (hydrate s) db = (db', inr d') ->
  feeStatus (fields d') = "paid"
  /\ lastFeePayment (fields d') = Some (now env)
  /\ nextFeePayment (fields d') = Some (JSDate.addOneMonth (LocalTZA env) (now env)).
Proof.
  intros Hold H. unfold markFeePaid in H. apply save_fields in H. rewrite H; clear H.
  set (d0 := set_feeStatus "paid" (hydrate s)).
  assert (H0 : fields d0 = with_feeStatus "paid" s /\ isNew d0 = false).
  { unfold d0, set_feeStatus; rewrite fields_assign, isNew_assign; split; reflexivity. }
  destruct H0 as [H0 H0n]. clearbody d0.
  assert (Hd : set_lastFeePayment (now env) d0
               = markModified "lastFeePayment"
                   (mkDocument (isNew d0) (modifiedPaths d0)
                      (with_lastFeePayment (Some (now env)) (fields d0)))).
  { unfold set_lastFeePayment, assign. rewrite H0; simpl.
    destruct (lastFeePayment s) as [t|]; simpl; [|reflexivity].
    destruct (Z.eqb_spec (now env) t) as [E|E];
      [exfalso; apply Hold; congruence | reflexivity]. }
  rewrite Hd; clear Hd.
  set (d := markModified _ _).
  assert (Hmod : isModified "lastFeePayment" d = true) by apply markModified_is.
  assert (Hnew : isNew d = false) by (unfold d; simpl; exact H0n).
  assert (Hf : fields d = with_lastFeePayment (Some (now env)) (with_feeStatus "paid" s))
    by (unfold d; simpl; rewrite H0; reflexivity).
  assert (Hpaths : modifiedPaths d <> []).
  { intros E; unfold isModified in Hmod; rewrite E in Hmod; discriminate. }
  clearbody d.
  rewrite (stamp_existing env d Hnew Hpaths).
  set (d1 := mkDocument _ _ _).
  assert (H1 : isModified "lastFeePayment" d1 = true) by exact Hmod.
  assert (Hf1 : feeStatus (fields d1) = "paid" /\ lastFeePayment (fields d1) = Some (now env))
    by (unfold d1; simpl; rewrite Hf; split; reflexivity).
  destruct Hf1 as [Hs Hl]. clearbody d1.
  rewrite pre_save_feeStatus, pre_save_last, pre_save_next, Hs, Hl
    by (rewrite H1; apply orb_true_r).
  repeat split.
Qed.

(** The update path: the stored document is the old one with the
    body's paths set; nothing is derived. *)
Lemma findByIdAndUpdate_fields env id u db db' s :
  findByIdAndUpdate env id u db = (db', inr (Some s)) ->
  exists old, In old db /\ s = applyUpdate env u old /\ db' = replaceById s db.
Proof.
  unfold findByIdAndUpdate.
  destruct (castObjectId id) as [e|oid]; [discriminate|].
  destruct (validateUpdate u); [|discriminate].
  destruct (find _ db) as [old|] eqn:Hfind; [|discriminate].
  destruct (existsb _ db); [discriminate|].
  intros H; injection H as <- <-.
  exists old; repeat split. apply (find_some _ _ Hfind).
Qed.

(** *** What reaches the store *)

Lemma with_nextFeePayment_same s : with_nextFeePayment (nextFeePayment s) s = s.
Proof. destruct s; reflexivity. Qed.

(** The store and the document in memory differ in the due date at
    most, and only when the due date changed without a mark. *)
Lemma persisted_paths this doc :
  persisted this doc = with_nextFeePayment (nextFeePayment (persisted this doc)) (fields doc).
Proof.
  unfold persisted. destruct (isModified "nextFeePayment" doc).
  - symmetry. apply with_nextFeePayment_same.
  - reflexivity.
Qed.

Lemma persisted_keys this doc :
  _id (persisted this doc) = _id (fields doc)
  /\ email (persisted this doc) = email (fields doc).
Proof. rewrite persisted_paths. split; reflexivity. Qed.

Lemma persisted_same this doc :
  nextFeePayment (fields doc) = nextFeePayment (fields this) ->
  persisted this doc = fields doc.
Proof.
  intros H. unfold persisted. destruct (isModified "nextFeePayment" doc); [reflexivity|].
  rewrite <- H. apply with_nextFeePayment_same.
Qed.

Lemma persisted_marked this doc :
  isModified "nextFeePayment" doc = true -> persisted this doc = fields doc.
Proof. unfold persisted. now intros ->. Qed.

Lemma stamp_keeps env d :
  isNew (stamp env d) = isNew d
  /\ modifiedPaths (stamp env d) = modifiedPaths d
  /\ nextFeePayment (fields (stamp env d)) = nextFeePayment (fields d)
  /\ lastFeePayment (fields (stamp env d)) = lastFeePayment (fields d)
  /\ joinDate (fields (stamp env d)) = joinDate (fields d).
Proof.
  unfold stamp. destruct (isNew d) eqn:E; [repeat split; exact E|].
  destruct (modifiedPaths d) eqn:Em; cbn [isNew modifiedPaths fields]; rewrite ?E, ?Em;
    repeat split.
Qed.

Lemma isModified_assign_other path other changed f d :
  String.eqb other path = false ->
  isModified other (assign path changed f d) = isModified other d.
Proof.
  intros N. unfold assign, markModified, isModified.
  destruct changed; cbn [modifiedPaths isNew fields]; [|reflexivity].
  destruct (string_mem path (modifiedPaths d)); cbn [modifiedPaths string_mem]; [reflexivity|].
  rewrite N. reflexivity.
Qed.

(** Deriving from a payment date marks the due date exactly when the
    document does not hold that payment date as its due date. *)
Lemma pre_save_marks_due env d t :
  isNew d = false -> isModified "lastFeePayment" d = true ->
  isModified "nextFeePayment" d = false ->
  lastFeePayment (fields d) = Some t ->
  isModified "nextFeePayment" (pre_save env d)
  = negb (optZ_eqb (Some t) (nextFeePayment (fields d))).
Proof.
  intros Hnew Hmod Hdue Hlast. unfold pre_save. cbv zeta.
  rewrite Hnew, Hmod. cbn [orb]. rewrite Hlast. cbn [orElse].
  rewrite fields_derive.
  cbn [with_nextFeePayment lastFeePayment]. rewrite Hlast. cbn [isSome negb].
  rewrite andb_false_r.
  unfold derive_nextFeePayment, set_nextFeePayment, assign, isModified.
  cbn [modifiedPaths].
  destruct (optZ_eqb (Some t) (nextFeePayment (fields d))); cbn [negb].
  - cbn [modifiedPaths]. exact Hdue.
  - unfold markModified, isModified. cbn [modifiedPaths isNew fields].
    unfold isModified in Hdue. rewrite Hdue. cbn [string_mem]. reflexivity.
Qed.

(** For a stored document whose payment date was not assigned, the
    hook derives nothing. *)
Lemma hooks_no_derivation env d :
  isNew d = false -> isModified "lastFeePayment" d = false ->
  nextFeePayment (fields (pre_save env (stamp env d))) = nextFeePayment (fields d).
Proof.
  intros Hnew Hmod. destruct (stamp_keeps env d) as (S1 & S2 & S3 & _).
  unfold pre_save. cbv zeta. unfold isModified. rewrite S1, S2, Hnew.
  unfold isModified in Hmod. rewrite Hmod. cbn [orb].
  match goal with |- context [if ?c then _ else _] => destruct c end;
    unfold set_lastFeePayment; rewrite ?fields_assign; exact S3.
Qed.

Lemma update_keeps_dates env id u db db' s :
  findByIdAndUpdate env id u db = (db', inr (Some s)) ->
  exists old, In old db
    /\ lastFeePayment s = orKeep (b_lastFeePayment u) (lastFeePayment old)
    /\ nextFeePayment s = orKeep (b_nextFeePayment u) (nextFeePayment old).
Proof.
  intros H; destruct (findByIdAndUpdate_fields _ _ _ _ _ _ H) as (old & Hin & -> & _).
  exists old; repeat split; assumption.
Qed.

End HookFacts.


(* ================================================================== *)
(** ** Derived fields on the write paths (C1, C2, C3) *)

Module WritePaths.

Import Text StudentModel Routes Spec Examples StoreFacts HookFacts.

Lemma status_onWriteError msg e : status (onWriteError msg e) <> 201.
Proof.
  unfold onWriteError. destruct (code e) as [z|]; [|simpl; discriminate].
  destruct (Z.eq_dec z 11000) as [->|Hz]; [simpl; discriminate|].
  assert (H : match z with 11000 => emailExists | _ => internalError msg e end
              = internalError msg e).
  { destruct z as [|p|p]; try reflexivity.
    repeat (destruct p as [p|p|]; try reflexivity). congruence. }
  rewrite H; simpl; discriminate.
Qed.

Lemma pre_save_joinDate env d : joinDate (fields (pre_save env d)) = joinDate (fields d).
Proof.
  unfold pre_save.
  repeat match goal with |- context [if ?c then _ else _] => destruct c end;
    unfold set_lastFeePayment; rewrite ?fields_assign, ?fields_derive, ?fields_assign; reflexivity.
Qed.

(** A create that succeeds stores one new document, whose due date is
    derived from the payment date of the request, or else from the join
    date, and which has a payment date when it is paid. *)
Lemma create_stores env body db db' resp :
  createStudent env body db = (db', resp) -> status resp = 201 ->
  exists s,
    data resp = OneStudent (Some s) /\ db' = (db ++ [s])%list
    /\ nextFeePayment s =
       Some (JSDate.addOneMonth (LocalTZA env) (orElse (b_lastFeePayment body) (joinDate s)))
    /\ paidHasPayment s.
Proof.
  unfold createStudent.
  destruct (validateStudent body) as [errs studentData] eqn:Hv.
  assert (Hlast : b_lastFeePayment studentData = b_lastFeePayment body)
    by (unfold validateStudent in Hv; injection Hv as _ <-; reflexivity).
  destruct (handleValidationErrors errs) as [rejected|] eqn:Hh.
  { unfold handleValidationErrors in Hh. destruct errs; [discriminate|].
    injection Hh as <-. intros H; injection H as _ <-. discriminate. }
  destruct (findOneByEmail _ db).
  { intros H; injection H as _ <-; discriminate. }
  unfold insertStudent.
  destruct (save env (construct env studentData) db) as [db1 [e|saved]] eqn:Hs.
  { intros H; injection H as _ <-. intros Hst. now apply status_onWriteError in Hst. }
  intros H _; injection H as <- <-.
  exists (fields saved). split; [reflexivity|].
  pose proof (save_fields _ _ _ _ _ Hs) as Hf.
  split.
  { unfold save in Hs. destruct (validate _ _); [|discriminate].
    change (isNew (construct env studentData)) with true in Hs. cbv iota in Hs.
    destruct (existsb _ db); [discriminate|]. injection Hs as <- <-. reflexivity. }
  split; [|eapply save_paid, Hs].
  rewrite Hf, pre_save_next, pre_save_joinDate by reflexivity.
  cbn [stamp construct isNew fields with_timestamps joinDate lastFeePayment].
  rewrite Hlast. reflexivity.
Qed.

(** The scenario of the specification: fee-paid on a pending student. *)
Example fee_paid_on_pending_student :
  let after := markStudentFeePaid envB rahulId oneStudent in
  status (snd after) = 200
  /\ map feeStatus (fst after) = ["paid"]
  /\ map lastFeePayment (fst after) = [Some (now envB)]
  /\ map nextFeePayment (fst after)
     = [Some (JSDate.addOneMonth (LocalTZA envB) (now envB))].
Proof. evaluate. Qed.

End WritePaths.


Import Text StudentModel Routes Spec Examples.

(** C1 (the update route misses the middleware). [PUT /:id] writes with
    [findByIdAndUpdate], which is not a save: an update that sets
    lastFeePayment leaves nextFeePayment as it was, not one month after
    the new date, and an update that sets feeStatus to paid on a record
    without a payment date leaves lastFeePayment unset. *)
Theorem update_bypasses_pre_save_hook :
  oneStudent = [rahul]
  /\ lastFeePayment rahul = None /\ nextFeePayment rahul = Some feb15
  /\ (let after := updateStudent envB rahulId (setLastFeePayment (now envB)) oneStudent in
      status (snd after) = 200
      /\ map lastFeePayment (fst after) = [Some (now envB)]
      /\ map nextFeePayment (fst after) = [Some feb15]
      /\ JSDate.addOneMonth (LocalTZA envB) (now envB) <> feb15)
  /\ (let after := updateStudent envB rahulId setPaid oneStudent in
      status (snd after) = 200
      /\ map feeStatus (fst after) = ["paid"]
      /\ map lastFeePayment (fst after) = [None]).
Proof.
  evaluate.
  vm_compute; discriminate.
Qed.

(** C2 (the middleware derives before it stamps). A create with
    feeStatus paid, a join date and no payment date stores the current
    time as lastFeePayment, and a nextFeePayment one month after the join
    date, which is not one month after the stored lastFeePayment. *)
Theorem create_paid_derives_from_join_date :
  let created := createStudent envA (with_b_feeStatus "paid" rahulBody) [] in
  status (snd created) = 201
  /\ map feeStatus (fst created) = ["paid"]
  /\ map joinDate (fst created) = [jan15]
  /\ map lastFeePayment (fst created) = [Some (now envA)]
  /\ map nextFeePayment (fst created) = [Some (JSDate.addOneMonth (LocalTZA envA) jan15)]
  /\ (forall s, In s (fst created) -> ~ nextPaymentDerived envA s).
Proof.
  evaluate.
  intros s Hin. vm_compute in Hin. destruct Hin as [<-|[]].
  vm_compute. discriminate.
Qed.

(** C3 (the update route misses the middleware). After a create and an
    update that sets feeStatus to paid, the collection holds a paid
    record with no lastFeePayment. *)
Theorem paid_without_payment_after_update :
  let created := createStudent envA rahulBody [] in
  let updated := updateStudent envB rahulId setPaid (fst created) in
  status (snd created) = 201 /\ status (snd updated) = 200
  /\ exists s, In s (fst updated) /\ feeStatus s = "paid" /\ lastFeePayment s = None
               /\ ~ paidHasPayment s.
Proof.
  cbv zeta. split; [vm_compute; reflexivity|]. split; [vm_compute; reflexivity|].
  exists (with_timestamps (createdAt rahul) (Some (now envB)) (with_feeStatus "paid" rahul)).
  split; [vm_compute; left; reflexivity|].
  split; [reflexivity|]. split; [reflexivity|].
  intros H; apply H; reflexivity.
Qed.


(* ================================================================== *)
(** ** What the query helpers select *)

Module QueryFacts.

Import Text StudentModel Routes Spec Examples StoreFacts HookFacts.

Lemma getPath_isActive s : getPath "isActive" s = VBool (isActive s).
Proof. reflexivity. Qed.

Lemma getPath_feeStatus s : getPath "feeStatus" s = VStr (feeStatus s).
Proof. reflexivity. Qed.

Lemma getPath_nextFeePayment s : getPath "nextFeePayment" s = ofDate (nextFeePayment s).
Proof. reflexivity. Qed.

Lemma eval_isActive s b : eval (Is "isActive" (VBool b)) s = Bool.eqb (isActive s) b.
Proof. reflexivity. Qed.

Lemma eval_feeStatus s v : eval (Is "feeStatus" (VStr v)) s = String.eqb (feeStatus s) v.
Proof. reflexivity. Qed.

Lemma eval_due_before s t :
  eval (LessThan "nextFeePayment" (VDate t)) s =
  match nextFeePayment s with Some due => due <? t | None => false end.
Proof.
  cbn [eval]. rewrite getPath_nextFeePayment.
  destruct (nextFeePayment s) as [due|]; [|reflexivity].
  unfold value_ltb, ofDate, rank, compareValue. rewrite Z.eqb_refl, Z.ltb_compare.
  destruct (due ?= t); reflexivity.
Qed.

Lemma eval_And_cons c cs s : eval (And (c :: cs)) s = eval c s && eval (And cs) s.
Proof. reflexivity. Qed.

Lemma eval_Or_cons c cs s : eval (Or (c :: cs)) s = eval c s || eval (Or cs) s.
Proof. reflexivity. Qed.

Lemma eval_And_nil s : eval (And []) s = true.
Proof. reflexivity. Qed.

Lemma eval_Or_nil s : eval (Or []) s = false.
Proof. reflexivity. Qed.

(** The filter of [getOverdueStudents], read off the source. *)
Lemma eval_overdue env s :
  eval (conditions (getOverdueStudents env)) s = true <-> overdue env s.
Proof.
  unfold getOverdueStudents, find_, overdue; cbn [conditions].
  rewrite !eval_And_cons, !eval_Or_cons, !eval_And_cons, eval_And_nil, eval_Or_nil,
    eval_isActive, !eval_feeStatus, eval_due_before, !andb_true_r, orb_false_r.
  rewrite andb_true_iff, orb_true_iff, andb_true_iff, !String.eqb_eq.
  destruct (isActive s); simpl; split.
  - intros [_ [H|[H1 H2]]]; split; auto. right; split; auto.
    destruct (nextFeePayment s) as [due|]; [|discriminate].
    exists due; split; [reflexivity | now apply Z.ltb_lt].
  - intros [_ [H|[H1 (due & H2 & H3)]]]; split; auto. right; split; auto.
    rewrite H2; now apply Z.ltb_lt.
  - intros [H _]; discriminate.
  - intros [H _]; discriminate.
Qed.

(** Every helper and the default list filter keep active records only. *)
Lemma findByCourse_active c s : eval (conditions (findByCourse c)) s = true -> isActive s = true.
Proof.
  unfold findByCourse, find_; cbn [conditions].
  rewrite !eval_And_cons, eval_isActive, eval_And_nil, !andb_true_iff.
  intros (_ & H & _). destruct (isActive s); [reflexivity | discriminate].
Qed.

Lemma findByFeeStatus_active st s :
  eval (conditions (findByFeeStatus st)) s = true -> isActive s = true.
Proof.
  unfold findByFeeStatus, find_; cbn [conditions].
  rewrite !eval_And_cons, eval_isActive, eval_And_nil, !andb_true_iff.
  intros (_ & H & _). destruct (isActive s); [reflexivity | discriminate].
Qed.

Lemma searchStudents_active term s :
  eval (conditions (searchStudents term)) s = true -> isActive s = true.
Proof.
  unfold searchStudents, find_; cbn [conditions].
  rewrite eval_And_cons, eval_isActive, andb_true_iff.
  intros (H & _). destruct (isActive s); [reflexivity | discriminate].
Qed.

Lemma getOverdueStudents_active env s :
  eval (conditions (getOverdueStudents env)) s = true -> isActive s = true.
Proof. intros H; apply eval_overdue in H; apply H. Qed.

Lemma listQuery_active q s :
  q_isActive q = None ->
  eval (conditions (listQuery q)) s = true -> isActive s = true.
Proof.
  intros Hq. unfold listQuery, sort; cbn [conditions].
  destruct (truthy (q_search q)).
  - apply searchStudents_active.
  - unfold find_, listFilter; cbn [conditions]. rewrite Hq.
    cbn [orElse]. change (negb (String.eqb "true" "all")) with true.
    change (String.eqb "true" "true") with true. cbn iota.
    rewrite <- app_comm_cons, eval_And_cons, eval_isActive, andb_true_iff.
    intros (H & _). destruct (isActive s); [reflexivity | discriminate].
Qed.

(** The records of a paged helper route come from the helper's
    selection, and the total counts that selection. *)
Lemma pagedHelper_page helper sortPath dir pg lim done failed db resp students p :
  pagedHelper helper sortPath dir pg lim done failed db = Some resp ->
  data resp = Page students p ->
  (forall s, In s students -> In s db /\ eval (conditions helper) s = true)
  /\ totalStudents p = Z.of_nat (List.length (select (conditions helper) db)).
Proof.
  unfold pagedHelper.
  match goal with |- context [if ?c then _ else _] => destruct c end; [discriminate|].
  match goal with |- context [exec ?q db] => destruct (exec q db) as [e|rows] eqn:He end.
  - intros H; injection H as <-; discriminate.
  - intros H; injection H as <-. cbn [data ok]. intros H; injection H as <- <-.
    split; [|reflexivity].
    intros s Hin. apply (exec_In _ _ _ _ He Hin).
Qed.

Lemma getStudents_page q db resp students p :
  getStudents q db = Some resp ->
  data resp = Page students p ->
  forall s, In s students -> In s db /\ eval (conditions (listQuery q)) s = true.
Proof.
  unfold getStudents.
  match goal with |- context [if ?c then _ else _] => destruct c end; [discriminate|].
  match goal with |- context [exec ?q db] => destruct (exec q db) as [e|rows] eqn:He end.
  - intros H; injection H as <-; discriminate.
  - intros H; injection H as <-. cbn [data ok]. intros H; injection H as <- _.
    intros s Hin. apply (exec_In _ _ _ _ He Hin).
Qed.

End QueryFacts.


(* ================================================================== *)
(** ** Pagination *)

Module PaginationFacts.

Import Text StudentModel Routes Spec Examples StoreFacts QueryFacts.

(** For a page size of at least one, [Math.ceil(total / limit)] is the
    least number of pages that hold [total] records. *)
Lemma ceil_div_pages total l :
  0 <= total -> 1 <= l ->
  exists k, JSNum.ceil_div total (JSNum.Num l) = JSNum.Num k
            /\ l * (k - 1) < total <= l * k.
Proof.
  intros Ht Hl. exists (- ((- total) / l)). split.
  - unfold JSNum.ceil_div. destruct l as [|p|p]; try lia.
    replace (Z.pos p <? 0) with false by (symmetry; apply Z.ltb_ge; lia).
    rewrite andb_false_r. reflexivity.
  - pose proof (Z.div_mod (- total) l ltac:(lia)) as Hd.
    pose proof (Z.mod_pos_bound (- total) l ltac:(lia)) as Hm.
    nia.
Qed.

(** The skip of page [p] at page size [l]. *)
Lemma skip_of_page p l :
  1 <= p -> 1 <= l ->
  skipCount (Some (JSNum.mul (JSNum.pred (JSNum.Num p)) (JSNum.Num l)))
  = inr (Z.to_nat ((p - 1) * l)).
Proof.
  intros Hp Hl. cbn [JSNum.pred JSNum.mul JSNum.negative].
  replace (p - 1 <? 0) with false by (symmetry; apply Z.ltb_ge; lia).
  replace (l <? 0) with false by (symmetry; apply Z.ltb_ge; lia).
  cbn [xorb]. rewrite andb_false_r. cbn [skipCount].
  replace ((p - 1) * l <? 0) with false by (symmetry; apply Z.ltb_ge; nia).
  reflexivity.
Qed.

(** A page beyond the last one of the query is empty, and no error. *)
Lemma page_beyond_range_is_empty q db p l :
  JSNum.parseInt (orElse (q_page q) "1") = JSNum.Num p ->
  JSNum.parseInt (orElse (q_limit q) "10") = JSNum.Num l ->
  1 <= p -> 1 <= l ->
  supported (conditions (listQuery q)) = true ->
  Z.of_nat (List.length (select (conditions (listQuery q)) db)) <= (p - 1) * l ->
  exists resp meta,
    getStudents q db = Some resp /\ status resp = 200 /\ data resp = Page [] meta.
Proof.
  intros Hp Hl Hp1 Hl1 Hs Hlen. unfold getStudents. rewrite Hp, Hl.
  unfold limit at 1, skip at 1; cbn [conditions]. rewrite Hs. cbn [negb].
  unfold exec, limit, skip; cbn [conditions sortSpec skipValue limitValue].
  rewrite (skip_of_page p l Hp1 Hl1).
  assert (Hlim : exists n, limitCount (Some (JSNum.Num l)) = inr (Some n)).
  { cbn [limitCount]. replace (l =? 0) with false by (symmetry; apply Z.eqb_neq; lia).
    eexists; reflexivity. }
  destruct Hlim as [n ->]. cbn iota.
  rewrite skipn_beyond by (rewrite sorted_length; lia).
  rewrite firstn_nil. eexists _, _. repeat split.
Qed.

(** What [GET /] returns for a page and a page size of at least one. *)
Lemma getStudents_rows q db p l :
  JSNum.parseInt (orElse (q_page q) "1") = JSNum.Num p ->
  JSNum.parseInt (orElse (q_limit q) "10") = JSNum.Num l ->
  1 <= p -> 1 <= l ->
  supported (conditions (listQuery q)) = true ->
  records (getStudents q db)
  = firstn (Z.to_nat l)
      (skipn (Z.to_nat ((p - 1) * l))
         (sorted (sortSpec (listQuery q)) (select (conditions (listQuery q)) db))).
Proof.
  intros Hp Hl Hp1 Hl1 Hs. unfold getStudents. rewrite Hp, Hl.
  unfold limit at 1, skip at 1; cbn [conditions]. rewrite Hs. cbn [negb].
  unfold exec, limit, skip; cbn [conditions sortSpec skipValue limitValue].
  rewrite (skip_of_page p l Hp1 Hl1).
  cbn [limitCount]. replace (l =? 0) with false by (symmetry; apply Z.eqb_neq; lia).
  cbn [records ok data]. now rewrite Z.abs_eq by lia.
Qed.


(** The scenario of the specification: five active records of a
    course, page 1 at page size 2. *)
Example first_page_of_five :
  let resp :=
    getStudents
      (mkListQuery (Some "1") (Some "2") (Some "Physics - Class 12") None None None None None)
      (twoStudents ++ physicsClass)%list in
  List.length (records resp) = 2%nat
  /\ pagination resp =
     Some {| currentPage := JSNum.Num 1; totalPages := JSNum.Num 3; totalStudents := 5;
             studentsPerPage := JSNum.Num 2;
             hasNextPage := Some true; hasPrevPage := Some false |}.
Proof. evaluate. Qed.

End PaginationFacts.


(* ================================================================== *)
(** ** The overdue listing (C6) *)

Import StoreFacts QueryFacts PaginationFacts.




(* ================================================================== *)
(** ** Deactivation (C8) *)

Module DeactivateFacts.

Import Text StudentModel Routes Spec Examples StoreFacts HookFacts QueryFacts.

Lemma modifiedPaths_markModified path d : modifiedPaths (markModified path d) <> [].
Proof.
  unfold markModified, isModified; cbn [modifiedPaths].
  destruct (string_mem path (modifiedPaths d)) eqn:E; [|discriminate].
  intros H; rewrite H in E; discriminate.
Qed.

Lemma modifiedPaths_assign path changed f d :
  modifiedPaths d <> [] \/ changed = true -> modifiedPaths (assign path changed f d) <> [].
Proof.
  unfold assign. destruct changed.
  - intros _; apply modifiedPaths_markModified.
  - intros [H|H]; [exact H | discriminate].
Qed.

Lemma modifiedPaths_stamp env d :
  modifiedPaths d <> [] -> modifiedPaths (stamp env d) <> [].
Proof.
  unfold stamp. destruct (isNew d); [tauto|].
  destruct (modifiedPaths d) eqn:E; [tauto|]. cbn [modifiedPaths]. congruence.
Qed.

Lemma modifiedPaths_pre_save env d :
  modifiedPaths d <> [] -> modifiedPaths (pre_save env d) <> [].
Proof.
  intros H. unfold pre_save.
  repeat match goal with |- context [if ?c then _ else _] => destruct c end;
    unfold set_lastFeePayment, set_nextFeePayment;
    repeat (apply modifiedPaths_assign; left); exact H.
Qed.

Lemma pre_save_isActive env d :
  isActive (fields (pre_save env d)) = isActive (fields d)
  /\ _id (fields (pre_save env d)) = _id (fields d).
Proof.
  unfold pre_save.
  repeat match goal with |- context [if ?c then _ else _] => destruct c end;
    unfold set_lastFeePayment; rewrite ?fields_assign, ?fields_derive, ?fields_assign; split; reflexivity.
Qed.

Lemma stamp_isActive env d :
  isActive (fields (stamp env d)) = isActive (fields d)
  /\ _id (fields (stamp env d)) = _id (fields d).
Proof.
  unfold stamp. destruct (isNew d); [split; reflexivity|].
  destruct (modifiedPaths d); split; reflexivity.
Qed.

(** What a successful [deactivate] of a stored document does. *)
Lemma deactivate_saved env old db db' saved :
  deactivate env (hydrate old) db = (db', inr saved) ->
  isActive (fields saved) = false
  /\ _id (fields saved) = _id old
  /\ (db' = replaceById (fields saved) db \/ (db' = db /\ isActive old = false)).
Proof.
  unfold deactivate. intros H. pose proof (save_fields _ _ _ _ _ H) as Hf.
  set (d := set_isActive false (hydrate old)) in *.
  assert (Hd : fields d = with_isActive false old)
    by (unfold d, set_isActive; rewrite fields_assign; reflexivity).
  split; [|split].
  - rewrite Hf, (proj1 (pre_save_isActive _ _)), (proj1 (stamp_isActive _ _)), Hd; reflexivity.
  - rewrite Hf, (proj2 (pre_save_isActive _ _)), (proj2 (stamp_isActive _ _)), Hd; reflexivity.
  - unfold save in H. destruct (validate _ _); [|discriminate].
    replace (isNew d) with false in H
      by (unfold d, set_isActive; rewrite isNew_assign; reflexivity).
    destruct (modifiedPaths (pre_save env (stamp env d))) eqn:Hm.
    + injection H as <- _. right; split; [reflexivity|].
      destruct (isActive old) eqn:Ha; [|reflexivity]. exfalso.
      apply (modifiedPaths_pre_save env (stamp env d)); [|exact Hm].
      apply modifiedPaths_stamp. unfold d, set_isActive.
      apply modifiedPaths_assign. right. cbn [hydrate fields]. rewrite Ha; reflexivity.
    + destruct (existsb _ db); [discriminate|]. injection H as <- <-. left.
      cbn [hydrate fields]. rewrite persisted_same; [reflexivity|].
      apply hooks_no_derivation.
      * unfold d, set_isActive. now rewrite isNew_assign.
      * unfold d, set_isActive, assign, markModified, isModified.
        cbn [hydrate isNew modifiedPaths fields string_mem].
        destruct (negb _); reflexivity.
Qed.

Lemma replaceById_In s db x :
  In x (replaceById s db) -> _id x = _id s -> x = s.
Proof.
  unfold replaceById. rewrite in_map_iff. intros (y & Hy & _) Hid.
  destruct (String.eqb (_id y) (_id s)) eqn:E; [congruence|].
  subst x. apply String.eqb_neq in E. contradiction.
Qed.

Lemma replaceById_find s db old :
  find (fun x => String.eqb (_id x) (_id s)) db = Some old ->
  find (fun x => String.eqb (_id x) (_id s)) (replaceById s db) = Some s.
Proof.
  induction db as [|y db IH]; cbn [find replaceById map]; [discriminate|].
  destruct (String.eqb (_id y) (_id s)) eqn:E.
  - intros _. rewrite String.eqb_refl. reflexivity.
  - intros H. rewrite E. apply IH, H.
Qed.

Lemma unique_by_id (db : Collection) a b :
  NoDup (map _id db) -> In a db -> In b db -> _id a = _id b -> a = b.
Proof.
  induction db as [|y db IH]; cbn [map]; [intros _ []|].
  intros Hnd Ha Hb Hid. inversion Hnd as [|? ? Hnot Hnd']; subst.
  destruct Ha as [->|Ha], Hb as [->|Hb]; auto.
  - exfalso; apply Hnot. rewrite Hid. now apply in_map.
  - exfalso; apply Hnot. rewrite <- Hid. now apply in_map.
Qed.

Lemma castObjectId_ok id oid : castObjectId id = inr oid -> oid = toLowerCase id.
Proof.
  unfold castObjectId.
  destruct ((len id =? 24) && forallb_string is_hex id); [|discriminate].
  intros H; injection H as <-; reflexivity.
Qed.

(** A route that loads a document and calls a method answers 200 only
    when the identifier is valid, the document exists and the method
    succeeds. *)
Lemma withStudent_ok id db method done failed db' resp :
  withStudent id db method done failed = (db', resp) -> status resp = 200 ->
  exists old saved,
    handleValidationErrors (validateObjectId id) = None
    /\ findById id db = inr (Some old)
    /\ method (hydrate old) db = (db', inr saved)
    /\ data resp = OneStudent (Some (fields saved)).
Proof.
  unfold withStudent.
  destruct (handleValidationErrors (validateObjectId id)) as [rejected|] eqn:Hv.
  { unfold handleValidationErrors in Hv. destruct (validateObjectId id); [discriminate|].
    injection Hv as <-. intros H; injection H as _ <-. discriminate. }
  destruct (findById id db) as [e|[old|]] eqn:Hf.
  - intros H; injection H as _ <-; discriminate.
  - destruct (method (hydrate old) db) as [db1 [e|saved]] eqn:Hm.
    + intros H; injection H as _ <-; discriminate.
    + intros H _; injection H as <- <-. exists old, saved.
      split; [reflexivity|]. split; [reflexivity|]. split; [exact Hm | reflexivity].
  - intros H; injection H as _ <-; discriminate.
Qed.

End DeactivateFacts.

Import DeactivateFacts.

(** C8. After a successful deactivate, the record is in no answer of
    the list route with the default isActive parameter, nor of the
    search, by-course, by-fee-status and overdue routes; the route by
    identifier still returns it, now inactive, and the collection has
    as many documents as before. *)
Theorem deactivated_record_is_hidden_not_removed env id db db' resp :
  NoDup (map _id db) ->
  deactivateStudent env id db = (db', resp) ->
  status resp = 200 ->
  let oid := toLowerCase id in
  (forall q s, q_isActive q = None -> In s (records (getStudents q db')) -> _id s <> oid)
  /\ (forall term pg lim s, In s (records (searchRoute term pg lim db')) -> _id s <> oid)
  /\ (forall c pg lim s, In s (records (courseRoute c pg lim db')) -> _id s <> oid)
  /\ (forall st pg lim s, In s (records (feeStatusRoute st pg lim db')) -> _id s <> oid)
  /\ (forall env' pg lim s, In s (records (overdueRoute env' pg lim db')) -> _id s <> oid)
  /\ (exists s, getStudent id db' = ok 200 "Student retrieved successfully" (OneStudent (Some s))
                /\ _id s = oid /\ isActive s = false)
  /\ List.length db' = List.length db.
Proof.
  intros Hnd Hde Hst oid.
  destruct (withStudent_ok _ _ _ _ _ _ _ Hde Hst) as (old & saved & Hv & Hf & Hm & _).
  unfold findById in Hf. destruct (castObjectId id) as [e|oid'] eqn:Hc; [discriminate|].
  injection Hf as Hf. pose proof (castObjectId_ok _ _ Hc) as ->. fold oid in Hf, Hc.
  destruct (find_some _ _ Hf) as [Hold Hoid]. apply String.eqb_eq in Hoid.
  destruct (deactivate_saved _ _ _ _ _ Hm) as (Hina & Hid & Hdb).
  (* every document of [db'] with the identifier is the inactive one *)
  assert (Hidden : forall s, In s db' -> _id s = oid -> isActive s = false).
  { intros s Hs Hsid. destruct Hdb as [->|[-> Hi]].
    - rewrite (replaceById_In _ _ _ Hs) by congruence. exact Hina.
    - rewrite (unique_by_id db s old Hnd Hs Hold) by congruence. exact Hi. }
  assert (Gone : forall s, In s db' -> isActive s = true -> _id s <> oid).
  { intros s Hs Ha Hsid. rewrite (Hidden s Hs Hsid) in Ha. discriminate. }
  assert (Paged : forall helper sortPath dir pg lim done failed s,
             (forall x, eval (conditions helper) x = true -> isActive x = true) ->
             In s (records (pagedHelper helper sortPath dir pg lim done failed db')) ->
             _id s <> oid).
  { intros helper sortPath dir pg lim done failed s Hact Hin.
    destruct (pagedHelper helper sortPath dir pg lim done failed db') as [r|] eqn:Hr;
      [|destruct Hin].
    cbn [records] in Hin. destruct r as [st su ms [ | |students p] er ers]; try destruct Hin.
    destruct (pagedHelper_page _ _ _ _ _ _ _ _ _ _ _ Hr eq_refl) as [Hall _].
    destruct (Hall s Hin) as [H1 H2]. apply Gone; auto. }
  repeat match goal with |- _ /\ _ => split end.
  - intros q s Hq Hin.
    destruct (getStudents q db') as [r|] eqn:Hr; [|destruct Hin].
    cbn [records] in Hin. destruct r as [st su ms [ | |students p] er ers]; try destruct Hin.
    destruct (getStudents_page _ _ _ _ _ Hr eq_refl s Hin) as [H1 H2].
    apply Gone; [exact H1|]. eapply listQuery_active; eassumption.
  - intros term pg lim s. apply Paged, searchStudents_active.
  - intros c pg lim s. apply Paged, findByCourse_active.
  - intros st pg lim s. unfold feeStatusRoute.
    destruct (negb _); [intros []|]. apply Paged, findByFeeStatus_active.
  - intros env' pg lim s. apply Paged, getOverdueStudents_active.
  - assert (Hfind : exists s, find (fun x => String.eqb (_id x) oid) db' = Some s
                              /\ _id s = oid /\ isActive s = false).
    { destruct Hdb as [->|[-> Hi]].
      - exists (fields saved). rewrite <- Hoid, <- Hid. split; [|split; auto].
        eapply replaceById_find. rewrite Hid, Hoid. exact Hf.
      - exists old. auto. }
    destruct Hfind as (s & Hs & Hsid & Hsa). exists s. split; [|split; assumption].
    unfold getStudent, findById. rewrite Hv, Hc, Hs. reflexivity.
  - destruct Hdb as [->|[-> _]]; [|reflexivity]. unfold replaceById. apply length_map.
Qed.

(** C8 at the sample collection: the record created first, deactivated. *)
Lemma deactivated_record_is_hidden_example :
  let after := deactivateStudent envB rahulId oneStudent in
  (forall q s, q_isActive q = None -> In s (records (getStudents q (fst after))) ->
               _id s <> rahulId)
  /\ (exists s, getStudent rahulId (fst after)
                = ok 200 "Student retrieved successfully" (OneStudent (Some s))
                /\ _id s = rahulId /\ isActive s = false)
  /\ List.length (fst after) = List.length oneStudent.
Proof.
  cbv zeta.
  destruct (deactivated_record_is_hidden_not_removed envB rahulId oneStudent
              (fst (deactivateStudent envB rahulId oneStudent))
              (snd (deactivateStudent envB rahulId oneStudent)))
    as (H1 & _ & _ & _ & _ & H6 & H7).
  - vm_compute. constructor; [intros []|constructor].
  - apply surjective_pairing.
  - vm_compute; reflexivity.
  - split; [exact H1 | split; [exact H6 | exact H7]].
Defined.


(* ================================================================== *)
(** ** The search (C4) *)

Module SearchFacts.

Import Text Regex StudentModel Routes Spec Examples StoreFacts QueryFacts.

Lemma run_nil r : run r [] = [].
Proof.
  induction r as [|p|a IHa b IHb|a IHa b IHb|a IHa]; cbn [run].
  - reflexivity.
  - reflexivity.
  - rewrite IHa; exact IHb.
  - rewrite IHa, IHb; reflexivity.
  - cbn [longest fold_right rounds]. rewrite IHa. reflexivity.
Qed.

Lemma run_Chr p r s :
  run (Cat (Chr p) r) [s] =
  match s with
  | String c t => if p c then run r [t] else []
  | EmptyString => []
  end.
Proof.
  cbn [run flat_map]. destruct s as [|c t]; cbn [eat app nodup]; [apply run_nil|].
  destruct (p c); cbn [app nodup]; [|apply run_nil].
  destruct (in_dec suffix_dec t []) as [[]|_]. reflexivity.
Qed.

(** A term of ordinary characters is in the fragment, and matches at
    the start of a subject exactly when it is a prefix of it, case
    ignored. *)
Lemma ordinary_prefix term :
  ordinary term = true ->
  exists r, parsePattern term = Some r
            /\ forall s, matches_prefix r s = ci_prefix term s.
Proof.
  induction term as [|c rest IH]; cbn [ordinary forallb_string].
  - intros _. exists Eps. split; [reflexivity|]. intros s; destruct s; reflexivity.
  - rewrite !andb_true_iff, !negb_true_iff. intros [[Hmeta Hdot] Hrest].
    destruct (IH Hrest) as (r & Hr & Hpre).
    cbn [parsePattern]. rewrite Hmeta, Hr, Hdot.
    eexists; split; [reflexivity|].
    intros s. unfold matches_prefix. rewrite run_Chr.
    destruct s as [|b t]; cbn [ci_prefix]; [reflexivity|].
    rewrite (Ascii.eqb_sym (lower_char c)).
    destruct (Ascii.eqb (lower_char b) (lower_char c)); cbn [andb]; [|reflexivity].
    apply Hpre.
Qed.

Lemma ordinary_search term :
  ordinary term = true -> forall v, regexTest term (ofText v) = contains term v.
Proof.
  intros Ho v. destruct (ordinary_prefix term Ho) as (r & Hr & Hpre).
  unfold regexTest, contains, ofText. rewrite Hr. destruct v as [x|]; [|reflexivity].
  induction x as [|c x IH]; cbn [test_anywhere ci_substring]; rewrite Hpre;
    [reflexivity | rewrite IH; reflexivity].
Qed.

(** The filter of [searchStudents], read off the source. *)
Lemma eval_search term s : eval (conditions (searchStudents term)) s = regexHit term s.
Proof.
  unfold searchStudents, find_, regexHit; cbn [conditions].
  rewrite !eval_And_cons, !eval_Or_cons, eval_And_nil, eval_Or_nil, eval_isActive.
  cbn [eval].
  change (getPath "name" s) with (ofText (name s)).
  change (getPath "email" s) with (ofText (email s)).
  change (getPath "course" s) with (ofText (course s)).
  change (getPath "phone" s) with (ofText (phone s)).
  rewrite andb_true_r, !orb_false_r, !orb_assoc.
  destruct (isActive s); reflexivity.
Qed.

Lemma supported_search term :
  supported (conditions (searchStudents term)) = isSome (parsePattern term).
Proof.
  unfold searchStudents, find_; cbn [conditions supported].
  destruct (isSome (parsePattern term)); reflexivity.
Qed.

Lemma truthy_some term : term <> "" -> truthy (Some term) = true.
Proof. destruct term; [congruence | reflexivity]. Qed.

(** With a search term, the query of [GET /] is the search helper,
    sorted: the filter object plays no part in it. *)
Lemma listQuery_search q term :
  q_search q = Some term -> term <> "" ->
  listQuery q =
  sort (orElse (q_sortBy q) "createdAt")
       (if String.eqb (orElse (q_sortOrder q) "desc") "asc" then 1 else -1)
       (searchStudents term).
Proof.
  intros Hq Hne. unfold listQuery. rewrite Hq, (truthy_some _ Hne). reflexivity.
Qed.

End SearchFacts.

Import SearchFacts.

(** What holds of the search of [GET /], for a term of the modelled
    fragment: the route answers with a page of the sorted search
    result. Every record on it is an active record of the collection in
    which the term, read as a case-insensitive regular expression,
    matches the name, the email, the course or the phone; for a page
    number and a page size of at least one the page is the slice of the
    sorted result at the positions [(page - 1) * limit] to
    [page * limit - 1]; the course, feeStatus and isActive parameters
    do not change the records; and for a term of ordinary characters
    the match is the case-insensitive substring test. *)
Lemma search_takes_priority_over_filters q db term :
  q_search q = Some term -> term <> "" -> isSome (parsePattern term) = true ->
  exists resp,
    getStudents q db = Some resp
    /\ (forall students p,
          data resp = Page students p ->
          forall s, In s students -> In s db /\ regexHit term s = true)
    /\ (forall p l,
          JSNum.parseInt (orElse (q_page q) "1") = JSNum.Num p ->
          JSNum.parseInt (orElse (q_limit q) "10") = JSNum.Num l ->
          1 <= p -> 1 <= l ->
          records (Some resp)
          = firstn (Z.to_nat l)
              (skipn (Z.to_nat ((p - 1) * l))
                 (sorted (sortSpec (listQuery q)) (filter (regexHit term) db))))
    /\ (forall c f a, records (getStudents (withFilters c f a q) db) = records (Some resp))
    /\ (ordinary term = true -> forall s, regexHit term s = substringHit term s).
Proof.
  intros Hq Hne Hsup.
  assert (Hsel : select (conditions (searchStudents term)) db = filter (regexHit term) db).
  { unfold select. apply filter_ext. intros s; apply eval_search. }
  assert (Hget : forall q', q_search q' = Some term ->
            getStudents q' db =
            Some match exec (limit (JSNum.parseInt (orElse (q_limit q') "10"))
                               (skip (JSNum.mul (JSNum.pred (JSNum.parseInt (orElse (q_page q') "1")))
                                        (JSNum.parseInt (orElse (q_limit q') "10")))
                                  (listQuery q'))) db with
                 | inl e => internalError "Failed to retrieve students" e
                 | inr students =>
                     ok 200 "Students retrieved successfully"
                       (Page students
                          {| currentPage := JSNum.parseInt (orElse (q_page q') "1");
                             totalPages := JSNum.ceil_div (countDocuments (listFilter q') db)
                                             (JSNum.parseInt (orElse (q_limit q') "10"));
                             totalStudents := countDocuments (listFilter q') db;
                             studentsPerPage := JSNum.parseInt (orElse (q_limit q') "10");
                             hasNextPage :=
                               Some (JSNum.lt (JSNum.parseInt (orElse (q_page q') "1"))
                                       (JSNum.ceil_div (countDocuments (listFilter q') db)
                                          (JSNum.parseInt (orElse (q_limit q') "10"))));
                             hasPrevPage :=
                               Some (JSNum.lt (JSNum.Num 1)
                                       (JSNum.parseInt (orElse (q_page q') "1"))) |})
                 end).
  { intros q' Hq'. unfold getStudents.
    rewrite (listQuery_search q' term Hq' Hne).
    unfold limit, skip, sort; cbn [conditions]. rewrite supported_search, Hsup.
    reflexivity. }
  assert (Hcond : conditions (listQuery q) = conditions (searchStudents term))
    by (rewrite (listQuery_search q term Hq Hne); reflexivity).
  rewrite (Hget q Hq). eexists; split; [reflexivity|].
  split; [|split; [|split]].
  - intros students p Hd s Hin.
    destruct (exec _ db) as [e|rows] eqn:He; [discriminate|].
    cbn [data ok] in Hd. injection Hd as <- _.
    destruct (exec_In _ _ _ _ He Hin) as [H1 H2]. split; [exact H1|].
    rewrite (listQuery_search q term Hq Hne) in H2.
    unfold limit, skip, sort in H2; cbn [conditions] in H2. now rewrite eval_search in H2.
  - intros p l Hp Hl Hp1 Hl1. rewrite <- (Hget q Hq), <- Hsel, <- Hcond.
    apply getStudents_rows; try assumption.
    rewrite Hcond, supported_search. exact Hsup.
  - intros c f a. rewrite (Hget (withFilters c f a q) Hq).
    unfold withFilters at 1 2 3; cbn [q_page q_limit].
    rewrite (listQuery_search q term Hq Hne),
      (listQuery_search (withFilters c f a q) term Hq Hne).
    cbn [withFilters q_sortBy q_sortOrder].
    destruct (exec _ db); reflexivity.
  - intros Ho s. unfold regexHit, substringHit.
    rewrite !(ordinary_search term Ho). reflexivity.
Qed.

(** At the sample collection of two students, searched for "rahul":
    the one record that holds the term. *)
Example search_for_rahul :
  records (getStudents (searching "rahul") twoStudents)
  = filter (substringHit "rahul") twoStudents.
Proof.
  destruct (search_takes_priority_over_filters (searching "rahul") twoStudents "rahul")
    as (resp & Hr & _ & Hrows & _ & Hsub); [reflexivity | discriminate | reflexivity |].
  rewrite Hr, (Hrows 1 10) by (try reflexivity; lia).
  rewrite (filter_ext _ _ (Hsub eq_refl)). vm_compute. reflexivity.
Qed.

(** C4 (the search term is handed to the store as a regular
    expression). [searchStudents] passes the term of the request
    unescaped to [$regex], so a character of the term that the
    expression language gives a meaning is not searched for as text.
    On the collection of the one student Rahul Sharma, [GET /] with
    [search=r.h] returns his record, although none of his name, email,
    course and phone contains "r.h": the case-insensitive substring
    search of the claim selects no record here. The same request with
    the course, feeStatus and isActive parameters set returns the same
    record, and a term of letters such as "rah" returns what the
    substring search selects. *)
Theorem search_term_is_a_regular_expression :
  records (getStudents (searching "r.h") oneStudent) = [rahul]
  /\ filter (substringHit "r.h") oneStudent = []
  /\ records (getStudents
                (withFilters (Some "Physics - Class 11") (Some "paid") (Some "false")
                   (searching "r.h"))
                oneStudent) = [rahul]
  /\ records (getStudents (searching "rah") oneStudent)
     = filter (substringHit "rah") oneStudent.
Proof. evaluate. Qed.


(* ================================================================== *)
(** ** The total of a search (C5) *)

(** C5 (the list route counts the filter, not the search). With a
    search term [GET /] returns the records of the search and, as their
    total, the count of the filter object: here one record and a total
    of two, where the search route reports the total one. *)
Theorem list_total_ignores_the_search_term :
  let resp := getStudents (searching "rahul") twoStudents in
  map name (records resp) = [Some "Rahul Sharma"]
  /\ countDocuments (conditions (listQuery (searching "rahul"))) twoStudents = 1
  /\ total resp = Some 2
  /\ total (searchRoute "rahul" None None twoStudents) = Some 1.
Proof.
  evaluate.
Qed.


(* ================================================================== *)
(** ** Validation at the route and in the model (C9, C10) *)

(** C9 (the route does not check the course catalog). A fee amount of
    60000 is rejected by the middleware with a field-level message; a
    course outside the catalog passes the middleware, the handler
    queries the store, and the rejection comes from the validation of
    the model at save, as a 500 answer. *)
Theorem unknown_course_passes_the_middleware :
  (let body := with_b_feeAmount 60000 priyaBody in
   createStudent envB body oneStudent =
   (oneStudent,
    mkResponse 400 false "Validation failed" NoData None
      [("feeAmount", "Fee amount cannot exceed ₹50,000")]))
  /\ (let body := with_b_course "Astrology - Class 5" priyaBody in
      fst (validateStudent body) = []
      /\ findOneByEmail (b_email (snd (validateStudent body))) oneStudent = None
      /\ createStudent envB body oneStudent =
         (oneStudent,
          mkResponse 500 false "Failed to create student" NoData
            (Some "Student validation failed: course: Please select a valid course") [])).
Proof.
  evaluate.
Qed.

(** C10. An address whose last domain label has four characters passes
    [isEmail] and the whole middleware, does not match the pattern of
    the model, and a create with it, when no record has that email, is
    answered 500 by the catch-all branch, with no field errors, and
    stores nothing. *)
Theorem long_domain_label_passes_route_fails_model :
  exists address : string,
    Validator.isEmail address = true
    /\ Text.len (last (Text.split "." address) "") = 4
    /\ Regex.test_anchored emailPattern address = false
    /\ let body := with_b_email address rahulBody in
       fst (validateStudent body) = []
       /\ b_email (snd (validateStudent body)) = Some (EStr address)
       /\ forall env db,
            findOneByEmail (Some (EStr address)) db = None ->
            createStudent env body db =
            (db, mkResponse 500 false "Failed to create student" NoData
                   (Some "Student validation failed: email: Please enter a valid email address")
                   []).
Proof.
  exists "student@school.info". evaluate.
  intros env db Hmiss. unfold createStudent.
  destruct (validateStudent (with_b_email "student@school.info" rahulBody))
    as [errs studentData] eqn:Hv.
  vm_compute in Hv. injection Hv as <- <-.
  cbn [handleValidationErrors b_email]. rewrite Hmiss.
  unfold insertStudent, save.
  match goal with |- context [validate ?w (fields ?d)] =>
    replace (validate w (fields d))
      with [("email", "Please enter a valid email address")]
      by (destruct env; vm_compute; reflexivity)
  end.
  reflexivity.
Qed.


(* ================================================================== *)
(** ** Duplicate emails (C7) *)

Module CreateFacts.

Import Text StudentModel Routes Spec Examples StoreFacts HookFacts WritePaths DeactivateFacts.

Lemma pre_save_email env d : email (fields (pre_save env d)) = email (fields d).
Proof.
  unfold pre_save.
  repeat match goal with |- context [if ?c then _ else _] => destruct c end;
    unfold set_lastFeePayment; rewrite ?fields_assign, ?fields_derive, ?fields_assign; reflexivity.
Qed.

Lemma pending_email env studentData :
  email (pending env studentData) = castEmail (b_email studentData).
Proof. unfold pending. rewrite pre_save_email. reflexivity. Qed.

Lemma optS_eqb_refl v : optS_eqb v v = true.
Proof. destruct v; [apply String.eqb_refl | reflexivity]. Qed.

Lemma optS_eqb_eq a b : optS_eqb a b = true -> a = b.
Proof.
  destruct a, b; cbn [optS_eqb]; try discriminate; [|reflexivity].
  intros H; apply String.eqb_eq in H; congruence.
Qed.

(** The middleware always leaves an email in the body. *)
Lemma validateStudent_email body errs studentData :
  validateStudent body = (errs, studentData) -> exists e, b_email studentData = Some e.
Proof. unfold validateStudent. intros H; injection H as _ <-. eexists; reflexivity. Qed.

(** A lookup by email hits when some record has the email. *)
Lemma findOneByEmail_hit e db s :
  In s db -> email s = castEmail (Some e) ->
  exists found, findOneByEmail (Some e) db = Some found.
Proof.
  intros Hin He. unfold findOneByEmail.
  destruct (find _ db) as [found|] eqn:Hf; [eexists; reflexivity|].
  pose proof (find_none _ _ Hf s Hin) as Hno. cbv beta in Hno.
  rewrite He, optS_eqb_refl in Hno. discriminate.
Qed.

(** The save of [insertStudent], case by case. *)
Lemma insertStudent_cases env studentData db :
  match validate true (fields (construct env studentData)) with
  | [] =>
      if existsb (fun stored => collides (pending env studentData) stored
                               || sameId (pending env studentData) stored) db
      then insertStudent env studentData db = (db, emailExists)
      else insertStudent env studentData db =
           ((db ++ [pending env studentData])%list,
            ok 201 "Student created successfully"
              (OneStudent (Some (pending env studentData))))
  | (_ :: _) as errs =>
      insertStudent env studentData db =
      (db, internalError "Failed to create student"
             (ValidationError "Student validation failed" errs))
  end.
Proof.
  unfold insertStudent, save, pending.
  change (isNew (construct env studentData)) with true. cbn [orb].
  destruct (validate true (fields (construct env studentData))); [|reflexivity].
  destruct (existsb _ db); reflexivity.
Qed.

(** What a 201 answer of the create route tells. *)
Lemma create_201 env body db :
  status (snd (createStudent env body db)) = 201 ->
  exists studentData,
    validateStudent body = ([], studentData)
    /\ findOneByEmail (b_email studentData) db = None
    /\ validate true (fields (construct env studentData)) = []
    /\ existsb (fun stored => collides (pending env studentData) stored
                              || sameId (pending env studentData) stored) db
       = false
    /\ createStudent env body db =
       ((db ++ [pending env studentData])%list,
        ok 201 "Student created successfully" (OneStudent (Some (pending env studentData)))).
Proof.
  unfold createStudent.
  destruct (validateStudent body) as [errs studentData] eqn:Hv.
  destruct errs as [|err errs]; cbn [handleValidationErrors]; [|discriminate].
  destruct (findOneByEmail (b_email studentData) db) eqn:Hf; [discriminate|].
  pose proof (insertStudent_cases env studentData db) as Hi.
  destruct (validate true (fields (construct env studentData))) eqn:Hval.
  - destruct (existsb _ db) eqn:Hex; rewrite Hi; [discriminate|].
    intros _. exists studentData. repeat split; assumption.
  - rewrite Hi. discriminate.
Qed.

(** The steps of a request, case by case. *)
Lemma step_arrive env body studentData db :
  validateStudent body = ([], studentData) ->
  step env (Arrived body) db =
  match findOneByEmail (b_email studentData) db with
  | Some _ => (db, Answered emailExists)
  | None => (db, Checked studentData)
  end.
Proof.
  intros Hv. cbn [step]. rewrite Hv. cbn [handleValidationErrors].
  destruct (findOneByEmail _ db); reflexivity.
Qed.

Lemma step_insert env studentData db :
  step env (Checked studentData) db =
  (fst (insertStudent env studentData db), Answered (snd (insertStudent env studentData db))).
Proof. cbn [step]. destruct (insertStudent env studentData db); reflexivity. Qed.

Lemma pending_id env studentData : _id (pending env studentData) = newObjectId env.
Proof.
  unfold pending.
  rewrite (proj2 (pre_save_isActive _ _)), (proj2 (stamp_isActive _ _)). reflexivity.
Qed.

(** The lookup of the handler: a body that the middleware passes and
    whose email a stored record holds is answered with the conflict,
    whatever else the body carries. *)
Lemma lookup_conflict env body db stored :
  fst (validateStudent body) = [] ->
  In stored db ->
  email stored = castEmail (b_email (snd (validateStudent body))) ->
  createStudent env body db = (db, emailExists).
Proof.
  intros Hv Hin Hem. unfold createStudent.
  destruct (validateStudent body) as [errs data] eqn:E. cbn [fst snd] in *. subst errs.
  cbn [handleValidationErrors].
  destruct (validateStudent_email _ _ _ E) as [e He]. rewrite He in *.
  destruct (findOneByEmail_hit e db stored Hin Hem) as [found ->]. reflexivity.
Qed.

(** The unique index: a save that got past the lookup, of a document
    the schema accepts and whose email a stored record holds, is
    refused by the store and answered with the conflict. *)
Lemma index_conflict env studentData db stored :
  validate true (fields (construct env studentData)) = [] ->
  In stored db ->
  email stored = castEmail (b_email studentData) ->
  insertStudent env studentData db = (db, emailExists).
Proof.
  intros Hval Hin He.
  pose proof (insertStudent_cases env studentData db) as Hi. rewrite Hval in Hi.
  replace (existsb _ db) with true in Hi; [exact Hi|].
  symmetry. apply existsb_exists. exists stored. split; [exact Hin|].
  unfold collides. rewrite pending_email, He, optS_eqb_refl. reflexivity.
Qed.

(** A create that the middleware passes and the schema accepts, on a
    collection that holds neither its email nor its identifier, is
    answered 201. *)
Lemma create_alone env body db :
  fst (validateStudent body) = [] ->
  validate true (fields (construct env (snd (validateStudent body)))) = [] ->
  (forall stored, In stored db ->
     email stored <> castEmail (b_email (snd (validateStudent body)))
     /\ _id stored <> newObjectId env) ->
  status (snd (createStudent env body db)) = 201.
Proof.
  intros Hv Hval Hfresh. unfold createStudent.
  destruct (validateStudent body) as [errs data] eqn:E. cbn [fst snd] in *. subst errs.
  cbn [handleValidationErrors].
  destruct (validateStudent_email _ _ _ E) as [e He].
  destruct (findOneByEmail (b_email data) db) as [found|] eqn:Hf.
  { exfalso. rewrite He in Hf. cbn [findOneByEmail] in Hf.
    apply find_some in Hf as [Hin Heq]. apply optS_eqb_eq in Heq.
    apply (proj1 (Hfresh found Hin)). now rewrite He. }
  pose proof (insertStudent_cases env data db) as Hi. rewrite Hval in Hi.
  replace (existsb _ db) with false in Hi; [rewrite Hi; reflexivity|].
  symmetry. apply not_true_is_false. intros Hex.
  apply existsb_exists in Hex as (stored & Hin & Hhit).
  destruct (Hfresh stored Hin) as [Hmail Hid].
  apply orb_true_iff in Hhit as [Hc|Hs].
  - unfold collides in Hc. apply optS_eqb_eq in Hc. rewrite pending_email in Hc.
    contradiction.
  - unfold sameId in Hs. apply String.eqb_eq in Hs. rewrite pending_id in Hs.
    contradiction.
Qed.

(** The create handler is its two steps, one after the other. *)
Lemma create_is_two_steps env body db :
  let (db1, checked) := step env (Arrived body) db in
  step env checked db1
  = (fst (createStudent env body db), Answered (snd (createStudent env body db))).
Proof.
  unfold createStudent. cbn [step].
  destruct (validateStudent body) as [errs studentData].
  destruct (handleValidationErrors errs); [reflexivity|].
  destruct (findOneByEmail (b_email studentData) db); [reflexivity|].
  apply step_insert.
Qed.

End CreateFacts.

Import CreateFacts.

(** C7, for requests that would each be created alone. A create whose
    body passes the middleware and whose normalized email is the email
    of a stored record, active or not, is answered by the lookup with
    the conflict and changes nothing; a save that got past the lookup
    and meets the email in the store is refused by the unique index,
    and the catch branch gives the duplicate-key error the same answer,
    with the collection as it was. Of two requests with the same
    normalized email, each passed by the middleware and accepted by the
    schema, on a collection that holds neither that email nor their
    identifiers, one is created and the other gets the conflict: one
    after the other in either order, or interleaved at their awaits. *)
Theorem duplicate_email_is_one_conflict env1 env2 a b db :
  fst (validateStudent a) = [] ->
  fst (validateStudent b) = [] ->
  validate true (fields (construct env1 (snd (validateStudent a)))) = [] ->
  validate true (fields (construct env2 (snd (validateStudent b)))) = [] ->
  castEmail (b_email (snd (validateStudent a)))
  = castEmail (b_email (snd (validateStudent b))) ->
  (forall stored, In stored db ->
     email stored <> castEmail (b_email (snd (validateStudent a)))
     /\ _id stored <> newObjectId env1 /\ _id stored <> newObjectId env2) ->
  (forall env' body db' stored,
      fst (validateStudent body) = [] ->
      In stored db' ->
      email stored = castEmail (b_email (snd (validateStudent body))) ->
      createStudent env' body db' = (db', emailExists))
  /\ (forall env' studentData db' stored,
        validate true (fields (construct env' studentData)) = [] ->
        In stored db' ->
        email stored = castEmail (b_email studentData) ->
        insertStudent env' studentData db' = (db', emailExists))
  /\ (forall msg e, code e = Some 11000 -> onWriteError msg e = emailExists)
  /\ (let first := createStudent env1 a db in
      status (snd first) = 201
      /\ fst first = (db ++ [pending env1 (snd (validateStudent a))])%list
      /\ createStudent env2 b (fst first) = (fst first, emailExists))
  /\ (let first := createStudent env2 b db in
      status (snd first) = 201
      /\ fst first = (db ++ [pending env2 (snd (validateStudent b))])%list
      /\ createStudent env1 a (fst first) = (fst first, emailExists))
  /\ (forall schedule, In schedule schedules ->
      let '(db', sa, sb) := interleave env1 env2 schedule (Arrived a) (Arrived b) db in
      (answer sa = Some 201 /\ sb = Answered emailExists
       /\ db' = (db ++ [pending env1 (snd (validateStudent a))])%list)
      \/ (sa = Answered emailExists /\ answer sb = Some 201
          /\ db' = (db ++ [pending env2 (snd (validateStudent b))])%list)).
Proof.
  intros Hva Hvb Hvala0 Hvalb0 Hsame Hfresh.
  assert (Ha : status (snd (createStudent env1 a db)) = 201).
  { apply create_alone; [exact Hva | exact Hvala0 |].
    intros stored Hin. destruct (Hfresh stored Hin) as (H1 & H2 & _). now split. }
  assert (Hb : status (snd (createStudent env2 b db)) = 201).
  { apply create_alone; [exact Hvb | exact Hvalb0 |].
    intros stored Hin. destruct (Hfresh stored Hin) as (H1 & _ & H3).
    rewrite <- Hsame. now split. }
  destruct (create_201 _ _ _ Ha) as (da & Hda & Hma & Hvala & Hfa & Hca).
  destruct (create_201 _ _ _ Hb) as (db0 & Hdb & Hmb & Hvalb & Hfb & Hcb).
  rewrite Hda, Hdb in Hsame. rewrite Hda in Hva. rewrite Hdb in Hvb.
  rewrite ?Hda, ?Hdb. cbn [snd] in *.
  destruct (validateStudent_email _ _ _ Hda) as [ea Hea].
  destruct (validateStudent_email _ _ _ Hdb) as [eb Heb].
  assert (Hma' : email (pending env1 da) = castEmail (b_email db0))
    by (rewrite pending_email; exact Hsame).
  assert (Hmb' : email (pending env2 db0) = castEmail (b_email da))
    by (rewrite pending_email; now symmetry).
  assert (Last : forall (l : Collection) x, In x (l ++ [x])%list)
    by (intros l x; apply in_or_app; right; left; reflexivity).
  split; [|split; [|split; [|split; [|split]]]].
  - intros env' body db' stored. apply lookup_conflict.
  - intros env' studentData db' stored. apply index_conflict.
  - intros msg e He. unfold onWriteError. rewrite He. reflexivity.
  - cbv zeta. split; [exact Ha|]. rewrite Hca. cbn [fst]. split; [reflexivity|].
    apply (lookup_conflict env2 b _ (pending env1 da)); [now rewrite Hdb | apply Last |].
    rewrite Hdb. exact Hma'.
  - cbv zeta. split; [exact Hb|]. rewrite Hcb. cbn [fst]. split; [reflexivity|].
    apply (lookup_conflict env1 a _ (pending env2 db0)); [now rewrite Hda | apply Last |].
    rewrite Hda. exact Hmb'.
  - (* the four kinds of step *)
    assert (A1 : step env1 (Arrived a) db = (db, Checked da))
      by (rewrite (step_arrive _ _ _ _ Hda), Hma; reflexivity).
    assert (B1 : step env2 (Arrived b) db = (db, Checked db0))
      by (rewrite (step_arrive _ _ _ _ Hdb), Hmb; reflexivity).
    pose proof (insertStudent_cases env1 da db) as IA. rewrite Hvala, Hfa in IA.
    pose proof (insertStudent_cases env2 db0 db) as IB. rewrite Hvalb, Hfb in IB.
    assert (A2 : step env1 (Checked da) db =
                 ((db ++ [pending env1 da])%list,
                  Answered (ok 201 "Student created successfully"
                              (OneStudent (Some (pending env1 da))))))
      by (rewrite step_insert, IA; reflexivity).
    assert (B2 : step env2 (Checked db0) db =
                 ((db ++ [pending env2 db0])%list,
                  Answered (ok 201 "Student created successfully"
                              (OneStudent (Some (pending env2 db0))))))
      by (rewrite step_insert, IB; reflexivity).
    assert (A1' : step env1 (Arrived a) (db ++ [pending env2 db0])%list =
                  ((db ++ [pending env2 db0])%list, Answered emailExists)).
    { rewrite (step_arrive _ _ _ _ Hda), Hea.
      destruct (findOneByEmail_hit ea (db ++ [pending env2 db0])%list (pending env2 db0))
        as [found ->]; [apply Last | now rewrite <- Hea | reflexivity]. }
    assert (B1' : step env2 (Arrived b) (db ++ [pending env1 da])%list =
                  ((db ++ [pending env1 da])%list, Answered emailExists)).
    { rewrite (step_arrive _ _ _ _ Hdb), Heb.
      destruct (findOneByEmail_hit eb (db ++ [pending env1 da])%list (pending env1 da))
        as [found ->]; [apply Last | now rewrite <- Heb | reflexivity]. }
    assert (A2' : step env1 (Checked da) (db ++ [pending env2 db0])%list =
                  ((db ++ [pending env2 db0])%list, Answered emailExists)).
    { rewrite step_insert,
        (index_conflict env1 da _ (pending env2 db0) Hvala (Last _ _) Hmb').
      reflexivity. }
    assert (B2' : step env2 (Checked db0) (db ++ [pending env1 da])%list =
                  ((db ++ [pending env1 da])%list, Answered emailExists)).
    { rewrite step_insert,
        (index_conflict env2 db0 _ (pending env1 da) Hvalb (Last _ _) Hma').
      reflexivity. }
    intros schedule Hin. unfold schedules in Hin. cbn [In] in Hin.
    repeat (destruct Hin as [<-|Hin]); [..|destruct Hin]; cbn [interleave];
      repeat first [rewrite A1 | rewrite B1 | rewrite A2 | rewrite B2
                   | rewrite A1' | rewrite B1' | rewrite A2' | rewrite B2'];
      cbn [answer status ok];
      first [left; repeat split; reflexivity | right; repeat split; reflexivity].
Qed.

(** C7 at two requests whose emails differ in case only, on the
    collection of the five students of a course. *)
Lemma duplicate_email_example :
  let a := rahulBody in
  let b := with_b_email "RAHUL.Sharma@Email.com" priyaBody in
  (status (snd (createStudent envA a physicsClass)) = 201
   /\ createStudent envB b (fst (createStudent envA a physicsClass))
      = (fst (createStudent envA a physicsClass), emailExists))
  /\ (status (snd (createStudent envB b physicsClass)) = 201
      /\ createStudent envA a (fst (createStudent envB b physicsClass))
         = (fst (createStudent envB b physicsClass), emailExists)).
Proof.
  cbv zeta.
  destruct (duplicate_email_is_one_conflict envA envB rahulBody
              (with_b_email "RAHUL.Sharma@Email.com" priyaBody) physicsClass)
    as (_ & _ & _ & (H3 & _ & H3') & (H4 & _ & H4') & _).
  - vm_compute; reflexivity.
  - vm_compute; reflexivity.
  - vm_compute; reflexivity.
  - vm_compute; reflexivity.
  - vm_compute; reflexivity.
  - intros stored Hin.
    replace physicsClass
      with [physicsStudent "1"; physicsStudent "2"; physicsStudent "3";
            physicsStudent "4"; physicsStudent "5"] in Hin by reflexivity.
    cbn [In] in Hin.
    repeat (destruct Hin as [<-|Hin]); [..|destruct Hin];
      (split; [|split]); vm_compute; discriminate.
  - split; split; assumption.
Defined.

(** C7 as stated fails for a body that would not be created alone. A
    body with the email of a stored record and a malformed phone number
    is refused by the middleware with 400, not with the conflict. Of
    two bodies with the same normalized email that both pass the
    middleware, one of them with a course outside the catalog, the
    order decides: the good one first is created and the other gets the
    conflict of the lookup, while the other one first fails in the
    schema and the good one is then created, with no conflict at all.
    And two good bodies whose email the collection holds already get
    the conflict both, with no success. *)
Lemma duplicate_email_of_a_refused_body :
  let a := rahulBody in
  let b := with_b_course "Astrology - Class 5"
             (with_b_email "RAHUL.Sharma@Email.com" priyaBody) in
  let c := with_b_phone "98765-43210" rahulBody in
  let d := with_b_email "RAHUL.Sharma@Email.com" priyaBody in
  (fst (validateStudent a) = [] /\ fst (validateStudent b) = []
   /\ castEmail (b_email (snd (validateStudent a)))
      = castEmail (b_email (snd (validateStudent b))))
  /\ (status (snd (createStudent envA a [])) = 201
      /\ status (snd (createStudent envB b (fst (createStudent envA a [])))) = 409)
  /\ (status (snd (createStudent envB b [])) = 500
      /\ status (snd (createStudent envA a (fst (createStudent envB b [])))) = 201)
  /\ (email rahul = castEmail (b_email (snd (validateStudent c)))
      /\ status (snd (createStudent envB c oneStudent)) = 400)
  /\ (email rahul = castEmail (b_email (snd (validateStudent d)))
      /\ status (snd (createStudent envB a oneStudent)) = 409
      /\ status (snd (createStudent envB d oneStudent)) = 409).
Proof. evaluate. Qed.


(* ================================================================== *)
(** ** Invariants of the collection *)

Module Invariants.

Import Text StudentModel Routes Spec Examples StoreFacts HookFacts DeactivateFacts.

(** Where a save leaves the collection. *)
Lemma save_collection env d db db' r :
  save env d db = (db', r) ->
  db' = db
  \/ exists d', r = inr d'
       /\ ((db' = (db ++ [fields d'])%list
            /\ existsb (sameId (fields d')) db = false)
           \/ exists s, db' = replaceById s db
                /\ s = with_nextFeePayment (nextFeePayment s) (fields d')).
Proof.
  unfold save. destruct (validate _ _); [|intros H; injection H as <- _; now left].
  destruct (isNew d).
  - destruct (existsb _ db) eqn:Hex; intros H; injection H as <- <-; [now left|].
    right. eexists; split; [reflexivity|]. left. split; [reflexivity|]. cbn [hydrate fields].
    apply not_true_is_false. intros Hid. apply existsb_exists in Hid.
    destruct Hid as (x & Hx & Hid).
    assert (existsb (fun stored =>
              collides (fields (pre_save env (stamp env d))) stored
              || sameId (fields (pre_save env (stamp env d))) stored) db = true).
    { apply existsb_exists. exists x. split; [exact Hx|]. rewrite Hid. apply orb_true_r. }
    congruence.
  - destruct (modifiedPaths _); [intros H; injection H as <- _; now left|].
    destruct (existsb _ db); intros H; injection H as <- <-; [now left|].
    right. eexists; split; [reflexivity|]. right. eexists. split; [reflexivity|].
    cbn [hydrate fields]. apply persisted_paths.
Qed.

Lemma replaceById_ids s db : map _id (replaceById s db) = map _id db.
Proof.
  unfold replaceById. rewrite map_map. apply map_ext. intros x.
  destruct (String.eqb (_id x) (_id s)) eqn:E; [|reflexivity].
  apply String.eqb_eq in E. congruence.
Qed.

Lemma replaceById_forall (P : Student -> Prop) s db :
  (forall x, In x db -> P x) -> P s -> forall x, In x (replaceById s db) -> P x.
Proof.
  intros Hdb Hs x Hx. unfold replaceById in Hx. apply in_map_iff in Hx.
  destruct Hx as (y & <- & Hy). destruct (String.eqb (_id y) (_id s)); auto.
Qed.

(** Every write that goes through [save] keeps the identifiers unique
    and leaves no paid record without a payment date. *)
Lemma save_invariants env d db db' r :
  NoDup (map _id db) /\ (forall x, In x db -> paidHasPayment x) ->
  save env d db = (db', r) ->
  NoDup (map _id db') /\ (forall x, In x db' -> paidHasPayment x).
Proof.
  intros [Hnd Hpaid] Hs.
  destruct (save_collection _ _ _ _ _ Hs)
    as [->|(d' & -> & [[-> Hfresh]|(s & -> & Hpers)])].
  - now split.
  - split.
    + rewrite map_app. cbn [map].
      apply Permutation_NoDup with (l := _id (fields d') :: map _id db).
      * apply Permutation_cons_append.
      * constructor; [|exact Hnd]. intros Hin. apply in_map_iff in Hin.
        destruct Hin as (x & Hid & Hx).
        assert (existsb (sameId (fields d')) db = true).
        { apply existsb_exists. exists x. split; [exact Hx|].
          unfold sameId. rewrite Hid. apply String.eqb_refl. }
        congruence.
    + intros x Hx. apply in_app_or in Hx. destruct Hx as [Hx|[<-|[]]]; [now apply Hpaid|].
      eapply save_paid, Hs.
  - split; [now rewrite replaceById_ids|].
    apply replaceById_forall; [exact Hpaid|].
    pose proof (save_paid _ _ _ _ _ Hs) as Hd'. rewrite Hpers. exact Hd'.
Qed.

(** The routes that write through [save], create, deactivate and
    mark-fee-paid, and the model's mark-fee-overdue. *)
Theorem save_routes_keep_invariants env db :
  NoDup (map _id db) /\ (forall x, In x db -> paidHasPayment x) ->
  (forall body,
      let db' := fst (createStudent env body db) in
      NoDup (map _id db') /\ (forall x, In x db' -> paidHasPayment x))
  /\ (forall id,
      let db' := fst (deactivateStudent env id db) in
      NoDup (map _id db') /\ (forall x, In x db' -> paidHasPayment x))
  /\ (forall id,
      let db' := fst (markStudentFeePaid env id db) in
      NoDup (map _id db') /\ (forall x, In x db' -> paidHasPayment x))
  /\ (forall d,
      let db' := fst (markFeeOverdue env d db) in
      NoDup (map _id db') /\ (forall x, In x db' -> paidHasPayment x)).
Proof.
  intros Hinv.
  assert (With : forall id method done failed,
             (forall d db' r, method d db = (db', r) ->
                NoDup (map _id db') /\ (forall x, In x db' -> paidHasPayment x)) ->
             let db' := fst (withStudent id db method done failed) in
             NoDup (map _id db') /\ (forall x, In x db' -> paidHasPayment x)).
  { intros id method done failed Hm. unfold withStudent.
    destruct (handleValidationErrors _); [exact Hinv|].
    destruct (findById id db) as [e|[old|]]; try exact Hinv.
    destruct (method (hydrate old) db) as [db1 [e|saved]] eqn:E; cbn [fst];
      apply (Hm _ _ _ E). }
  split; [|split; [|split]]; cycle 3.
  { intros d. cbv zeta. destruct (markFeeOverdue env d db) as [db' r] eqn:E.
    apply (save_invariants _ _ _ _ _ Hinv E). }
  - intros body. unfold createStudent.
    destruct (validateStudent body) as [errs studentData].
    destruct (handleValidationErrors errs); [exact Hinv|].
    destruct (findOneByEmail _ db); [exact Hinv|].
    unfold insertStudent.
    destruct (save env (construct env studentData) db) as [db1 [e|saved]] eqn:E; cbn [fst];
      apply (save_invariants _ _ _ _ _ Hinv E).
  - intros id. unfold deactivateStudent. apply (With id (deactivate env)).
    intros d db' r. apply save_invariants, Hinv.
  - intros id. unfold markStudentFeePaid. apply (With id (markFeePaid env)).
    intros d db' r. apply save_invariants, Hinv.
Qed.

(** The other two writes keep the identifiers unique as well. *)
Lemma update_keeps_ids env id body db :
  map _id (fst (updateStudent env id body db)) = map _id db.
Proof.
  unfold updateStudent. destruct (validateStudentUpdate body) as [errs updateData].
  destruct (handleValidationErrors _); [reflexivity|].
  destruct (findById id db) as [e|[student|]]; try reflexivity.
  destruct (emailChanges updateData student && _); [reflexivity|].
  destruct (findByIdAndUpdate env id updateData db) as [db' [e|[s|]]] eqn:E; cbn [fst].
  - unfold findByIdAndUpdate in E. destruct (castObjectId id); [injection E as <- _; reflexivity|].
    destruct (validateUpdate updateData); [|injection E as <- _; reflexivity].
    destruct (find _ db); [|discriminate].
    destruct (existsb _ db); [injection E as <- _; reflexivity | discriminate].
  - destruct (findByIdAndUpdate_fields _ _ _ _ _ _ E) as (old & _ & _ & ->).
    apply replaceById_ids.
  - unfold findByIdAndUpdate in E. destruct (castObjectId id); [discriminate|].
    destruct (validateUpdate updateData); [|discriminate].
    destruct (find _ db); [|injection E as <-; reflexivity].
    destruct (existsb _ db); discriminate.
Qed.

Lemma delete_keeps_ids_unique id db :
  NoDup (map _id db) -> NoDup (map _id (fst (deleteStudent id db))).
Proof.
  intros Hnd. unfold deleteStudent.
  destruct (handleValidationErrors _); [exact Hnd|].
  destruct (findById id db) as [e|[student|]]; try exact Hnd.
  unfold findByIdAndDelete. destruct (castObjectId id) as [e|oid]; [exact Hnd|].
  destruct (find _ db); [|exact Hnd]. cbn [fst].
  clear -Hnd. induction db as [|x db IH]; [exact Hnd|].
  cbn [map] in Hnd. inversion Hnd as [|? ? Hnot Hnd']; subst.
  destruct (String.eqb (_id x) oid); [exact Hnd'|].
  cbn [map]. constructor; [|now apply IH].
  intros Hin. apply Hnot. apply in_map_iff in Hin. destruct Hin as (y & Hy & Hin).
  rewrite <- Hy. apply in_map. clear -Hin.
  induction db as [|z db IH]; [destruct Hin|].
  destruct (String.eqb (_id z) oid); [now right|].
  destruct Hin as [->|Hin]; [now left | right; now apply IH].
Qed.

End Invariants.


(* ================================================================== *)
(** ** The two validation chains of the middleware *)

Module Layers.

Import Text Regex StudentModel Routes Laws.

Lemma check_passes path msg b : check path msg b = [] -> b = true.
Proof. destruct b; [reflexivity | discriminate]. Qed.

(** X2. A body that the create middleware accepts is accepted by the
    update middleware too, and both leave the same sanitized body. *)
Theorem create_validation_implies_update_validation body data :
  validateStudent body = ([], data) -> validateStudentUpdate body = ([], data).
Proof.
  unfold validateStudent. intros H. injection H as He <-.
  apply app_eq_nil in He as [N1 He]. apply app_eq_nil in He as [N2 He].
  apply app_eq_nil in He as [E He]. apply app_eq_nil in He as [P He].
  apply app_eq_nil in He as [A1 He]. apply app_eq_nil in He as [A2 He].
  apply app_eq_nil in He as [C He]. apply app_eq_nil in He as [B He].
  apply app_eq_nil in He as [F1 He]. apply app_eq_nil in He as [F2 He].
  apply app_eq_nil in He as [S He]. apply app_eq_nil in He as [G1 He].
  apply app_eq_nil in He as [G2 He]. apply app_eq_nil in He as [GP NT].
  destruct body as [bn be bp ba bc bb bf bs bj bg bgp bnt bi bl bx].
  cbn [b_name b_email b_phone b_address b_course b_batchTime b_feeAmount b_feeStatus
       b_joinDate b_guardianName b_guardianPhone b_notes b_isActive b_lastFeePayment
       b_nextFeePayment] in *.
  destruct bn as [n|]; [|vm_compute in N1; discriminate N1].
  destruct be as [e|]; [|vm_compute in E; discriminate E].
  destruct ba as [a|]; [|vm_compute in A1; discriminate A1].
  destruct bb as [bt|]; [|vm_compute in B; discriminate B].
  destruct bg as [g|]; [|vm_compute in G1; discriminate G1].
  destruct bp as [p|]; [|vm_compute in P; discriminate P].
  destruct bgp as [gp|]; [|vm_compute in GP; discriminate GP].
  destruct bc as [c|]; [|vm_compute in C; discriminate C].
  destruct bf as [f|]; [|vm_compute in F1; discriminate F1].
  unfold validateStudentUpdate.
  cbn [b_name b_email b_phone b_address b_course b_batchTime b_feeAmount b_feeStatus
       b_joinDate b_guardianName b_guardianPhone b_notes b_isActive b_lastFeePayment
       b_nextFeePayment option_map].
  cbn [text orElse option_map] in *.
  apply check_passes in N1, N2, E, P, A1, A2, C, B, F1, G1, G2, GP.
  cbn [optional text orElse].
  rewrite N1, N2, E, P, A1, A2, C, B, F1, F2, G1, G2, GP.
  unfold check at 1 2 3 4 5 6 7 8 9. cbn [app].
  assert (S' : optional bs
                 (check "feeStatus" "Fee status must be paid, pending, or overdue"
                    (Validator.isIn ["paid"; "pending"; "overdue"] (text bs))) = [])
    by exact S.
  rewrite S'. unfold check at 1 2 3. cbn [app]. rewrite NT. reflexivity.
Qed.

(** X2 at the first sample body. *)
Lemma create_validation_implies_update_validation_example :
  fst (validateStudentUpdate Examples.rahulBody) = [].
Proof.
  rewrite (create_validation_implies_update_validation Examples.rahulBody
             (snd (validateStudent Examples.rahulBody))); [reflexivity|].
  vm_compute. reflexivity.
Defined.

End Layers.


(* ================================================================== *)
(** ** Documents the schema accepts *)

Module ValidFacts.

Import Text Regex StudentModel Routes Laws.

Local Open Scope list_scope.

Lemma app_nil_iff {A} (l l' : list A) : l ++ l' = [] <-> l = [] /\ l' = [].
Proof.
  split; [apply app_eq_nil | intros [-> ->]; reflexivity].
Qed.

Lemma path_error_nil path checks : path_error path checks = [] <-> first_failure checks = None.
Proof.
  unfold path_error. destruct (first_failure checks); split; intros H;
    try reflexivity; discriminate H.
Qed.

Lemma first_failure_cons m b rest :
  first_failure ((m, b) :: rest) = None <-> b = true /\ first_failure rest = None.
Proof.
  cbn [first_failure]. destruct b; split.
  - auto.
  - now intros [_ H].
  - discriminate.
  - intros [H _]. discriminate H.
Qed.

(** Validation, path by path. *)
Lemma validate_nil withNotes s :
  validate withNotes s = [] <->
  first_failure (nameChecks (name s)) = None
  /\ first_failure (emailChecks (email s)) = None
  /\ first_failure (phoneChecks (phone s)) = None
  /\ first_failure (addressChecks (address s)) = None
  /\ first_failure (courseChecks (course s)) = None
  /\ first_failure (batchTimeChecks (batchTime s)) = None
  /\ first_failure (feeAmountChecks (feeAmount s)) = None
  /\ first_failure (feeStatusChecks (feeStatus s)) = None
  /\ first_failure (guardianNameChecks (guardianName s)) = None
  /\ first_failure (guardianPhoneChecks (guardianPhone s)) = None
  /\ (withNotes = true -> first_failure (notesChecks (notes s)) = None).
Proof.
  unfold validate. rewrite !app_nil_iff, !path_error_nil.
  destruct withNotes.
  - rewrite path_error_nil. intuition.
  - intuition discriminate.
Qed.

(** Validation reads the eleven validated paths and nothing else. *)
Lemma validate_ext withNotes a b :
  name a = name b -> email a = email b -> phone a = phone b -> address a = address b ->
  course a = course b -> batchTime a = batchTime b -> feeAmount a = feeAmount b ->
  feeStatus a = feeStatus b -> guardianName a = guardianName b ->
  guardianPhone a = guardianPhone b -> notes a = notes b ->
  validate withNotes a = validate withNotes b.
Proof. unfold validate. now intros -> -> -> -> -> -> -> -> -> -> ->. Qed.

Lemma valid_without_notes s : valid s -> validate false s = [].
Proof.
  unfold valid. rewrite !validate_nil. intuition discriminate.
Qed.

Lemma string_mem_In x l : string_mem x l = true <-> In x l.
Proof.
  induction l as [|y l IH]; cbn [string_mem In]; [split; [discriminate|tauto]|].
  rewrite orb_true_iff, IH, String.eqb_eq. split; intros [H|H]; auto.
Qed.

Lemma valid_feeStatus s : valid s -> In (feeStatus s) feeStatusValues.
Proof.
  unfold valid. rewrite validate_nil. intros (_ & _ & _ & _ & _ & _ & _ & H & _).
  unfold feeStatusChecks in H. rewrite !first_failure_cons in H.
  apply string_mem_In. tauto.
Qed.

Lemma valid_course s : valid s -> exists c, course s = Some c /\ In c courseValues.
Proof.
  unfold valid. rewrite validate_nil. intros (_ & _ & _ & _ & H & _).
  unfold courseChecks in H. rewrite !first_failure_cons in H.
  destruct H as (Hp & Hm & _). destruct (course s) as [c|]; [|discriminate Hp].
  exists c. split; [reflexivity|]. apply string_mem_In. exact Hm.
Qed.

Lemma valid_feeAmount s : valid s -> exists z, feeAmount s = Some z /\ 0 <= z <= 50000.
Proof.
  unfold valid. rewrite validate_nil. intros (_ & _ & _ & _ & _ & _ & H & _).
  unfold feeAmountChecks in H. rewrite !first_failure_cons in H.
  destruct H as (Hp & Hlo & Hhi & _). destruct (feeAmount s) as [z|]; [|discriminate Hp].
  cbn [on_number] in Hlo, Hhi. apply Z.leb_le in Hlo, Hhi. exists z. auto.
Qed.

End ValidFacts.


(* ================================================================== *)
(** ** The dashboard *)

Module StatsFacts.

Import Text StudentModel Routes Laws Stats QueryFacts CreateFacts ValidFacts.

Local Open Scope list_scope.

Lemma eval_active s : eval active s = isActive s.
Proof.
  unfold active. rewrite eval_And_cons, eval_And_nil, eval_isActive.
  destruct (isActive s); reflexivity.
Qed.

Lemma eval_activeWith st s :
  eval (activeWith st) s = String.eqb (feeStatus s) st && isActive s.
Proof.
  unfold activeWith. rewrite !eval_And_cons, eval_And_nil, eval_isActive, eval_feeStatus.
  destruct (isActive s); reflexivity.
Qed.

Lemma select_ext c (p : Student -> bool) db :
  (forall s, eval c s = p s) -> select c db = filter p db.
Proof. intros H. unfold select. apply filter_ext. exact H. Qed.

Lemma optS_eqb_iff a b : optS_eqb a b = true <-> a = b.
Proof. split; [apply optS_eqb_eq | intros ->; apply optS_eqb_refl]. Qed.

Lemma optS_eqb_neq a b : a <> b -> optS_eqb a b = false.
Proof.
  intros H. destruct (optS_eqb a b) eqn:E; [|reflexivity].
  apply optS_eqb_eq in E. contradiction.
Qed.

(** *** Grouping *)

Lemma bump_keys k g :
  NoDup (map fst g) -> NoDup (map fst (bump k g)) /\ incl (map fst g) (map fst (bump k g))
  /\ incl (map fst (bump k g)) (k :: map fst g).
Proof.
  induction g as [|[c n] g IH]; cbn [bump map fst]; intros Hnd.
  - split; [constructor; [intros []|constructor]|]. split; [intros x [] | apply incl_refl].
  - inversion Hnd as [|? ? Hnot Hnd']; subst.
    destruct (optS_eqb c k) eqn:E; cbn [map fst].
    + split; [exact Hnd|]. split; [apply incl_refl | apply incl_tl, incl_refl].
    + destruct (IH Hnd') as (H1 & H2 & H3). split; [|split].
      * constructor; [|exact H1]. intros Hin. apply H3 in Hin. destruct Hin as [<-|Hin].
        -- now rewrite optS_eqb_refl in E.
        -- contradiction.
      * intros x [<-|Hx]; [now left | right; now apply H2].
      * intros x [<-|Hx]; [right; now left|]. apply H3 in Hx.
        destruct Hx as [<-|Hx]; [now left | right; now right].
Qed.

Lemma weight_bump c k g :
  weight c (bump k g) = weight c g + (if optS_eqb k c then 1 else 0).
Proof.
  induction g as [|[c0 n0] g IH]; cbn [bump weight fold_right fst snd].
  - destruct (optS_eqb k c); lia.
  - destruct (optS_eqb c0 k) eqn:E; cbn [weight fold_right fst snd].
    + apply optS_eqb_eq in E. subst c0. fold (weight c g). destruct (optS_eqb k c); lia.
    + fold (weight c g) (weight c (bump k g)). rewrite IH. lia.
Qed.

Lemma counted_bump k g : counted (bump k g) = counted g + 1.
Proof.
  induction g as [|[c0 n0] g IH]; cbn [bump counted fold_right snd]; [lia|].
  destruct (optS_eqb c0 k); cbn [counted fold_right snd].
  - fold (counted g). lia.
  - fold (counted g) (counted (bump k g)). rewrite IH. lia.
Qed.

Lemma positive_bump k g :
  Forall (fun x => 1 <= snd x) g -> Forall (fun x => 1 <= snd x) (bump k g).
Proof.
  induction 1 as [|[c0 n0] g Hx Hg IH]; cbn [bump].
  - constructor; [cbn; lia | constructor].
  - cbn [snd] in Hx. destruct (optS_eqb c0 k); constructor; cbn [snd]; auto; lia.
Qed.

(** With distinct keys, an entry holds the whole weight of its key. *)
Lemma weight_In c n g : NoDup (map fst g) -> In (c, n) g -> weight c g = n.
Proof.
  induction g as [|[c0 n0] g IH]; [intros _ []|].
  cbn [map fst]. intros Hnd [E|Hin]; inversion Hnd as [|? ? Hnot Hnd']; subst;
    cbn [weight fold_right fst snd]; fold (weight c g).
  - injection E as -> ->. rewrite optS_eqb_refl.
    assert (H0 : weight c g = 0).
    { clear -Hnot. induction g as [|[c1 n1] g IH]; [reflexivity|].
      cbn [weight fold_right fst snd]. fold (weight c g).
      rewrite optS_eqb_neq by (intros ->; apply Hnot; now left).
      rewrite IH; [reflexivity|]. intros Hin. apply Hnot. now right. }
    lia.
  - rewrite optS_eqb_neq.
    + rewrite (IH Hnd' Hin). lia.
    + intros ->. apply Hnot. apply in_map_iff. exists (c, n). auto.
Qed.

(** What the grouping stage holds after the documents [docs], started
    from the groups [g]. *)
Lemma grouping docs : forall g,
  NoDup (map fst g) -> Forall (fun x => 1 <= snd x) g ->
  let out := fold_left (fun groups s => bump (course s) groups) docs g in
  NoDup (map fst out) /\ Forall (fun x => 1 <= snd x) out
  /\ counted out = counted g + Z.of_nat (List.length docs)
  /\ forall c, weight c out
               = weight c g
                 + Z.of_nat (List.length (filter (fun s => optS_eqb (course s) c) docs)).
Proof.
  induction docs as [|s docs IH]; intros g Hnd Hpos; cbn [fold_left].
  - cbn [List.length filter]. repeat split; auto; intros; lia.
  - destruct (IH (bump (course s) g)) as (H1 & H2 & H3 & H4).
    + apply bump_keys, Hnd.
    + apply positive_bump, Hpos.
    + cbv zeta in *. split; [exact H1|]. split; [exact H2|]. split.
      * rewrite H3, counted_bump. cbn [List.length]. lia.
      * intros c. rewrite H4, weight_bump. cbn [filter].
        destruct (optS_eqb (course s) c); cbn [List.length]; lia.
Qed.

(** *** Sorting *)

Lemma insertByCount_perm g l : Permutation (insertByCount g l) (g :: l).
Proof.
  induction l as [|h t IH]; cbn [insertByCount]; [reflexivity|].
  destruct (snd h <=? snd g); [reflexivity|].
  rewrite IH. apply perm_swap.
Qed.

Lemma sortByCount_perm l : Permutation (sortByCount l) l.
Proof.
  induction l as [|g l IH]; [reflexivity|]. cbn [sortByCount fold_right].
  fold (sortByCount l). rewrite insertByCount_perm. now constructor.
Qed.

Lemma insertByCount_sorted g l :
  StronglySorted (fun a b => snd b <= snd a) l ->
  StronglySorted (fun a b => snd b <= snd a) (insertByCount g l).
Proof.
  induction 1 as [|h t Ht IH Hh]; cbn [insertByCount].
  - constructor; constructor.
  - destruct (Z.leb_spec (snd h) (snd g)).
    + constructor; [now constructor|]. constructor; [exact H|].
      rewrite Forall_forall in *. intros x Hx. specialize (Hh x Hx). lia.
    + constructor; [exact IH|]. rewrite Forall_forall in *. intros x Hx.
      apply (Permutation_in _ (insertByCount_perm g t)) in Hx.
      destruct Hx as [<-|Hx]; [lia | now apply Hh].
Qed.

Lemma sortByCount_sorted l : StronglySorted (fun a b => snd b <= snd a) (sortByCount l).
Proof.
  induction l as [|g l IH]; [constructor|]. cbn [sortByCount fold_right].
  apply insertByCount_sorted, IH.
Qed.

Lemma weight_perm c l l' : Permutation l l' -> weight c l = weight c l'.
Proof.
  induction 1 as [|x l l' _ IH|x y l|l l' l'' _ IH1 _ IH2]; cbn [weight fold_right].
  - reflexivity.
  - fold (weight c l) (weight c l'). lia.
  - fold (weight c l). lia.
  - congruence.
Qed.

Lemma counted_perm l l' : Permutation l l' -> counted l = counted l'.
Proof.
  induction 1 as [|x l l' _ IH|x y l|l l' l'' _ IH1 _ IH2]; cbn [counted fold_right].
  - reflexivity.
  - fold (counted l) (counted l'). lia.
  - fold (counted l). lia.
  - congruence.
Qed.

Lemma filter_filter {A} (p q : A -> bool) l :
  filter p (filter q l) = filter (fun x => q x && p x) l.
Proof.
  induction l as [|x l IH]; [reflexivity|]. cbn [filter].
  destruct (q x); cbn [filter andb]; [destruct (p x)|]; now rewrite IH.
Qed.

(** X3. The course distribution of the dashboard lists every course
    that has an active student exactly once, with the number of active
    students enrolled in it, the larger counts first; the counts add up
    to the total number of students that the dashboard reports. *)
Theorem course_distribution_counts_active_students db :
  let stats := getDashboardStats db in
  NoDup (map fst (courseDistribution stats))
  /\ (forall c n, In (c, n) (courseDistribution stats) -> n = enrolled c db /\ 1 <= n)
  /\ (forall s, In s db -> isActive s = true ->
        In (course s, enrolled (course s) db) (courseDistribution stats))
  /\ StronglySorted (fun a b => snd b <= snd a) (courseDistribution stats)
  /\ counted (courseDistribution stats) = totalStudents stats.
Proof.
  cbv zeta. unfold getDashboardStats. cbn [courseDistribution totalStudents].
  unfold groupByCourse, countDocuments.
  rewrite (select_ext active isActive db eval_active).
  destruct (grouping (filter isActive db) [] (NoDup_nil _) (Forall_nil _))
    as (Hnd & Hpos & Hsum & Hw).
  cbv zeta in Hnd, Hpos, Hsum, Hw.
  set (groups := fold_left (fun groups s => bump (course s) groups) (filter isActive db) [])
    in *.
  pose proof (sortByCount_perm groups) as Hperm.
  assert (Hen : forall c, weight c groups = enrolled c db).
  { intros c. rewrite Hw. unfold enrolled. rewrite filter_filter. cbn. lia. }
  split; [|split; [|split; [|split]]].
  - apply (Permutation_NoDup (l := map fst groups)); [|exact Hnd].
    apply Permutation_map. now symmetry.
  - intros c n Hin. apply (Permutation_in _ Hperm) in Hin. split.
    + rewrite <- Hen. symmetry. now apply weight_In.
    + rewrite Forall_forall in Hpos. apply (Hpos (c, n) Hin).
  - intros s Hs Hact.
    assert (Hpos' : 1 <= weight (course s) groups).
    { rewrite Hen. unfold enrolled.
      assert (Hmem : In s (filter (fun x => isActive x && optS_eqb (course x) (course s)) db)).
      { apply filter_In. split; [exact Hs|]. now rewrite Hact, optS_eqb_refl. }
      revert Hmem.
      generalize (filter (fun x => isActive x && optS_eqb (course x) (course s)) db).
      intros [|y l] Hmem; [destruct Hmem|]. cbn [List.length]. lia. }
    assert (Hex : exists n, In (course s, n) groups).
    { clear -Hpos'. induction groups as [|[c0 n0] g IH].
      - cbn in Hpos'. lia.
      - cbn [weight fold_right fst snd] in Hpos'. fold (weight (course s) g) in Hpos'.
        destruct (optS_eqb c0 (course s)) eqn:E.
        + apply optS_eqb_eq in E. subst c0. exists n0. now left.
        + destruct IH as [n Hn]; [lia|]. exists n. now right. }
    destruct Hex as [n Hn]. rewrite <- Hen, (weight_In _ _ _ Hnd Hn).
    apply (Permutation_in _ (Permutation_sym Hperm)), Hn.
  - apply sortByCount_sorted.
  - rewrite (counted_perm _ _ Hperm), Hsum. cbn [counted fold_right]. lia.
Qed.

Lemma select_activeWith st db :
  select (activeWith st) db = filter (fun s => String.eqb (feeStatus s) st && isActive s) db.
Proof. apply select_ext. intros s. apply eval_activeWith. Qed.

Lemma select_active db : select active db = filter isActive db.
Proof. apply select_ext, eval_active. Qed.

(** X4. The three fee counts of the dashboard never exceed its total,
    and they add up to it when every stored document is one the schema
    accepts. *)
Theorem fee_counts_split_the_total db :
  let stats := getDashboardStats db in
  paidFees stats + pendingFees stats + overdueFees stats <= totalStudents stats
  /\ ((forall s, In s db -> valid s) ->
      paidFees stats + pendingFees stats + overdueFees stats = totalStudents stats).
Proof.
  cbv zeta. unfold getDashboardStats.
  cbn [paidFees pendingFees overdueFees totalStudents].
  unfold countDocuments. rewrite !select_activeWith, select_active.
  split.
  - induction db as [|s db IH]; [cbn; lia|]. cbn [filter].
    destruct (isActive s); rewrite ?andb_false_r, ?andb_true_r; [|exact IH].
    destruct (String.eqb_spec (feeStatus s) "paid") as [E1|N1];
      destruct (String.eqb_spec (feeStatus s) "pending") as [E2|N2];
      destruct (String.eqb_spec (feeStatus s) "overdue") as [E3|N3];
      try congruence; cbn [List.length]; lia.
  - intros Hvalid. induction db as [|s db IH]; [reflexivity|].
    assert (IH' := IH (fun x Hx => Hvalid x (or_intror Hx))). clear IH.
    pose proof (valid_feeStatus s (Hvalid s (or_introl eq_refl))) as Hfs.
    cbn [filter].
    destruct (isActive s); rewrite ?andb_false_r, ?andb_true_r; [|exact IH'].
    destruct (String.eqb_spec (feeStatus s) "paid") as [E1|N1];
      destruct (String.eqb_spec (feeStatus s) "pending") as [E2|N2];
      destruct (String.eqb_spec (feeStatus s) "overdue") as [E3|N3];
      try congruence; cbn [List.length]; try lia.
    exfalso. destruct Hfs as [H|[H|[H|[]]]]; congruence.
Qed.

Lemma sumFees_bounds docs :
  (forall s, In s docs -> valid s) ->
  0 <= sumFees docs <= 50000 * Z.of_nat (List.length docs).
Proof.
  induction docs as [|s docs IH]; intros Hvalid; [cbn; lia|].
  cbn [sumFees fold_right List.length]. fold (sumFees docs).
  destruct (valid_feeAmount s (Hvalid s (or_introl eq_refl))) as (z & -> & Hz).
  cbn [orElse]. specialize (IH (fun x Hx => Hvalid x (or_intror Hx))). lia.
Qed.

(** X5. The revenue of the dashboard is the sum of the fee amounts of
    the active documents whose fee is paid: nothing when there is none,
    and at most 50000 for each when every stored document is one the
    schema accepts. *)
Theorem revenue_is_the_sum_of_paid_fees db :
  let stats := getDashboardStats db in
  totalRevenue stats = sumFees (paidActive db)
  /\ ((forall s, In s db -> valid s) ->
      0 <= totalRevenue stats <= 50000 * paidFees stats).
Proof.
  cbv zeta. unfold getDashboardStats. cbn [totalRevenue paidFees].
  unfold countDocuments. rewrite !select_activeWith. fold (paidActive db).
  assert (E : match groupAll (paidActive db) with
              | total :: _ => if total =? 0 then 0 else total
              | [] => 0
              end = sumFees (paidActive db)).
  { unfold groupAll. destruct (paidActive db) as [|x l]; [reflexivity|].
    destruct (Z.eqb_spec (sumFees (x :: l)) 0) as [->|_]; reflexivity. }
  rewrite E. split; [reflexivity|]. intros Hvalid. apply sumFees_bounds.
  intros s Hs. apply Hvalid. unfold paidActive in Hs. apply filter_In in Hs. tauto.
Qed.

(** X6. A document that is not active counts nowhere in the dashboard:
    the statistics of a collection are those of its active documents. *)
Theorem dashboard_ignores_inactive_documents db :
  getDashboardStats (filter isActive db) = getDashboardStats db.
Proof.
  assert (Ha : select active (filter isActive db) = select active db).
  { rewrite !select_active, filter_filter. apply filter_ext. intros s.
    destruct (isActive s); reflexivity. }
  assert (Hw : forall st, select (activeWith st) (filter isActive db)
                          = select (activeWith st) db).
  { intros st. rewrite !select_activeWith, filter_filter. apply filter_ext. intros s.
    destruct (isActive s); rewrite ?andb_false_r; reflexivity. }
  unfold getDashboardStats, countDocuments. rewrite Ha, !Hw. reflexivity.
Qed.

(** X7. The dashboard agrees with the listings: its total is the total
    that [GET /] reports with no filter, and each fee count is the total
    that [GET /fees/status/:status] reports for that status. *)
Theorem dashboard_agrees_with_the_listings db :
  let stats := getDashboardStats db in
  (forall page limit_ n,
      Examples.total (getStudents (mkListQuery page limit_ None None None None None None) db)
        = Some n -> n = totalStudents stats)
  /\ (forall page limit_ n,
        Examples.total (feeStatusRoute "paid" page limit_ db) = Some n -> n = paidFees stats)
  /\ (forall page limit_ n,
        Examples.total (feeStatusRoute "pending" page limit_ db) = Some n ->
        n = pendingFees stats)
  /\ (forall page limit_ n,
        Examples.total (feeStatusRoute "overdue" page limit_ db) = Some n ->
        n = overdueFees stats).
Proof.
  cbv zeta.
  assert (Hroute : forall st page limit_ n,
             string_mem st ["paid"; "pending"; "overdue"] = true ->
             Examples.total (feeStatusRoute st page limit_ db) = Some n ->
             n = countDocuments (activeWith st) db).
  { intros st page limit_ n Hst. unfold feeStatusRoute. rewrite Hst. cbn [negb].
    unfold pagedHelper. destruct (negb (supported _)); [discriminate|].
    destruct (exec _ db); cbn [Examples.total internalError ok data]; [discriminate|].
    cbn [totalStudents Routes.totalStudents]. intros E. injection E as <-. reflexivity. }
  split; [|split; [|split]].
  - intros page limit_ n. unfold getStudents.
    destruct (negb (supported _)); [discriminate|].
    destruct (exec _ db); cbn [Examples.total internalError ok data]; [discriminate|].
    cbn [Routes.totalStudents]. intros E. injection E as <-. reflexivity.
  - intros page limit_ n. apply Hroute. reflexivity.
  - intros page limit_ n. apply Hroute. reflexivity.
  - intros page limit_ n. apply Hroute. reflexivity.
Qed.

End StatsFacts.


(* ================================================================== *)
(** ** The sample data and the virtuals *)

Module SeedFacts.

Import Text Regex StudentModel Routes Laws Server Virtuals ValidFacts.

Local Open Scope list_scope.

(** X8. The sample data of the server is never stored: each of the
    five sample students has a hyphen in both phone numbers, which the
    schema's phone pattern refuses, so [insertMany] fails validation
    and [initializeSampleData] leaves the collection as it found it,
    empty or not. *)
Theorem sample_data_is_never_inserted env ids db :
  initializeSampleData env ids db = db
  /\ insertMany env ids sampleStudents db
     = (db, inl (ValidationError "Student validation failed"
                   [("phone", "Please enter a valid phone number");
                    ("guardianPhone", "Please enter a valid guardian phone number")]))
  /\ forall body env', In body sampleStudents ->
       validate true (fields (construct env' body))
       = [("phone", "Please enter a valid phone number");
          ("guardianPhone", "Please enter a valid guardian phone number")].
Proof.
  assert (Hmany : insertMany env ids sampleStudents db
     = (db, inl (ValidationError "Student validation failed"
                   [("phone", "Please enter a valid phone number");
                    ("guardianPhone", "Please enter a valid guardian phone number")]))).
  { vm_compute. reflexivity. }
  split; [|split].
  - unfold initializeSampleData. destruct (countDocuments (And []) db =? 0); [|reflexivity].
    rewrite Hmany. reflexivity.
  - exact Hmany.
  - intros body env' Hin. unfold sampleStudents in Hin. cbn [In] in Hin.
    destruct Hin as [<-|[<-|[<-|[<-|[<-|[]]]]]]; vm_compute; reflexivity.
Qed.

(** X9. For a document the schema accepts, the virtuals [subject] and
    [classLevel] are defined and are the two parts of the course around
    its separator, and the badge colour is one of the three of the
    known fee statuses. Without a course, both getters throw. *)
Theorem virtuals_of_a_valid_document s :
  (valid s ->
   exists subj level,
     subject s = Returns (Some subj) /\ classLevel s = Returns (Some level)
     /\ course s = Some (subj ++ " - " ++ level)%string
     /\ In (feeStatusColor s) ["green"; "orange"; "red"])
  /\ (course s = None -> subject s = Throws /\ classLevel s = Throws).
Proof.
  split.
  - intros Hvalid. destruct (valid_course s Hvalid) as (c & Hc & Hin).
    pose proof (valid_feeStatus s Hvalid) as Hfs.
    assert (Hcolor : In (feeStatusColor s) ["green"; "orange"; "red"]).
    { unfold feeStatusColor. destruct Hfs as [<-|[<-|[<-|[]]]]; vm_compute; tauto. }
    unfold subject, classLevel. rewrite Hc.
    unfold courseValues in Hin. cbn [In] in Hin.
    repeat (destruct Hin as [<-|Hin];
            [eexists; eexists; split; [vm_compute; reflexivity|];
             split; [vm_compute; reflexivity|]; split; [reflexivity | exact Hcolor]|]).
    destruct Hin.
  - intros Hc. unfold subject, classLevel. rewrite Hc. split; reflexivity.
Qed.

End SeedFacts.


(* ================================================================== *)
(** ** The routes that write *)

Module WriteFacts.

Import Text Regex StudentModel Routes Spec Laws.
Import StoreFacts HookFacts DeactivateFacts CreateFacts Invariants ValidFacts.

Local Open Scope list_scope.

Lemma findById_cast id oid db :
  castObjectId id = inr oid ->
  findById id db = inr (find (fun s => String.eqb (_id s) oid) db).
Proof. unfold findById. now intros ->. Qed.

Lemma find_absent {A} (p : A -> bool) l :
  (forall x, In x l -> p x = false) -> find p l = None.
Proof.
  induction l as [|x l IH]; intros H; [reflexivity|]. cbn [find].
  rewrite (H x (or_introl eq_refl)). apply IH. intros y Hy. apply H. now right.
Qed.

Lemma find_unknown oid (db : Collection) :
  (forall s, In s db -> _id s <> oid) -> find (fun s => String.eqb (_id s) oid) db = None.
Proof.
  intros H. apply find_absent. intros x Hx. apply String.eqb_neq. now apply H.
Qed.

Lemma accepts_id id :
  Validator.isMongoId id = true -> handleValidationErrors (validateObjectId id) = None.
Proof. unfold validateObjectId. now intros ->. Qed.


Lemma findByIdAndUpdate_none env id u db db' :
  findByIdAndUpdate env id u db = (db', inr None) -> db' = db.
Proof.
  unfold findByIdAndUpdate. destruct (castObjectId id); [discriminate|].
  destruct (validateUpdate u); [|discriminate].
  destruct (find _ db); [|intros H; now injection H as <-].
  destruct (existsb _ db); discriminate.
Qed.


(** X11. An identifier that is not 24 hexadecimal digits is answered
    400 with the same field error by every route that takes one, and
    the collection is not touched; the update route lists the error of
    the identifier before those of the body. *)
Theorem malformed_id_is_rejected_everywhere env id db :
  Validator.isMongoId id = false ->
  let rejected errs :=
    mkResponse 400 false "Validation failed" NoData None
      (("id", "Invalid student ID format") :: errs) in
  getStudent id db = rejected []
  /\ deleteStudent id db = (db, rejected [])
  /\ deactivateStudent env id db = (db, rejected [])
  /\ markStudentFeePaid env id db = (db, rejected [])
  /\ forall body, updateStudent env id body db = (db, rejected (fst (validateStudentUpdate body))).
Proof.
  intros Hid. cbv zeta.
  assert (H : validateObjectId id = [("id", "Invalid student ID format")]).
  { unfold validateObjectId. now rewrite Hid. }
  unfold getStudent, deleteStudent, deactivateStudent, markStudentFeePaid, withStudent,
    updateStudent.
  rewrite H. cbn [handleValidationErrors].
  repeat (split; [reflexivity|]).
  intros body. destruct (validateStudentUpdate body) as [errs updateData].
  reflexivity.
Qed.

(** X11 at the identifier [abc]. *)
Lemma malformed_id_example :
  getStudent "abc" Examples.oneStudent
  = mkResponse 400 false "Validation failed" NoData None
      [("id", "Invalid student ID format")].
Proof.
  destruct (malformed_id_is_rejected_everywhere Examples.envA "abc" Examples.oneStudent)
    as [H _].
  - vm_compute. reflexivity.
  - exact H.
Defined.

(** X12. A well-formed identifier that no stored document has is
    answered 404 by every route that takes one, and the collection is
    not touched; the update route answers so for every body that its
    validation accepts. *)
Theorem unknown_id_is_not_found_everywhere env id oid db :
  Validator.isMongoId id = true ->
  castObjectId id = inr oid ->
  (forall s, In s db -> _id s <> oid) ->
  getStudent id db = notFound
  /\ deleteStudent id db = (db, notFound)
  /\ deactivateStudent env id db = (db, notFound)
  /\ markStudentFeePaid env id db = (db, notFound)
  /\ forall body, fst (validateStudentUpdate body) = [] ->
       updateStudent env id body db = (db, notFound).
Proof.
  intros Hid Hcast Hnone.
  pose proof (accepts_id id Hid) as Hok.
  assert (Hfind : findById id db = inr None).
  { rewrite (findById_cast _ _ _ Hcast), (find_unknown _ _ Hnone). reflexivity. }
  unfold getStudent, deleteStudent, deactivateStudent, markStudentFeePaid, withStudent,
    updateStudent.
  rewrite Hok, Hfind. repeat (split; [reflexivity|]).
  intros body. destruct (validateStudentUpdate body) as [errs updateData].
  cbn [fst]. intros ->. rewrite app_nil_r, Hok. reflexivity.
Qed.

(** X12 at the identifier of a second student, in a collection of one. *)
Lemma unknown_id_example :
  deleteStudent "65a000000000000000000002" Examples.oneStudent
  = (Examples.oneStudent, notFound).
Proof.
  destruct (unknown_id_is_not_found_everywhere Examples.envB "65a000000000000000000002"
              "65a000000000000000000002" Examples.oneStudent)
    as (_ & H & _).
  - vm_compute. reflexivity.
  - vm_compute. reflexivity.
  - intros s Hin. vm_compute in Hin. destruct Hin as [<-|[]]. vm_compute. discriminate.
  - exact H.
Defined.

(** *** What the hooks and the store do to a document *)

(** The timestamps plugin and the pre-save hook write four paths:
    the two timestamps and the two payment dates. *)
Lemma hooks_keep env d :
  let s := fields (pre_save env (stamp env d)) in
  s = with_timestamps (createdAt s) (updatedAt s)
        (with_nextFeePayment (nextFeePayment s)
           (with_lastFeePayment (lastFeePayment s) (fields d))).
Proof.
  cbv zeta. unfold pre_save.
  repeat match goal with |- context [if ?c then _ else _] => destruct c end;
    unfold set_lastFeePayment; rewrite ?fields_assign, ?fields_derive, ?fields_assign;
    unfold stamp; destruct (isNew d); try destruct (modifiedPaths d);
    destruct d as [n m [ ]]; reflexivity.
Qed.

Lemma hooks_validate env d w :
  validate w (fields (pre_save env (stamp env d))) = validate w (fields d).
Proof. rewrite (hooks_keep env d). apply validate_ext; reflexivity. Qed.

Lemma hooks_id env d : _id (fields (pre_save env (stamp env d))) = _id (fields d).
Proof. rewrite (hooks_keep env d). reflexivity. Qed.

Lemma hooks_email env d : email (fields (pre_save env (stamp env d))) = email (fields d).
Proof. rewrite (hooks_keep env d). reflexivity. Qed.

Lemma hooks_isActive env d :
  isActive (fields (pre_save env (stamp env d))) = isActive (fields d).
Proof. rewrite (hooks_keep env d). reflexivity. Qed.

(** The three ways a save can end. *)
Lemma save_outcome env d db db' r :
  save env d db = (db', r) ->
  let s := fields (pre_save env (stamp env d)) in
  (db' = db
   /\ ((r = inr (pre_save env (stamp env d)) /\ isNew d = false
        /\ modifiedPaths (pre_save env (stamp env d)) = [])
       \/ exists e, r = inl e))
  \/ (validate (isNew d || isModified "notes" d) (fields d) = []
      /\ r = inr (hydrate s)
      /\ ((isNew d = true
           /\ existsb (fun stored => collides s stored || sameId s stored) db = false
           /\ db' = db ++ [s])
          \/ (isNew d = false
              /\ existsb (fun stored => collides s stored && negb (sameId s stored)) db = false
              /\ db' = replaceById (persisted d (pre_save env (stamp env d))) db))).
Proof.
  cbv zeta. unfold save.
  destruct (validate _ (fields d)) eqn:Hv;
    [|intros H; injection H as <- <-; left; split; [reflexivity | right; eauto]].
  destruct (isNew d).
  - destruct (existsb _ db) eqn:Hex; intros H; injection H as <- <-.
    + left. split; [reflexivity | right; eauto].
    + right. split; [reflexivity|]. split; [reflexivity|]. left. auto.
  - destruct (modifiedPaths _) eqn:Hm; [intros H; injection H as <- <-; left; auto|].
    destruct (existsb _ db) eqn:Hex; intros H; injection H as <- <-.
    + left. split; [reflexivity | right; eauto].
    + right. split; [reflexivity|]. split; [reflexivity|]. right. auto.
Qed.

Lemma replaceById_cases s db a :
  In a (replaceById s db) -> a = s \/ (In a db /\ _id a <> _id s).
Proof.
  unfold replaceById. rewrite in_map_iff. intros (y & Hy & Hin).
  destruct (String.eqb_spec (_id y) (_id s)); [now left|]. subst a. right. auto.
Qed.

(** *** Unique keys *)

Lemma existsb_none {A} (p : A -> bool) l :
  existsb p l = false -> forall x, In x l -> p x = false.
Proof.
  intros H x Hx. destruct (p x) eqn:E; [|reflexivity].
  assert (existsb p l = true) by (apply existsb_exists; eauto). congruence.
Qed.

Lemma uniqueKeys_insert s db :
  uniqueKeys db ->
  existsb (fun stored => collides s stored || sameId s stored) db = false ->
  uniqueKeys (db ++ [s]).
Proof.
  intros [Hnd Hmail] Hex.
  assert (Hfresh : forall x, In x db -> email x <> email s /\ _id x <> _id s).
  { intros x Hx. destruct (orb_false_elim _ _ (existsb_none _ _ Hex x Hx)) as [Hc Hi]. split.
    - intros E. unfold collides in Hc. rewrite E, optS_eqb_refl in Hc. discriminate.
    - intros E. unfold sameId in Hi. rewrite E, String.eqb_refl in Hi. discriminate. }
  split.
  - rewrite map_app. cbn [map].
    apply Permutation_NoDup with (l := _id s :: map _id db).
    + apply Permutation_cons_append.
    + constructor; [|exact Hnd]. intros Hin. apply in_map_iff in Hin.
      destruct Hin as (x & Hid & Hx). now apply (Hfresh x Hx).
  - intros a b Ha Hb E. apply in_app_or in Ha, Hb.
    destruct Ha as [Ha|[<-|[]]], Hb as [Hb|[<-|[]]].
    + now apply Hmail.
    + now elim (proj1 (Hfresh a Ha)).
    + symmetry in E. now elim (proj1 (Hfresh b Hb)).
    + reflexivity.
Qed.

Lemma uniqueKeys_replace s db :
  uniqueKeys db ->
  existsb (fun stored => collides s stored && negb (sameId s stored)) db = false ->
  uniqueKeys (replaceById s db).
Proof.
  intros [Hnd Hmail] Hex.
  assert (Hother : forall x, In x db -> email x = email s -> _id x = _id s).
  { intros x Hx E. destruct (proj1 (andb_false_iff _ _) (existsb_none _ _ Hex x Hx)) as [Hc|Hi].
    - unfold collides in Hc. rewrite E, optS_eqb_refl in Hc. discriminate.
    - unfold sameId in Hi. apply negb_false_iff, String.eqb_eq in Hi. exact Hi. }
  split; [now rewrite replaceById_ids|].
  intros a b Ha Hb E. apply replaceById_cases in Ha, Hb.
  destruct Ha as [->|[Ha Na]], Hb as [->|[Hb Nb]].
  - reflexivity.
  - symmetry in E. now elim Nb; apply Hother.
  - now elim Na; apply Hother.
  - now apply Hmail.
Qed.

End WriteFacts.


(* ================================================================== *)
(** ** Invariants and round trips of the writes *)

Module WriteLaws.

Import Text Regex StudentModel Routes Spec Laws.
Import StoreFacts HookFacts DeactivateFacts CreateFacts Invariants ValidFacts WriteFacts.

Local Open Scope list_scope.

(** The collection without the first document that has the identifier
    [oid], as [findByIdAndDelete] leaves it. *)
Local Abbreviation without oid :=
  (fix drop (l : Collection) : Collection :=
     match l with
     | [] => []
     | x :: t => if String.eqb (_id x) oid then t else x :: drop t
     end).

Lemma without_subset oid db x : In x (without oid db) -> In x db.
Proof.
  induction db as [|y db IH]; [intros []|].
  destruct (String.eqb (_id y) oid); [now right|].
  intros [->|H]; [now left | right; now apply IH].
Qed.

Lemma without_NoDup oid db : NoDup (map _id db) -> NoDup (map _id (without oid db)).
Proof.
  induction db as [|y db IH]; [constructor|]. cbn [map]. intros Hnd.
  inversion Hnd as [|? ? Hnot Hnd']; subst.
  destruct (String.eqb (_id y) oid); [exact Hnd'|]. cbn [map].
  constructor; [|now apply IH]. intros Hin. apply Hnot.
  apply in_map_iff in Hin. destruct Hin as (x & <- & Hx).
  apply in_map. now apply without_subset in Hx.
Qed.

Lemma without_spec oid db :
  NoDup (map _id db) ->
  forall x, In x (without oid db) <-> In x db /\ _id x <> oid.
Proof.
  induction db as [|y db IH]; cbn [map]; intros Hnd x; [cbn; tauto|].
  inversion Hnd as [|? ? Hnot Hnd']; subst.
  destruct (String.eqb_spec (_id y) oid) as [E|N].
  - cbn [In]. split.
    + intros Hx. split; [now right|]. intros Hid. apply Hnot.
      rewrite E, <- Hid. now apply in_map.
    + intros [[->|Hx] Hid]; [contradiction | exact Hx].
  - cbn [In]. rewrite (IH Hnd' x). split.
    + intros [->|[Hx Hid]]; auto.
    + intros [[->|Hx] Hid]; auto.
Qed.

Lemma without_length oid db s :
  find (fun x => String.eqb (_id x) oid) db = Some s ->
  List.length db = S (List.length (without oid db)).
Proof.
  induction db as [|y db IH]; cbn [find]; [discriminate|].
  destruct (String.eqb (_id y) oid); [reflexivity|].
  intros H. cbn [List.length]. now rewrite (IH H).
Qed.

Lemma deleteStudent_cases id db :
  fst (deleteStudent id db) = db
  \/ exists oid, castObjectId id = inr oid /\ fst (deleteStudent id db) = without oid db.
Proof.
  unfold deleteStudent. destruct (handleValidationErrors _); [now left|].
  unfold findById, findByIdAndDelete. destruct (castObjectId id) as [e|oid]; [now left|].
  destruct (find _ db); [|now left]. right. exists oid. auto.
Qed.

Lemma updateStudent_cases env id body db :
  fst (updateStudent env id body db) = db
  \/ exists old s updateData,
       In old db /\ s = applyUpdate env updateData old
       /\ validateUpdate updateData = []
       /\ existsb (fun stored => collides s stored && negb (sameId s stored)) db = false
       /\ fst (updateStudent env id body db) = replaceById s db.
Proof.
  unfold updateStudent. destruct (validateStudentUpdate body) as [errs updateData].
  destruct (handleValidationErrors _); [now left|].
  destruct (findById id db) as [e|[student|]]; try now left.
  destruct (emailChanges updateData student && _); [now left|].
  unfold findByIdAndUpdate. destruct (castObjectId id) as [e|oid]; [now left|].
  destruct (validateUpdate updateData) eqn:Hv; [|now left].
  destruct (find _ db) as [old|] eqn:Hf; [|now left].
  destruct (existsb _ db) eqn:Hex; [now left|].
  right. exists old, (applyUpdate env updateData old), updateData.
  apply find_some in Hf. cbn [fst]. tauto.
Qed.

Lemma withStudent_cases id db method done failed :
  fst (withStudent id db method done failed) = db
  \/ exists old, In old db
       /\ fst (withStudent id db method done failed) = fst (method (hydrate old) db).
Proof.
  unfold withStudent. destruct (handleValidationErrors _); [now left|].
  unfold findById. destruct (castObjectId id) as [e|oid]; [now left|].
  destruct (find _ db) as [old|] eqn:Hf; [|now left].
  right. exists old. apply find_some in Hf.
  destruct (method (hydrate old) db) as [db1 [e|saved]]; tauto.
Qed.

Lemma createStudent_cases env body db :
  fst (createStudent env body db) = db
  \/ exists studentData,
       fst (createStudent env body db) = fst (save env (construct env studentData) db).
Proof.
  unfold createStudent. destruct (validateStudent body) as [errs studentData].
  destruct (handleValidationErrors errs); [now left|].
  destruct (findOneByEmail _ db); [now left|].
  right. exists studentData. unfold insertStudent.
  destruct (save env (construct env studentData) db) as [db1 [e|saved]]; reflexivity.
Qed.

Lemma save_keeps_keys env d db :
  uniqueKeys db -> uniqueKeys (fst (save env d db)).
Proof.
  intros Hu. destruct (save env d db) as [db' r] eqn:E. cbn [fst].
  destruct (save_outcome _ _ _ _ _ E) as [[-> _]|(_ & _ & [(_ & Hex & ->)|(_ & Hex & ->)])].
  - exact Hu.
  - now apply uniqueKeys_insert.
  - destruct (HookFacts.persisted_keys d (pre_save env (stamp env d))) as [Ki Km].
    apply uniqueKeys_replace; [exact Hu|].
    unfold collides, sameId in *. rewrite Ki, Km. exact Hex.
Qed.

(** X13. The unique keys are an invariant of the API: when no two
    stored documents share an identifier or an email, none do after a
    create, an update, a delete, a deactivate or a mark-fee-paid
    request, whatever the request and however it is answered. *)
Theorem writes_keep_keys_unique env db :
  uniqueKeys db ->
  (forall body, uniqueKeys (fst (createStudent env body db)))
  /\ (forall id body, uniqueKeys (fst (updateStudent env id body db)))
  /\ (forall id, uniqueKeys (fst (deleteStudent id db)))
  /\ (forall id, uniqueKeys (fst (deactivateStudent env id db)))
  /\ (forall id, uniqueKeys (fst (markStudentFeePaid env id db))).
Proof.
  intros Hu.
  assert (With : forall id method done failed,
             (forall d, uniqueKeys (fst (method d db))) ->
             uniqueKeys (fst (withStudent id db method done failed))).
  { intros id method done failed Hm.
    destruct (withStudent_cases id db method done failed) as [->|(old & _ & ->)]; auto. }
  split; [|split; [|split; [|split]]].
  - intros body. destruct (createStudent_cases env body db) as [->|(sd & ->)];
      [exact Hu | now apply save_keeps_keys].
  - intros id body.
    destruct (updateStudent_cases env id body db) as [->|(old & s & u & _ & _ & _ & Hex & ->)];
      [exact Hu | now apply uniqueKeys_replace].
  - intros id. destruct (deleteStudent_cases id db) as [->|(oid & _ & ->)]; [exact Hu|].
    destruct Hu as [Hnd Hmail]. split.
    + now apply without_NoDup.
    + intros a b Ha Hb. apply without_subset in Ha, Hb. now apply Hmail.
  - intros id. unfold deactivateStudent. apply (With id (deactivate env)).
    intros d. now apply save_keeps_keys.
  - intros id. unfold markStudentFeePaid. apply (With id (markFeePaid env)).
    intros d. now apply save_keeps_keys.
Qed.

(** X13 at the collection of one student, for a second create. *)
Lemma writes_keep_keys_unique_example :
  uniqueKeys (fst (createStudent Examples.envB Examples.priyaBody Examples.oneStudent)).
Proof.
  destruct (writes_keep_keys_unique Examples.envB Examples.oneStudent) as [H _].
  - split.
    + vm_compute. constructor; [intros []|constructor].
    + intros a b Ha Hb _. vm_compute in Ha, Hb.
      destruct Ha as [<-|[]], Hb as [<-|[]]. reflexivity.
  - apply H.
Defined.

(** *** Valid documents *)

Lemma with_isActive_valid v s : valid s -> valid (with_isActive v s).
Proof. unfold valid. intros <-. apply validate_ext; reflexivity. Qed.

Lemma with_nextFeePayment_valid v s : valid s -> valid (with_nextFeePayment v s).
Proof. unfold valid. intros <-. apply validate_ext; reflexivity. Qed.

Lemma paid_valid t s : valid s -> valid (with_lastFeePayment t (with_feeStatus "paid" s)).
Proof.
  unfold valid. rewrite !validate_nil.
  intros (V1 & V2 & V3 & V4 & V5 & V6 & V7 & V8 & V9 & V10 & V11).
  cbn [with_lastFeePayment with_feeStatus name email phone address course batchTime
       feeAmount feeStatus guardianName guardianPhone notes].
  repeat split; auto.
Qed.

Lemma save_keeps_valid env d db :
  Forall valid db -> (isNew d = false -> valid (fields d)) ->
  Forall valid (fst (save env d db)).
Proof.
  intros Hdb Hd. destruct (save env d db) as [db' r] eqn:E. cbn [fst].
  destruct (save_outcome _ _ _ _ _ E)
    as [[-> _]|(Hv & _ & [(Hnew & _ & ->)|(Hold & _ & ->)])].
  - exact Hdb.
  - apply Forall_app. split; [exact Hdb|]. constructor; [|constructor].
    unfold valid. rewrite hooks_validate. rewrite Hnew in Hv. exact Hv.
  - apply Forall_forall. apply replaceById_forall.
    + now apply Forall_forall.
    + rewrite HookFacts.persisted_paths. apply with_nextFeePayment_valid.
      unfold valid. rewrite hooks_validate. now apply Hd.
Qed.

Lemma fields_deactivated old :
  fields (set_isActive false (hydrate old)) = with_isActive false old.
Proof. unfold set_isActive. now rewrite fields_assign. Qed.

Lemma fields_paid t old :
  fields (set_lastFeePayment t (set_feeStatus "paid" (hydrate old)))
  = with_lastFeePayment (Some t) (with_feeStatus "paid" old).
Proof. unfold set_lastFeePayment, set_feeStatus. now rewrite !fields_assign. Qed.

(** X14. Validity is an invariant of the writes that go through the
    model: when every stored document is one the schema accepts, so is
    every document stored after a create, a delete, a deactivate or a
    mark-fee-paid request. The create validates the whole document
    before it is stored, and the other three leave the validated paths
    as they were or set them to a value of the schema. *)
Theorem writes_keep_documents_valid env db :
  Forall valid db ->
  (forall body, Forall valid (fst (createStudent env body db)))
  /\ (forall id, Forall valid (fst (deleteStudent id db)))
  /\ (forall id, Forall valid (fst (deactivateStudent env id db)))
  /\ (forall id, Forall valid (fst (markStudentFeePaid env id db))).
Proof.
  intros Hdb. pose proof (proj1 (Forall_forall _ _) Hdb) as Hin.
  split; [|split; [|split]].
  - intros body. destruct (createStudent_cases env body db) as [->|(sd & ->)]; [exact Hdb|].
    apply save_keeps_valid; [exact Hdb | discriminate].
  - intros id. destruct (deleteStudent_cases id db) as [->|(oid & _ & ->)]; [exact Hdb|].
    apply Forall_forall. intros x Hx. apply Hin. now apply without_subset in Hx.
  - intros id. unfold deactivateStudent.
    destruct (withStudent_cases id db (deactivate env) "Student deactivated successfully"
                "Failed to deactivate student") as [->|(old & Hold & ->)]; [exact Hdb|].
    unfold deactivate. apply save_keeps_valid; [exact Hdb|]. intros _.
    rewrite fields_deactivated. apply with_isActive_valid, Hin, Hold.
  - intros id. unfold markStudentFeePaid.
    destruct (withStudent_cases id db (markFeePaid env)
                "Student fee marked as paid successfully" "Failed to update fee status")
      as [->|(old & Hold & ->)]; [exact Hdb|].
    unfold markFeePaid. apply save_keeps_valid; [exact Hdb|]. intros _.
    rewrite fields_paid. apply paid_valid, Hin, Hold.
Qed.

(** X14 at the collection of one student, for a payment of the fee. *)
Lemma writes_keep_documents_valid_example :
  Forall valid
    (fst (markStudentFeePaid Examples.envB Examples.rahulId Examples.oneStudent)).
Proof.
  destruct (writes_keep_documents_valid Examples.envB Examples.oneStudent) as (_ & _ & _ & H).
  - replace Examples.oneStudent with [Examples.rahul] by (vm_compute; reflexivity).
    constructor; [vm_compute; reflexivity | constructor].
  - apply H.
Defined.

End WriteLaws.


(* ================================================================== *)
(** ** Requests in sequence *)

Module Journeys.

Import Text Regex StudentModel Routes Spec Laws.
Import StoreFacts HookFacts DeactivateFacts CreateFacts Invariants ValidFacts WriteFacts
  WriteLaws.

Local Open Scope list_scope.

Lemma rejected_status errs r : handleValidationErrors errs = Some r -> status r = 400.
Proof. destruct errs; [discriminate|]. intros H. injection H as <-. reflexivity. Qed.

Lemma find_last {A} (p : A -> bool) l x :
  (forall y, In y l -> p y = false) -> p x = true -> find p (l ++ [x]) = Some x.
Proof.
  induction l as [|y l IH]; intros Hl Hx; cbn [app find].
  - now rewrite Hx.
  - rewrite (Hl y (or_introl eq_refl)). apply IH; [|exact Hx].
    intros z Hz. apply Hl. now right.
Qed.

(** X15. A created student can be fetched: after a create answered
    201, [GET /:id] with the identifier of the new document answers 200
    with the very document of the create response, which is the last of
    the collection. *)
Theorem created_student_can_be_fetched env body db db' resp :
  createStudent env body db = (db', resp) ->
  status resp = 201 ->
  canonical (newObjectId env) ->
  exists s,
    data resp = OneStudent (Some s)
    /\ db' = db ++ [s]
    /\ _id s = newObjectId env
    /\ getStudent (newObjectId env) db'
       = ok 200 "Student retrieved successfully" (OneStudent (Some s)).
Proof.
  intros Hc Hst [Hid Hcast].
  assert (Hst' : status (snd (createStudent env body db)) = 201) by now rewrite Hc.
  destruct (create_201 env body db Hst') as (sd & _ & _ & _ & Hex & Heq).
  rewrite Hc in Heq. injection Heq as -> ->.
  assert (Hpid : _id (pending env sd) = newObjectId env).
  { unfold pending. rewrite hooks_id. reflexivity. }
  exists (pending env sd). split; [reflexivity|]. split; [reflexivity|].
  split; [exact Hpid|].
  unfold getStudent. rewrite (accepts_id _ Hid), (findById_cast _ _ _ Hcast).
  rewrite find_last; [reflexivity| |].
  - intros y Hy. destruct (orb_false_elim _ _ (existsb_none _ _ Hex y Hy)) as [_ Hs].
    unfold sameId in Hs. now rewrite Hpid in Hs.
  - rewrite Hpid. apply String.eqb_refl.
Qed.

(** X15 at the first create of the examples. *)
Lemma created_student_can_be_fetched_example :
  exists s,
    getStudent Examples.rahulId (fst (createStudent Examples.envA Examples.rahulBody []))
    = ok 200 "Student retrieved successfully" (OneStudent (Some s)).
Proof.
  destruct (created_student_can_be_fetched Examples.envA Examples.rahulBody []
              (fst (createStudent Examples.envA Examples.rahulBody []))
              (snd (createStudent Examples.envA Examples.rahulBody [])))
    as (s & _ & _ & _ & H).
  - apply surjective_pairing.
  - vm_compute. reflexivity.
  - split; vm_compute; reflexivity.
  - exists s. exact H.
Defined.

(** X16. A deleted student is gone: after a delete answered 200 on a
    collection with unique identifiers, the response carries the
    document that was stored, the collection holds every other document
    and one document less, and both [GET /:id] and a second delete of
    the same identifier answer 404. *)
Theorem deleted_student_is_gone id db db' resp :
  NoDup (map _id db) ->
  deleteStudent id db = (db', resp) ->
  status resp = 200 ->
  exists s,
    data resp = OneStudent (Some s)
    /\ In s db
    /\ (forall x, In x db' <-> In x db /\ _id x <> _id s)
    /\ List.length db = S (List.length db')
    /\ getStudent id db' = notFound
    /\ deleteStudent id db' = (db', notFound).
Proof.
  intros Hnd Hd Hst. unfold deleteStudent in Hd.
  destruct (handleValidationErrors (validateObjectId id)) as [r|] eqn:Hv.
  { injection Hd as _ <-. apply rejected_status in Hv. congruence. }
  unfold findById, findByIdAndDelete in Hd.
  destruct (castObjectId id) as [e|oid] eqn:Hcast.
  { injection Hd as _ <-. discriminate Hst. }
  destruct (find _ db) as [s|] eqn:Hf; [|injection Hd as _ <-; discriminate Hst].
  injection Hd as <- <-.
  pose proof (find_some _ _ Hf) as [Hs Hsid]. apply String.eqb_eq in Hsid.
  assert (Hgone : find (fun x => String.eqb (_id x) oid)
                    ((fix drop (l : Collection) : Collection :=
                        match l with
                        | [] => []
                        | x :: t => if String.eqb (_id x) oid then t else x :: drop t
                        end) db) = None).
  { apply find_unknown. intros x Hx. now apply (without_spec oid db Hnd) in Hx. }
  exists s. split; [reflexivity|]. split; [exact Hs|]. split; [|split; [|split]].
  - intros x. rewrite Hsid. apply (without_spec oid db Hnd).
  - apply (without_length oid db s Hf).
  - unfold getStudent, findById. rewrite Hv, Hcast, Hgone. reflexivity.
  - unfold deleteStudent, findById. rewrite Hv, Hcast, Hgone. reflexivity.
Qed.

(** X16 at the collection of two students. *)
Lemma deleted_student_is_gone_example :
  getStudent Examples.rahulId (fst (deleteStudent Examples.rahulId Examples.twoStudents))
  = notFound.
Proof.
  destruct (deleted_student_is_gone Examples.rahulId Examples.twoStudents
              (fst (deleteStudent Examples.rahulId Examples.twoStudents))
              (snd (deleteStudent Examples.rahulId Examples.twoStudents)))
    as (s & _ & _ & _ & _ & H & _).
  - vm_compute. constructor; [intros [H|[]]; discriminate H|].
    constructor; [intros []|constructor].
  - apply surjective_pairing.
  - vm_compute. reflexivity.
  - exact H.
Defined.

(** *** The two routes that call a method of the document *)

Lemma existsb_no {A} (p : A -> bool) l :
  (forall x, In x l -> p x = false) -> existsb p l = false.
Proof.
  intros H. destruct (existsb p l) eqn:E; [|reflexivity].
  apply existsb_exists in E. destruct E as (x & Hx & Hp). rewrite (H x Hx) in Hp.
  discriminate.
Qed.

(** No other stored document collides with a document that keeps the
    identifier and the email of a stored one. *)
Lemma no_collision s old db :
  uniqueKeys db -> In old db -> _id s = _id old -> email s = email old ->
  existsb (fun stored => collides s stored && negb (sameId s stored)) db = false.
Proof.
  intros [_ Hmail] Hold Hid Hem. apply existsb_no. intros x Hx.
  unfold collides, sameId. destruct (optS_eqb (email x) (email s)) eqn:E; [|reflexivity].
  apply optS_eqb_eq in E. rewrite Hem in E.
  rewrite Hid, (Hmail x old Hx Hold E), String.eqb_refl. reflexivity.
Qed.

Lemma valid_any_notes w s : valid s -> validate w s = [].
Proof. destruct w; [trivial | apply valid_without_notes]. Qed.

Lemma save_existing_succeeds env d db old :
  isNew d = false -> valid (fields d) ->
  _id (fields d) = _id old -> email (fields d) = email old ->
  In old db -> uniqueKeys db ->
  exists db' doc, save env d db = (db', inr doc).
Proof.
  intros Hnew Hv Hid Hem Hold Hu. unfold save.
  rewrite (valid_any_notes _ _ Hv), Hnew.
  destruct (modifiedPaths _); [eauto|].
  rewrite (no_collision _ old db Hu Hold); [eauto| |].
  - now rewrite hooks_id.
  - now rewrite hooks_email.
Qed.

(** X17. On a collection of valid documents with unique keys, the
    deactivate and the mark-fee-paid routes cannot fail for a document
    that exists: both answer 200. *)
Theorem method_routes_succeed env id db old :
  Forall valid db -> uniqueKeys db ->
  Validator.isMongoId id = true ->
  findById id db = inr (Some old) ->
  status (snd (deactivateStudent env id db)) = 200
  /\ status (snd (markStudentFeePaid env id db)) = 200.
Proof.
  intros Hvalid Hu Hid Hfind.
  assert (Hold : In old db).
  { unfold findById in Hfind. destruct (castObjectId id); [discriminate|].
    injection Hfind as Hfind. now apply find_some in Hfind. }
  pose proof (proj1 (Forall_forall _ _) Hvalid old Hold) as Hv.
  unfold deactivateStudent, markStudentFeePaid, withStudent.
  rewrite (accepts_id _ Hid), Hfind. split.
  - destruct (save_existing_succeeds env (set_isActive false (hydrate old)) db old)
      as (db' & doc & E); auto.
    + unfold set_isActive. now rewrite isNew_assign.
    + rewrite fields_deactivated. now apply with_isActive_valid.
    + now rewrite fields_deactivated.
    + now rewrite fields_deactivated.
    + unfold deactivate. rewrite E. reflexivity.
  - destruct (save_existing_succeeds env
                (set_lastFeePayment (now env) (set_feeStatus "paid" (hydrate old))) db old)
      as (db' & doc & E); auto.
    + unfold set_lastFeePayment, set_feeStatus. now rewrite !isNew_assign.
    + rewrite fields_paid. now apply paid_valid.
    + now rewrite fields_paid.
    + now rewrite fields_paid.
    + unfold markFeePaid. rewrite E. reflexivity.
Qed.

(** X17 at the collection of one student. *)
Lemma method_routes_succeed_example :
  status (snd (markStudentFeePaid Examples.envB Examples.rahulId Examples.oneStudent)) = 200.
Proof.
  destruct (method_routes_succeed Examples.envB Examples.rahulId Examples.oneStudent
              Examples.rahul) as [_ H].
  - replace Examples.oneStudent with [Examples.rahul] by (vm_compute; reflexivity).
    constructor; [vm_compute; reflexivity | constructor].
  - replace Examples.oneStudent with [Examples.rahul] by (vm_compute; reflexivity).
    split.
    + vm_compute. constructor; [intros []|constructor].
    + intros a b [<-|[]] [<-|[]] _. reflexivity.
  - vm_compute. reflexivity.
  - vm_compute. reflexivity.
  - exact H.
Defined.

Lemma with_isActive_same s : with_isActive (isActive s) s = s.
Proof. destruct s; reflexivity. Qed.

Lemma deactivate_inactive env s db :
  isActive s = false -> validate false s = [] -> paidHasPayment s ->
  deactivate env (hydrate s) db = (db, inr (hydrate s)).
Proof.
  intros Hact Hv Hpaid.
  assert (Hd : set_isActive false (hydrate s) = hydrate s).
  { unfold set_isActive, assign. cbn [hydrate fields isNew modifiedPaths].
    rewrite Hact. cbn [Bool.eqb negb].
    replace (with_isActive false s) with s; [reflexivity|].
    rewrite <- Hact. symmetry. apply with_isActive_same. }
  assert (Hst : stamp env (hydrate s) = hydrate s) by reflexivity.
  assert (Hpre : pre_save env (hydrate s) = hydrate s).
  { unfold pre_save. cbn [hydrate isNew isModified modifiedPaths string_mem orb fields].
    destruct (String.eqb_spec (feeStatus s) "paid") as [E|N]; [|reflexivity].
    destruct (lastFeePayment s) eqn:El; [reflexivity|]. now elim (Hpaid E). }
  unfold deactivate. rewrite Hd. unfold save. rewrite Hst, Hpre.
  cbn [hydrate isNew fields isModified modifiedPaths string_mem orb]. rewrite Hv.
  reflexivity.
Qed.

Lemma notes_untouched_by_deactivate old :
  isModified "notes" (set_isActive false (hydrate old)) = false.
Proof.
  unfold set_isActive, assign, markModified, isModified.
  cbn [hydrate isNew modifiedPaths fields string_mem].
  destruct (negb _); reflexivity.
Qed.

Lemma lastFeePayment_untouched_by_deactivate old :
  isModified "lastFeePayment" (set_isActive false (hydrate old)) = false.
Proof.
  unfold set_isActive, assign, markModified, isModified.
  cbn [hydrate isNew modifiedPaths fields string_mem].
  destruct (negb _); reflexivity.
Qed.

(** Nothing modified, nothing written. *)
Lemma unmodified_fields env d :
  isNew d = false -> modifiedPaths (pre_save env (stamp env d)) = [] ->
  fields (pre_save env (stamp env d)) = fields d.
Proof.
  intros Hnew Hm.
  assert (Hmd : modifiedPaths d = []).
  { destruct (modifiedPaths d) eqn:E; [reflexivity|]. exfalso.
    apply (modifiedPaths_pre_save env (stamp env d)); [|exact Hm].
    apply modifiedPaths_stamp. rewrite E. discriminate. }
  assert (Hst : stamp env d = d) by (unfold stamp; now rewrite Hnew, Hmd).
  rewrite Hst in *. revert Hm. unfold pre_save. rewrite Hnew.
  unfold isModified. rewrite Hmd. cbn [string_mem orb].
  destruct (String.eqb (feeStatus (fields d)) "paid"
            && negb (isSome (lastFeePayment (fields d)))) eqn:E; [|reflexivity].
  apply andb_true_iff in E as [_ E].
  destruct (lastFeePayment (fields d)) eqn:El; [discriminate E|].
  unfold set_lastFeePayment, assign. rewrite El. cbn [optZ_eqb negb].
  intros Hm. now elim (modifiedPaths_markModified _ _ Hm).
Qed.

Lemma withStudent_200 id db method done failed db' resp :
  withStudent id db method done failed = (db', resp) -> status resp = 200 ->
  exists old saved,
    handleValidationErrors (validateObjectId id) = None
    /\ findById id db = inr (Some old)
    /\ method (hydrate old) db = (db', inr saved)
    /\ resp = ok 200 done (OneStudent (Some (fields saved))).
Proof.
  unfold withStudent.
  destruct (handleValidationErrors (validateObjectId id)) as [r|] eqn:Hv.
  { intros H Hst. injection H as _ <-. apply rejected_status in Hv. congruence. }
  destruct (findById id db) as [e|[old|]].
  - intros H Hst. injection H as _ <-. discriminate Hst.
  - destruct (method (hydrate old) db) as [db1 [e|saved]] eqn:E;
      intros H Hst; injection H as <- <-; [discriminate Hst|].
    exists old, saved. auto.
  - intros H Hst. injection H as _ <-. discriminate Hst.
Qed.

Lemma save_validated env d db db' doc :
  save env d db = (db', inr doc) ->
  validate (isNew d || isModified "notes" d) (fields d) = [].
Proof.
  unfold save. destruct (validate _ (fields d)); [reflexivity | discriminate].
Qed.

(** X18. Deactivating is idempotent: after a deactivate answered 200, a
    second deactivate of the same identifier gives the same answer and
    leaves the collection as the first left it. *)
Theorem deactivate_is_idempotent env1 env2 id db db1 r1 :
  deactivateStudent env1 id db = (db1, r1) ->
  status r1 = 200 ->
  deactivateStudent env2 id db1 = (db1, r1).
Proof.
  intros H1 Hst.
  destruct (withStudent_200 _ _ _ _ _ _ _ H1 Hst) as (old & saved & Hv & Hfind & Hm & ->).
  pose proof (deactivate_saved _ _ _ _ _ Hm) as (Hinactive & Hid & _).
  pose proof (save_paid _ _ _ _ _ Hm) as Hpaid.
  unfold findById in Hfind. destruct (castObjectId id) as [e|oid] eqn:Hcast; [discriminate|].
  injection Hfind as Hfind. pose proof (find_some _ _ Hfind) as [Hold Holdid].
  apply String.eqb_eq in Holdid.
  unfold deactivate in Hm.
  pose proof (save_validated _ _ _ _ _ Hm) as Hval.
  assert (Hnew : isNew (set_isActive false (hydrate old)) = false)
    by (unfold set_isActive; now rewrite isNew_assign).
  rewrite Hnew, notes_untouched_by_deactivate in Hval. cbn [orb] in Hval.
  assert (Hsaved : validate false (fields saved) = []).
  { rewrite (save_fields _ _ _ _ _ Hm), hooks_validate. exact Hval. }
  assert (Hagain : forall db2,
             find (fun s => String.eqb (_id s) oid) db2 = Some (fields saved) ->
             deactivateStudent env2 id db2
             = (db2, ok 200 "Student deactivated successfully"
                       (OneStudent (Some (fields saved))))).
  { intros db2 Hf2. unfold deactivateStudent, withStudent, findById.
    rewrite Hv, Hcast, Hf2, (deactivate_inactive env2 _ db2 Hinactive Hsaved Hpaid).
    reflexivity. }
  apply Hagain.
  destruct (save_outcome _ _ _ _ _ Hm) as [[-> [(Hr & _ & Hmod)|(e & Hr)]]
                                           |(_ & Hr & [(Hnew' & _)|(_ & _ & ->)])].
  - injection Hr as ->. rewrite (unmodified_fields _ _ Hnew Hmod), fields_deactivated.
    rewrite Hfind. f_equal.
    destruct (isActive old) eqn:Ha.
    + exfalso. apply (modifiedPaths_pre_save env1 (stamp env1 (set_isActive false (hydrate old))));
        [|exact Hmod].
      apply modifiedPaths_stamp. unfold set_isActive.
      apply modifiedPaths_assign. right. cbn [hydrate fields]. now rewrite Ha.
    + rewrite <- Ha. symmetry. apply with_isActive_same.
  - discriminate Hr.
  - congruence.
  - injection Hr as ->. cbn [hydrate fields] in *.
    rewrite persisted_same
      by (apply hooks_no_derivation; [exact Hnew | apply lastFeePayment_untouched_by_deactivate]).
    rewrite <- Holdid, <- Hid. apply replaceById_find with (old := old).
    rewrite Hid, Holdid. exact Hfind.
Qed.

(** X18 at the collection of one student. *)
Lemma deactivate_is_idempotent_example :
  deactivateStudent Examples.envA Examples.rahulId
    (fst (deactivateStudent Examples.envB Examples.rahulId Examples.oneStudent))
  = (fst (deactivateStudent Examples.envB Examples.rahulId Examples.oneStudent),
     snd (deactivateStudent Examples.envB Examples.rahulId Examples.oneStudent)).
Proof.
  apply (deactivate_is_idempotent Examples.envB Examples.envA Examples.rahulId
           Examples.oneStudent).
  - apply surjective_pairing.
  - vm_compute. reflexivity.
Defined.

(** The due date is marked by the hook of a payment exactly when the
    stored due date is not the payment date. *)
Lemma paid_marks_due env old :
  lastFeePayment old <> Some (now env) ->
  let d := set_lastFeePayment (now env) (set_feeStatus "paid" (hydrate old)) in
  nextFeePayment (fields d) = nextFeePayment old
  /\ isModified "nextFeePayment" (pre_save env (stamp env d))
     = negb (optZ_eqb (Some (now env)) (nextFeePayment old)).
Proof.
  intros Hdiff d.
  assert (Hf : fields d = with_lastFeePayment (Some (now env)) (with_feeStatus "paid" old))
    by apply fields_paid.
  assert (Hdue : nextFeePayment (fields d) = nextFeePayment old) by now rewrite Hf.
  split; [exact Hdue|].
  destruct (stamp_keeps env d) as (S1 & S2 & S3 & S4 & _).
  assert (Hnew : isNew d = false)
    by (unfold d, set_lastFeePayment, set_feeStatus; now rewrite !isNew_assign).
  assert (Hmod : isModified "lastFeePayment" d = true).
  { unfold d, set_lastFeePayment, assign.
    replace (negb _) with true; [apply markModified_is|].
    unfold set_feeStatus. rewrite fields_assign.
    cbn [with_feeStatus lastFeePayment hydrate fields].
    destruct (lastFeePayment old) as [t|]; [|reflexivity]. cbn [optZ_eqb].
    symmetry. apply negb_true_iff, Z.eqb_neq. congruence. }
  assert (Hno : isModified "nextFeePayment" d = false).
  { unfold d, set_lastFeePayment, set_feeStatus.
    rewrite !isModified_assign_other by reflexivity. reflexivity. }
  rewrite <- Hdue, <- S3. apply pre_save_marks_due.
  - now rewrite S1.
  - unfold isModified in *. now rewrite S2.
  - unfold isModified in *. now rewrite S2.
  - now rewrite S4, Hf.
Qed.

(** X19. The mark-fee-paid route settles a document: answered 200, the
    document of the response is paid, its payment date is the time of
    the request and its next payment is due one calendar month later,
    on the clock of the server's time zone; it is in no overdue listing,
    at any time. The stored document is the document of the response,
    but for one case: when the due date it held was already the time of
    the request, the hook's assignment marks nothing, the month it then
    adds to the date in place is not written, and the store keeps the
    due date it had; the stored document is paid and in no overdue
    listing then too. The payment date must differ from the one stored:
    a second payment in the same millisecond derives nothing. *)
Theorem fee_paid_settles_the_document env id db db' resp old :
  markStudentFeePaid env id db = (db', resp) ->
  status resp = 200 ->
  findById id db = inr (Some old) ->
  lastFeePayment old <> Some (now env) ->
  exists s,
    resp = ok 200 "Student fee marked as paid successfully" (OneStudent (Some s))
    /\ feeStatus s = "paid"
    /\ lastFeePayment s = Some (now env)
    /\ nextFeePayment s = Some (JSDate.addOneMonth (LocalTZA env) (now env))
    /\ (forall env', ~ overdue env' s)
    /\ let stored :=
         if optZ_eqb (Some (now env)) (nextFeePayment old)
         then with_nextFeePayment (Some (now env)) s else s in
       db' = replaceById stored db
       /\ getStudent id db' = ok 200 "Student retrieved successfully" (OneStudent (Some stored))
       /\ feeStatus stored = "paid"
       /\ lastFeePayment stored = Some (now env)
       /\ (forall env', ~ overdue env' stored).
Proof.
  intros H Hst Hfind0 Hdiff.
  destruct (withStudent_200 _ _ _ _ _ _ _ H Hst) as (old' & saved & Hv & Hfind & Hm & ->).
  assert (old' = old) by congruence. subst old'. clear Hfind0.
  destruct (markFeePaid_derives _ _ _ _ _ Hdiff Hm) as (Hfs & Hlast & Hnext).
  exists (fields saved). split; [reflexivity|].
  split; [exact Hfs|]. split; [exact Hlast|]. split; [exact Hnext|].
  split; [intros env' [_ [Ho|[Hp _]]]; rewrite Hfs in *; discriminate|].
  unfold findById in Hfind. destruct (castObjectId id) as [e|oid] eqn:Hcast; [discriminate|].
  injection Hfind as Hfind. pose proof (find_some _ _ Hfind) as [Hold Holdid].
  apply String.eqb_eq in Holdid.
  unfold markFeePaid in Hm.
  destruct (paid_marks_due env old Hdiff) as [Hdue Hmark].
  set (d := set_lastFeePayment (now env) (set_feeStatus "paid" (hydrate old))) in *.
  assert (Hsid : _id (fields saved) = oid).
  { rewrite (save_fields _ _ _ _ _ Hm), hooks_id. unfold d. now rewrite fields_paid. }
  set (stored := if optZ_eqb (Some (now env)) (nextFeePayment old)
                 then with_nextFeePayment (Some (now env)) (fields saved)
                 else fields saved).
  assert (Hstored : persisted d (pre_save env (stamp env d)) = stored).
  { unfold persisted, stored. rewrite Hmark, Hdue, <- (save_fields _ _ _ _ _ Hm).
    destruct (nextFeePayment old) as [t|] eqn:En; cbn [optZ_eqb negb]; [|reflexivity].
    destruct (Z.eqb_spec (now env) t) as [E|E]; cbn [negb]; [now rewrite E | reflexivity]. }
  assert (Hkeys : _id stored = oid /\ feeStatus stored = "paid"
                  /\ lastFeePayment stored = Some (now env)).
  { unfold stored. destruct (optZ_eqb _ _);
      cbn [with_nextFeePayment _id feeStatus lastFeePayment]; auto. }
  destruct Hkeys as (Kid & Kfs & Klast).
  assert (Hdb : db' = replaceById stored db).
  { destruct (save_outcome _ _ _ _ _ Hm) as [[-> [(Hr & _ & Hmod)|(e & Hr)]]
                                             |(_ & Hr & [(Hnew' & _)|(_ & _ & ->)])].
    - exfalso. apply (modifiedPaths_pre_save env (stamp env d)); [|exact Hmod].
      apply modifiedPaths_stamp. unfold d, set_lastFeePayment.
      apply modifiedPaths_assign. right.
      unfold set_feeStatus. rewrite fields_assign. cbn [hydrate fields with_feeStatus lastFeePayment].
      destruct (lastFeePayment old) as [t|]; [|reflexivity]. cbn [optZ_eqb].
      apply negb_true_iff, Z.eqb_neq. congruence.
    - discriminate Hr.
    - unfold d, set_lastFeePayment, set_feeStatus in Hnew'.
      rewrite !isNew_assign in Hnew'. discriminate Hnew'.
    - now rewrite Hstored. }
  cbv zeta. fold stored.
  split; [exact Hdb|]. split.
  { unfold getStudent, findById. rewrite Hv, Hcast, Hdb. clear Holdid. rewrite <- Kid.
    rewrite <- Kid in Hfind. rewrite (replaceById_find _ _ _ Hfind). reflexivity. }
  split; [exact Kfs|]. split; [exact Klast|].
  intros env' [_ [Ho|[Hp _]]]; rewrite Kfs in *; discriminate.
Qed.

(** X19 at the collection of one student. *)
Lemma fee_paid_settles_example :
  exists s,
    getStudent Examples.rahulId
      (fst (markStudentFeePaid Examples.envB Examples.rahulId Examples.oneStudent))
    = ok 200 "Student retrieved successfully" (OneStudent (Some s))
    /\ feeStatus s = "paid" /\ lastFeePayment s = Some (now Examples.envB)
    /\ nextFeePayment s
       = Some (JSDate.addOneMonth (LocalTZA Examples.envB) (now Examples.envB)).
Proof.
  destruct (fee_paid_settles_the_document Examples.envB Examples.rahulId Examples.oneStudent
              (fst (markStudentFeePaid Examples.envB Examples.rahulId Examples.oneStudent))
              (snd (markStudentFeePaid Examples.envB Examples.rahulId Examples.oneStudent))
              Examples.rahul)
    as (s & _ & H2 & H3 & H4 & _ & H5).
  - apply surjective_pairing.
  - vm_compute. reflexivity.
  - vm_compute. reflexivity.
  - vm_compute. discriminate.
  - exists s. cbv zeta in H5.
    replace (optZ_eqb (Some (now Examples.envB)) (nextFeePayment Examples.rahul))
      with false in H5 by (vm_compute; reflexivity).
    destruct H5 as (_ & H5 & _). auto.
Defined.

(** The one case in which the store and the response differ: a student
    whose due date is the very time of the payment. The response gives
    the due date a month later; the store keeps the one it had. *)
Example fee_paid_keeps_an_equal_due_date :
  let env := Examples.envB in
  let db := [with_nextFeePayment (Some (now env)) Examples.rahul] in
  let (db', resp) := markStudentFeePaid env Examples.rahulId db in
  status resp = 200
  /\ map nextFeePayment db' = [Some (now env)]
  /\ match data resp with
     | OneStudent (Some s) =>
         nextFeePayment s = Some (JSDate.addOneMonth (LocalTZA env) (now env))
     | _ => False
     end
  /\ map feeStatus db' = ["paid"]
  /\ map lastFeePayment db' = [Some (now env)].
Proof. vm_compute. repeat split. Qed.

(** X20. Marking a fee overdue changes the status and leaves the dates
    alone: after [markFeeOverdue] the document is overdue, its payment
    dates and its active flag are those it had, and while it is active
    it is in the overdue listing at any time. *)
Theorem mark_fee_overdue_lists_the_document env old db db' saved :
  markFeeOverdue env (hydrate old) db = (db', inr saved) ->
  feeStatus (fields saved) = "overdue"
  /\ lastFeePayment (fields saved) = lastFeePayment old
  /\ nextFeePayment (fields saved) = nextFeePayment old
  /\ isActive (fields saved) = isActive old
  /\ (isActive old = true -> forall env', overdue env' (fields saved)).
Proof.
  unfold markFeeOverdue. intros Hm.
  pose proof (save_fields _ _ _ _ _ Hm) as Hf.
  set (d := set_feeStatus "overdue" (hydrate old)) in *.
  assert (Hd : fields d = with_feeStatus "overdue" old)
    by (unfold d, set_feeStatus; now rewrite fields_assign).
  assert (Hfs : feeStatus (fields saved) = "overdue").
  { rewrite Hf, pre_save_feeStatus.
    unfold stamp. destruct (isNew d); [rewrite ?Hd; reflexivity|].
    destruct (modifiedPaths d); cbn [fields]; rewrite ?Hd; reflexivity. }
  assert (Hact : isActive (fields saved) = isActive old).
  { rewrite Hf, hooks_isActive, Hd. reflexivity. }
  assert (Hstamp : isNew (stamp env d) = false
                   /\ isModified "lastFeePayment" (stamp env d) = false
                   /\ lastFeePayment (fields (stamp env d)) = lastFeePayment old
                   /\ nextFeePayment (fields (stamp env d)) = nextFeePayment old
                   /\ feeStatus (fields (stamp env d)) = "overdue").
  { unfold d, set_feeStatus, assign, markModified, isModified, stamp.
    cbn [hydrate isNew modifiedPaths fields string_mem].
    destruct (negb _); cbn [isNew modifiedPaths fields isModified string_mem orb];
      repeat split; reflexivity. }
  destruct Hstamp as (S1 & S2 & S3 & S4 & S5).
  assert (Hpre : pre_save env (stamp env d) = stamp env d).
  { unfold pre_save. rewrite S1, S2. cbn [orb]. rewrite S5. reflexivity. }
  rewrite Hpre in Hf.
  split; [exact Hfs|]. split; [now rewrite Hf|]. split; [now rewrite Hf|].
  split; [exact Hact|].
  intros Ha env'. split; [now rewrite Hact | now left].
Qed.

(** X20 at the first student of the examples. *)
Lemma mark_fee_overdue_example :
  exists saved,
    snd (markFeeOverdue Examples.envB (hydrate Examples.rahul) Examples.oneStudent)
    = inr saved
    /\ feeStatus (fields saved) = "overdue".
Proof.
  destruct (markFeeOverdue Examples.envB (hydrate Examples.rahul) Examples.oneStudent)
    as [db' [e|saved]] eqn:E; [vm_compute in E; discriminate E|].
  exists saved. split; [reflexivity|].
  exact (proj1 (mark_fee_overdue_lists_the_document _ _ _ _ _ E)).
Defined.



(** X22. An update to an email that a stored document holds is a
    conflict: when the body carries an email that differs from the one
    of the document and that some stored document has, once lowered
    and trimmed as the schema does, the answer is 409 and the
    collection is not touched. *)
Theorem update_to_a_taken_email_is_a_conflict env id body db updateData student other e :
  validateStudentUpdate body = ([], updateData) ->
  Validator.isMongoId id = true ->
  findById id db = inr (Some student) ->
  b_email updateData = Some (EStr e) -> e <> "" ->
  email student <> Some e ->
  In other db -> email other = Some (toLowerCase (trim e)) ->
  updateStudent env id body db = (db, emailExists).
Proof.
  intros Hbody Hid Hfind He Hne Hdiff Hother Hmail.
  unfold updateStudent. rewrite Hbody, app_nil_r, (accepts_id _ Hid), Hfind.
  assert (Hch : emailChanges updateData student = true).
  { unfold emailChanges. rewrite He. destruct e; [now elim Hne|]. cbn [is_empty negb andb].
    apply negb_true_iff. destruct (optS_eqb _ (email student)) eqn:E; [|reflexivity].
    apply optS_eqb_eq in E. now elim Hdiff. }
  rewrite Hch, He.
  destruct (findOneByEmail_hit (EStr e) db other Hother Hmail) as [found ->].
  reflexivity.
Qed.


(** X22 at the collection of two students: the first takes the email
    of the second. *)
Lemma update_to_a_taken_email_example :
  updateStudent Examples.envB Examples.rahulId
    (Examples.with_b_email "priya.patel@email.com" noFields) Examples.twoStudents
  = (Examples.twoStudents, emailExists).
Proof.
  apply (update_to_a_taken_email_is_a_conflict Examples.envB Examples.rahulId
           (Examples.with_b_email "priya.patel@email.com" noFields) Examples.twoStudents
           (Examples.with_b_email "priya.patel@email.com" noFields)
           Examples.rahul
           (nth 1 Examples.twoStudents Examples.rahul)
           "priya.patel@email.com").
  - vm_compute. reflexivity.
  - vm_compute. reflexivity.
  - vm_compute. reflexivity.
  - reflexivity.
  - discriminate.
  - vm_compute. discriminate.
  - vm_compute. right. left. reflexivity.
  - vm_compute. reflexivity.
Defined.

End Journeys.


(* ================================================================== *)
(** ** The listings *)

Module Listings.

Import Text Regex StudentModel Routes Spec Laws Examples.
Import StoreFacts QueryFacts SearchFacts PaginationFacts ValidFacts.

Local Open Scope list_scope.

Lemma records_pagedHelper helper sortPath dir pg lim done failed db s :
  In s (records (pagedHelper helper sortPath dir pg lim done failed db)) ->
  In s db /\ eval (conditions helper) s = true.
Proof.
  destruct (pagedHelper helper sortPath dir pg lim done failed db) as [resp|] eqn:E;
    [|intros []].
  unfold records. destruct resp as [st su ms [| |students p] er ers] eqn:Er; try (intros []).
  intros Hin. apply (proj1 (pagedHelper_page _ _ _ _ _ _ _ _ _ students p E eq_refl)), Hin.
Qed.

Lemma total_pagedHelper helper sortPath dir pg lim done failed db n :
  total (pagedHelper helper sortPath dir pg lim done failed db) = Some n ->
  n = Z.of_nat (List.length (select (conditions helper) db)).
Proof.
  destruct (pagedHelper helper sortPath dir pg lim done failed db) as [resp|] eqn:E;
    [|discriminate].
  unfold total. destruct resp as [st su ms [| |students p] er ers] eqn:Er; try discriminate.
  intros H. injection H as <-.
  apply (proj2 (pagedHelper_page _ _ _ _ _ _ _ _ _ students p E eq_refl)).
Qed.

(** X23. The fee-status route answers 400 for a status outside the
    three of the schema, without a query; otherwise every document it
    returns is active and has the status asked for, and the documents
    it returns for [overdue] are overdue at any time. *)
Theorem fee_status_route_checks_the_status st page limit_ db :
  (string_mem st ["paid"; "pending"; "overdue"] = false ->
   feeStatusRoute st page limit_ db
   = Some (failure 400 "Invalid fee status. Must be paid, pending, or overdue"))
  /\ (forall s, In s (records (feeStatusRoute st page limit_ db)) ->
        In s db /\ feeStatus s = st /\ isActive s = true
        /\ In st ["paid"; "pending"; "overdue"])
  /\ (forall s env, In s (records (feeStatusRoute "overdue" page limit_ db)) ->
        overdue env s).
Proof.
  assert (Hrows : forall st' s,
             In s (records (feeStatusRoute st' page limit_ db)) ->
             In s db /\ feeStatus s = st' /\ isActive s = true
             /\ In st' ["paid"; "pending"; "overdue"]).
  { intros st' s. unfold feeStatusRoute.
    destruct (string_mem st' ["paid"; "pending"; "overdue"]) eqn:Hst; cbn [negb];
      [|intros []].
    intros Hin. apply records_pagedHelper in Hin. destruct Hin as [Hdb Hev].
    split; [exact Hdb|]. unfold findByFeeStatus, find_ in Hev. cbn [conditions] in Hev.
    rewrite !eval_And_cons, eval_And_nil, eval_isActive, eval_feeStatus in Hev.
    apply andb_true_iff in Hev as [Hfs Hact]. apply andb_true_iff in Hact as [Hact _].
    apply String.eqb_eq in Hfs. split; [exact Hfs|].
    split; [now destruct (isActive s)|]. now apply string_mem_In. }
  split; [|split].
  - unfold feeStatusRoute. now intros ->.
  - apply Hrows.
  - intros s env Hin. destruct (Hrows _ _ Hin) as (_ & Hfs & Hact & _).
    split; [exact Hact | now left].
Qed.

Lemma exec_ext c1 c2 sp sk lim db :
  (forall s, eval c1 s = eval c2 s) ->
  exec (mkQuery c1 sp sk lim) db = exec (mkQuery c2 sp sk lim) db.
Proof.
  intros H. unfold exec, select. cbn [skipValue limitValue sortSpec conditions].
  now rewrite (filter_ext _ _ H).
Qed.

Lemma countDocuments_ext c1 c2 db :
  (forall s, eval c1 s = eval c2 s) -> countDocuments c1 db = countDocuments c2 db.
Proof. intros H. unfold countDocuments, select. now rewrite (filter_ext _ _ H). Qed.

Lemma truthy_nonempty c : c <> "" -> truthy (Some c) = true.
Proof. destruct c; [now intros H; elim H | reflexivity]. Qed.

(** A helper route and the list with a filter of the same meaning. *)
Lemma helper_as_list q c done failed db :
  truthy (q_search q) = false -> q_sortBy q = None -> q_sortOrder q = None ->
  (forall s, eval c s = eval (listFilter q) s) ->
  supported c = true -> supported (listFilter q) = true ->
  records (pagedHelper (find_ c) "createdAt" (-1) (q_page q) (q_limit q) done failed db)
  = records (getStudents q db)
  /\ total (pagedHelper (find_ c) "createdAt" (-1) (q_page q) (q_limit q) done failed db)
     = total (getStudents q db).
Proof.
  intros Hsearch Hby Hord Hev Hs1 Hs2.
  unfold pagedHelper, getStudents, listQuery. rewrite Hsearch, Hby, Hord.
  unfold sort, skip, limit, find_.
  cbn [conditions sortSpec skipValue limitValue orElse String.eqb Ascii.eqb Bool.eqb].
  rewrite Hs1, Hs2. cbn [negb].
  rewrite (exec_ext c (listFilter q) _ _ _ db Hev), (countDocuments_ext _ _ db Hev).
  destruct (exec _ db); split; reflexivity.
Qed.

(** X24. The routes by course and by fee status are the list with one
    filter: for a course, or for one of the three fee statuses, they
    return the documents and report the total that [GET /] returns and
    reports with the same value as its only filter, page by page. *)
Theorem helper_routes_are_the_list_filters page limit_ db :
  (forall c, c <> "" ->
     records (courseRoute c page limit_ db) = records (getStudents (byCourse c page limit_) db)
     /\ total (courseRoute c page limit_ db) = total (getStudents (byCourse c page limit_) db))
  /\ (forall st, In st ["paid"; "pending"; "overdue"] ->
        records (feeStatusRoute st page limit_ db)
        = records (getStudents (byFeeStatus st page limit_) db)
        /\ total (feeStatusRoute st page limit_ db)
           = total (getStudents (byFeeStatus st page limit_) db)).
Proof.
  split.
  - intros c Hc.
    assert (Hf : listFilter (byCourse c page limit_)
                 = And [Is "isActive" (VBool true); Is "course" (VStr c)]).
    { unfold listFilter, byCourse. cbn [q_isActive q_course q_feeStatus orElse text].
      rewrite (truthy_nonempty c Hc). reflexivity. }
    apply (helper_as_list (byCourse c page limit_)); try reflexivity.
    + intros s. rewrite Hf. unfold findByCourse, find_. cbn [conditions].
      rewrite !eval_And_cons, eval_And_nil. rewrite !andb_true_r. apply andb_comm.
    + rewrite Hf. reflexivity.
  - intros st Hst.
    assert (Hne : st <> "") by (intros ->; cbn in Hst; intuition discriminate).
    assert (Hf : listFilter (byFeeStatus st page limit_)
                 = And [Is "isActive" (VBool true); Is "feeStatus" (VStr st)]).
    { unfold listFilter, byFeeStatus. cbn [q_isActive q_course q_feeStatus orElse text].
      rewrite (truthy_nonempty st Hne). reflexivity. }
    unfold feeStatusRoute. rewrite (proj2 (string_mem_In _ _) Hst). cbn [negb].
    apply (helper_as_list (byFeeStatus st page limit_)); try reflexivity.
    + intros s. rewrite Hf. unfold findByFeeStatus, find_. cbn [conditions].
      rewrite !eval_And_cons, eval_And_nil. rewrite !andb_true_r. apply andb_comm.
    + rewrite Hf. reflexivity.
Qed.




(** X26. A page number below one is not a validation error: with a
    page size of at least one the store refuses the negative skip, and
    [GET /] answers 500. *)
Theorem page_below_one_is_an_internal_error q db p l :
  JSNum.parseInt (orElse (q_page q) "1") = JSNum.Num p ->
  JSNum.parseInt (orElse (q_limit q) "10") = JSNum.Num l ->
  p <= 0 -> 1 <= l ->
  supported (conditions (listQuery q)) = true ->
  exists e,
    getStudents q db = Some (internalError "Failed to retrieve students" e)
    /\ status (internalError "Failed to retrieve students" e) = 500.
Proof.
  intros Hp Hl Hp0 Hl1 Hs. unfold getStudents. rewrite Hp, Hl.
  unfold limit at 1, skip at 1; cbn [conditions]. rewrite Hs. cbn [negb].
  unfold exec, limit, skip; cbn [conditions sortSpec skipValue limitValue].
  cbn [JSNum.pred JSNum.mul JSNum.negative].
  replace (p - 1 <? 0) with true by (symmetry; apply Z.ltb_lt; lia).
  replace (l <? 0) with false by (symmetry; apply Z.ltb_ge; lia).
  replace ((p - 1) * l =? 0) with false by (symmetry; apply Z.eqb_neq; nia).
  cbn [xorb andb skipCount].
  replace ((p - 1) * l <? 0) with true by (symmetry; apply Z.ltb_lt; nia).
  eexists. split; reflexivity.
Qed.

(** X26 at page 0 of the collection of two students. *)
Lemma page_below_one_example :
  option_map status
    (getStudents (mkListQuery (Some "0") None None None None None None None) twoStudents)
  = Some 500.
Proof.
  destruct (page_below_one_is_an_internal_error
              (mkListQuery (Some "0") None None None None None None None) twoStudents 0 10)
    as (e & -> & _).
  - vm_compute. reflexivity.
  - vm_compute. reflexivity.
  - lia.
  - lia.
  - vm_compute. reflexivity.
  - reflexivity.
Defined.

Lemma compareValue_antisym a b : compareValue b a = CompOpp (compareValue a b).
Proof.
  destruct a as [|x|x|x|x|x], b as [|y|y|y|y|y]; try reflexivity; cbn [compareValue].
  - apply Z.compare_antisym.
  - apply String.compare_antisym.
  - apply String.compare_antisym.
  - destruct x, y; reflexivity.
  - apply Z.compare_antisym.
Qed.

Lemma precedes_total spec a b : precedes spec a b = false -> precedes spec b a = true.
Proof.
  unfold precedes. rewrite (compareValue_antisym (getPath (fst spec) a)).
  destruct (0 <=? snd spec); destruct (compareValue _ _); cbn; congruence.
Qed.

Lemma insertSorted_Sorted spec x l :
  Sorted (fun a b => precedes spec a b = true) l ->
  Sorted (fun a b => precedes spec a b = true) (insertSorted spec x l).
Proof.
  induction 1 as [|y l Hl IH Hy]; cbn [insertSorted].
  - constructor; constructor.
  - destruct (precedes spec x y) eqn:E.
    + constructor; [now constructor|]. now constructor.
    + constructor; [exact IH|]. apply precedes_total in E.
      destruct l as [|z l]; cbn [insertSorted]; [now constructor|].
      destruct (precedes spec x z); constructor; [exact E|]. now inversion Hy.
Qed.

Lemma sorted_Sorted spec l :
  Sorted (fun a b => precedes spec a b = true) (sorted (Some spec) l).
Proof.
  induction l as [|x l IH]; cbn [sorted fold_right]; [constructor|].
  apply insertSorted_Sorted, IH.
Qed.

Lemma Sorted_skipn {A} (R : A -> A -> Prop) n l : Sorted R l -> Sorted R (skipn n l).
Proof.
  revert l. induction n as [|n IH]; intros l Hl; [exact Hl|].
  destruct l as [|x l]; [constructor|]. cbn [skipn]. apply IH. now inversion Hl.
Qed.

Lemma Sorted_firstn {A} (R : A -> A -> Prop) n l : Sorted R l -> Sorted R (firstn n l).
Proof.
  revert l. induction n as [|n IH]; intros l Hl; [constructor|].
  destruct l as [|x l]; [constructor|]. cbn [firstn]. inversion Hl as [|? ? Hl' Hx]; subst.
  constructor; [now apply IH|]. destruct l as [|y l]; [destruct n; constructor|].
  destruct n; [constructor|]. cbn [firstn]. constructor. now inversion Hx.
Qed.

Lemma Sorted_weaken {A} (R R' : A -> A -> Prop) l :
  (forall a b, R a b -> R' a b) -> Sorted R l -> Sorted R' l.
Proof.
  intros H. induction 1 as [|x l Hl IH Hx]; constructor; [exact IH|].
  destruct Hx; constructor; auto.
Qed.

(** X27. The list is sorted as asked: each document of a page of
    [GET /] goes before the next, or ties with it, under the requested
    path and direction, where any order other than [asc] means
    descending; with no sort requested, a document is never older by
    [createdAt] than the one after it. *)
Theorem listing_is_sorted_as_requested q db :
  (let spec := (orElse (q_sortBy q) "createdAt",
                if String.eqb (orElse (q_sortOrder q) "desc") "asc" then 1 else -1) in
   Sorted (fun a b => precedes spec a b = true) (records (getStudents q db)))
  /\ (q_sortBy q = None -> q_sortOrder q = None ->
      Sorted (fun a b => forall x y, createdAt a = Some x -> createdAt b = Some y -> y <= x)
        (records (getStudents q db))).
Proof.
  assert (Hs : let spec := (orElse (q_sortBy q) "createdAt",
                            if String.eqb (orElse (q_sortOrder q) "desc") "asc"
                            then 1 else -1) in
               Sorted (fun a b => precedes spec a b = true) (records (getStudents q db))).
  { cbv zeta. unfold getStudents.
    destruct (negb (supported _)); [constructor|].
    match goal with |- context [exec ?q db] => destruct (exec q db) as [e|rows] eqn:He end;
      [constructor|].
    cbn [records ok data]. apply exec_ok in He. destruct He as (sk & lim & _ & _ & ->).
    unfold limit, skip, listQuery, sort. cbn [sortSpec].
    unfold page. destruct lim; [apply Sorted_firstn|]; apply Sorted_skipn, sorted_Sorted. }
  split; [exact Hs|]. intros Hby Hord. cbv zeta in Hs. rewrite Hby, Hord in Hs.
  revert Hs. apply Sorted_weaken. intros a b. unfold precedes. cbn [fst snd orElse].
  intros Hp x y Ha Hb. change (getPath "createdAt" a) with (ofDate (createdAt a)) in Hp.
  change (getPath "createdAt" b) with (ofDate (createdAt b)) in Hp.
  rewrite Ha, Hb in Hp. cbn in Hp. destruct (Z.compare_spec x y); try lia. discriminate Hp.
Qed.

(** X28. The search route counts what it searches: the total it reports
    is the number of active documents that the term matches in name,
    email, course or phone, and every document it returns is one of
    them. *)
Theorem search_route_counts_its_matches term page limit_ db :
  (forall n, total (searchRoute term page limit_ db) = Some n ->
     n = Z.of_nat (List.length (filter (regexHit term) db)))
  /\ (forall s, In s (records (searchRoute term page limit_ db)) ->
        In s db /\ regexHit term s = true)
  /\ (ordinary term = true ->
      forall s, In s (records (searchRoute term page limit_ db)) -> substringHit term s = true).
Proof.
  assert (Hrows : forall s, In s (records (searchRoute term page limit_ db)) ->
                            In s db /\ regexHit term s = true).
  { intros s Hin. apply records_pagedHelper in Hin. now rewrite eval_search in Hin. }
  split; [|split; [exact Hrows|]].
  - intros n Hn. apply total_pagedHelper in Hn. rewrite Hn. unfold select.
    now rewrite (filter_ext _ _ (eval_search term)).
  - intros Hord s Hin. destruct (Hrows s Hin) as [_ H]. revert H.
    unfold regexHit, substringHit. now rewrite !(ordinary_search term Hord).
Qed.

End Listings.


(* ================================================================== *)
(** ** What the list filters and a create mean *)

Module Answers.

Import Text Regex StudentModel Routes Spec Laws Examples.
Import StoreFacts HookFacts WritePaths QueryFacts SearchFacts PaginationFacts CreateFacts
  ValidFacts WriteFacts Listings.

Local Open Scope list_scope.

Lemma eval_And_app l1 l2 s : eval (And (l1 ++ l2)) s = eval (And l1) s && eval (And l2) s.
Proof.
  induction l1 as [|c l1 IH]; [now rewrite eval_And_nil|].
  change ((c :: l1) ++ l2) with (c :: (l1 ++ l2)).
  now rewrite !eval_And_cons, IH, andb_assoc.
Qed.

(** X29. What the filters of [GET /] mean, when no search term is
    given: a document of the answer has the course asked for, trimmed
    as the schema trims it, and the fee status asked for; unless
    [isActive] is [all], it is active exactly when [isActive] is the
    string [true], so that any other value lists the inactive
    documents. *)
Theorem list_filters_select_what_they_name q db s :
  truthy (q_search q) = false ->
  In s (records (getStudents q db)) ->
  In s db
  /\ (forall c, q_course q = Some c -> c <> "" -> course s = Some (trim c))
  /\ (forall f, q_feeStatus q = Some f -> f <> "" -> feeStatus s = f)
  /\ (orElse (q_isActive q) "true" <> "all" ->
      isActive s = String.eqb (orElse (q_isActive q) "true") "true").
Proof.
  intros Hsearch Hin.
  assert (Hev : In s db /\ eval (listFilter q) s = true).
  { destruct (getStudents q db) as [resp|] eqn:E; [|destruct Hin].
    unfold records in Hin. destruct resp as [st su ms [| |students p] er ers] eqn:Er;
      try (destruct Hin).
    pose proof (getStudents_page q db _ students p E eq_refl s Hin) as [Hdb Hev].
    split; [exact Hdb|]. unfold listQuery in Hev. rewrite Hsearch in Hev. exact Hev. }
  destruct Hev as [Hdb Hev]. split; [exact Hdb|].
  unfold listFilter in Hev. rewrite !eval_And_app in Hev.
  apply andb_true_iff in Hev as [Ha Hev]. apply andb_true_iff in Hev as [Hc Hf].
  split; [|split].
  - intros c Hq Hne. rewrite Hq in Hc. cbn [text orElse] in Hc.
    rewrite (truthy_nonempty c Hne) in Hc.
    rewrite eval_And_cons, eval_And_nil, andb_true_r in Hc.
    change (eval (Is "course" (VStr c)) s)
      with (value_eqb (ofText (course s)) (VStr (trim c))) in Hc.
    destruct (course s) as [x|]; [|discriminate Hc]. cbn [ofText value_eqb] in Hc.
    apply String.eqb_eq in Hc. now rewrite Hc.
  - intros f Hq Hne. rewrite Hq in Hf. cbn [text orElse] in Hf.
    rewrite (truthy_nonempty f Hne) in Hf.
    rewrite eval_And_cons, eval_And_nil, andb_true_r, eval_feeStatus in Hf.
    now apply String.eqb_eq in Hf.
  - intros Hall. apply String.eqb_neq in Hall. rewrite Hall in Ha. cbn [negb] in Ha.
    rewrite eval_And_cons, eval_And_nil, andb_true_r, eval_isActive in Ha.
    now apply Bool.eqb_prop in Ha.
Qed.

(** X29 at the collection of two students, with [isActive=yes]. *)
Lemma list_filters_example :
  records (getStudents (mkListQuery None None None None None None None (Some "yes"))
             twoStudents) = [].
Proof.
  destruct (records (getStudents (mkListQuery None None None None None None None (Some "yes"))
                       twoStudents)) as [|s rest] eqn:E; [reflexivity|].
  exfalso.
  destruct (list_filters_select_what_they_name
              (mkListQuery None None None None None None None (Some "yes")) twoStudents s)
    as (Hdb & _ & _ & Hact).
  - reflexivity.
  - rewrite E. now left.
  - assert (Ha : isActive s = false) by (apply Hact; vm_compute; discriminate).
    vm_compute in Hdb. destruct Hdb as [<-|[<-|[]]]; discriminate Ha.
Defined.

(** X30. What a create stores beside the body: answered 201, the new
    document is active unless the body says otherwise, its fee status
    is [pending] and its join date the time of the request unless the
    body gives them, and its due date is one calendar month after the
    payment date of the body, or else after the join date, on the clock
    of the server's time zone, whatever due date the body carries. *)
Theorem created_document_has_the_defaults env body db db' resp :
  createStudent env body db = (db', resp) ->
  status resp = 201 ->
  exists s,
    data resp = OneStudent (Some s)
    /\ In s db'
    /\ isActive s = orElse (b_isActive body) true
    /\ feeStatus s = orElse (b_feeStatus body) "pending"
    /\ joinDate s = orElse (b_joinDate body) (now env)
    /\ nextFeePayment s
       = Some (JSDate.addOneMonth (LocalTZA env)
                 (orElse (b_lastFeePayment body) (joinDate s))).
Proof.
  intros Hc Hst.
  destruct (create_stores env body db db' resp Hc Hst) as (s & Hdata & Hdb & Hnext & _).
  assert (Hst' : status (snd (createStudent env body db)) = 201) by now rewrite Hc.
  destruct (create_201 env body db Hst') as (sd & Hsd & _ & _ & _ & Heq).
  rewrite Hc in Heq. injection Heq as Hdb' Hresp.
  assert (Hs : s = pending env sd).
  { rewrite Hresp in Hdata. cbn [data ok] in Hdata. congruence. }
  unfold validateStudent in Hsd. injection Hsd as _ Hsd.
  exists s. split; [exact Hdata|]. split; [rewrite Hdb; apply in_or_app; right; now left|].
  rewrite Hs at 1 2 3. unfold pending.
  rewrite (hooks_keep env (construct env sd)).
  cbn [with_timestamps with_nextFeePayment with_lastFeePayment isActive feeStatus joinDate].
  rewrite <- Hsd.
  cbn [construct fields isActive feeStatus joinDate b_isActive b_feeStatus b_joinDate
       stamp isNew with_timestamps orElse].
  repeat (split; [reflexivity|]). exact Hnext.
Qed.

(** X30 at a create on a server in New York, of a student who joined on
    2024-02-15 at 07:00 local time, with a due date in the body: the due
    date stored is 2024-03-15 at 07:00 local time, an hour less than a
    month of equal days later, the clocks having gone forward. *)
Lemma created_document_example :
  let env := mkEnv 1730000000000 newYork "65a000000000000000000001" in
  let body :=
    mkBody (b_name rahulBody) (b_email rahulBody) (b_phone rahulBody)
      (b_address rahulBody) (b_course rahulBody) (b_batchTime rahulBody)
      (b_feeAmount rahulBody) None (Some 1707998400000)
      (b_guardianName rahulBody) (b_guardianPhone rahulBody) None None None
      (Some 0) in
  exists s,
    In s (fst (createStudent env body []))
    /\ isActive s = true /\ feeStatus s = "pending"
    /\ nextFeePayment s = Some 1710500400000.
Proof.
  intros env body.
  destruct (created_document_has_the_defaults env body [] _ _ (surjective_pairing _))
    as (s & _ & Hin & Hact & Hfee & Hjoin & Hnext).
  - vm_compute. reflexivity.
  - exists s. split; [exact Hin|]. split; [exact Hact|]. split; [exact Hfee|].
    rewrite Hnext, Hjoin. vm_compute. reflexivity.
Defined.

End Answers.
